(** * FHEVM SDK: codec, validator, client and hook wrappers

    A shallow embedding of the orchestration core of the FHEVM SDK
    (packages/fhevm-sdk: core/FhevmClient, utils/encryption, react hooks)
    and of the example application's helpers (lib/utils/security,
    lib/utils/validation), with the properties the specification states
    about them.

    JavaScript values are modelled as the runtime sees them: strings as
    [string] (code units restricted to one byte, which covers every
    character the hex and address syntax can accept), a [Uint8Array] as a
    [list byte] whose out-of-range writes are dropped, a Number as an exact
    rational or one of the three non-finite values, a BigInt as [Z], and a
    call that may throw as a [JsResult]. *)

From Stdlib Require Import ZArith QArith String Ascii List Lia Bool.
From Stdlib.Strings Require Import Byte.
From stdpp Require Import base list strings.

Local Open Scope string_scope.
Local Open Scope list_scope.

(* ===================================================================== *)
(** ** The JavaScript runtime primitives the sources rely on *)
(* ===================================================================== *)

Module Js.

(** An [Error] object: its [name] and its [message]. *)
Record JsError := mkError { err_name : string; err_message : string }.

(** [new Error(msg)] *)
Definition Error (msg : string) : JsError := mkError "Error" msg.
Definition RangeError (msg : string) : JsError := mkError "RangeError" msg.
Definition SyntaxError (msg : string) : JsError := mkError "SyntaxError" msg.
Definition TypeError (msg : string) : JsError := mkError "TypeError" msg.

(** [Error.prototype.toString], which a template literal [`${error}`] calls. *)
Definition error_toString (e : JsError) : string :=
  match err_name e, err_message e with
  | "", m => m
  | n, "" => n
  | n, m => n +:+ ": " +:+ m
  end.

(** The outcome of a call: it returns a value or throws. *)
Inductive JsResult (A : Type) : Type :=
| Returned (a : A)
| Thrown (e : JsError).
Arguments Returned {A} a.
Arguments Thrown {A} e.

Definition bindR {A B} (r : JsResult A) (k : A -> JsResult B) : JsResult B :=
  match r with
  | Returned a => k a
  | Thrown e => Thrown e
  end.

Definition is_thrown {A} (r : JsResult A) : bool :=
  match r with Thrown _ => true | Returned _ => false end.

(** A Number: a finite value (every finite double is a rational; the sign
    of zero is not observable by any code below), NaN, or an infinity. *)
Inductive number : Type :=
| Finite (q : Q)
| NaN
| PosInf
| NegInf.

Definition num (z : Z) : number := Finite (inject_Z z).

(** [Number.isInteger] *)
Definition Number_isInteger (x : number) : bool :=
  match x with
  | Finite q => (Qnum q mod Zpos (Qden q) =? 0)%Z
  | _ => false
  end.

(** [x < y] on Numbers: false as soon as one side is NaN. *)
Definition num_lt (x y : number) : bool :=
  match x, y with
  | NaN, _ | _, NaN => false
  | Finite a, Finite b => (Qnum a * Zpos (Qden b) <? Qnum b * Zpos (Qden a))%Z
  | NegInf, NegInf => false
  | NegInf, _ => true
  | _, PosInf => match x with PosInf => false | _ => true end
  | _, _ => false
  end.

(** [x > y] is [y < x]. *)
Definition num_gt (x y : number) : bool := num_lt y x.

(** [ToIntegerOrInfinity] on a finite value: truncation towards zero. *)
Definition truncate (q : Q) : Z := Z.quot (Qnum q) (Zpos (Qden q)).

(** The Number [n / 2] for a length [n]. *)
Definition half (n : nat) : number := Finite (Z.of_nat n # 2).

(** A [Uint8Array]: bytes, of a fixed length. *)
Abbreviation Uint8Array := (list byte).

Definition byte_of_Z (z : Z) : byte :=
  match Byte.of_N (Z.to_N (z mod 256)) with
  | Some b => b
  | None => x00
  end.

(** [ToUint8]: what a write of a Number into a [Uint8Array] stores. *)
Definition ToUint8 (x : number) : byte :=
  match x with
  | Finite q => byte_of_Z (truncate q)
  | _ => x00
  end.

(** [ToIndex], as the typed-array constructor applies it to its length. *)
Definition ToIndex (x : number) : JsResult Z :=
  let i := match x with
           | Finite q => Some (truncate q)
           | NaN => Some 0%Z
           | PosInf | NegInf => None
           end in
  match i with
  | Some i =>
      if ((i <? 0) || (2 ^ 53 - 1 <? i))%Z
      then Thrown (RangeError "Invalid typed array length")
      else Returned i
  | None => Thrown (RangeError "Invalid typed array length")
  end.

(** [new Uint8Array(length)]: zero-filled. *)
Definition new_Uint8Array (len : number) : JsResult Uint8Array :=
  bindR (ToIndex len) (fun n => Returned (replicate (Z.to_nat n) x00)).

(** [bytes[i] = v]: a write past the end of a typed array is dropped. *)
Definition typed_set (bytes : Uint8Array) (i : nat) (v : number) : Uint8Array :=
  <[i := ToUint8 v]> bytes.

(** *** Strings *)

(** [s.startsWith(p)] *)
Definition startsWith (s p : string) : bool := String.prefix p s.

(** [s.slice(n)] for [0 <= n] *)
Fixpoint slice (n : nat) (s : string) : string :=
  match n, s with
  | 0, _ => s
  | S n', String _ s' => slice n' s'
  | S _, EmptyString => EmptyString
  end.

(** [s.substr(start, len)] *)
Definition substr (start len : nat) (s : string) : string :=
  String.substring start len s.

(** [s.substring(start, end)]: the two ends are clamped and ordered. *)
Definition substring (start stop : nat) (s : string) : string :=
  let a := Nat.min start (String.length s) in
  let b := Nat.min stop (String.length s) in
  String.substring (Nat.min a b) (Nat.max a b - Nat.min a b) s.

(** [s.replace(pat, by)] with a string pattern: the first occurrence only. *)
Fixpoint replace_first (pat by_ s : string) : string :=
  if String.prefix pat s then by_ +:+ slice (String.length pat) s
  else match s with
       | EmptyString => EmptyString
       | String c s' => String c (replace_first pat by_ s')
       end.

(** [parts.join('')] *)
Definition join_empty (parts : list string) : string :=
  fold_right String.append "" parts.

(** [s.padStart(n, pad)] *)
Fixpoint cycle_take (k : nat) (pad rest : string) : string :=
  match k with
  | 0 => ""
  | S k' =>
      match rest with
      | String c r => String c (cycle_take k' pad r)
      | EmptyString =>
          match pad with
          | String c r => String c (cycle_take k' pad r)
          | EmptyString => ""
          end
      end
  end.

Definition padStart (n : nat) (pad s : string) : string :=
  if (n <=? String.length s)%nat then s
  else match pad with
       | "" => s
       | _ => cycle_take (n - String.length s) pad pad +:+ s
       end.

(** *** Hexadecimal digits *)

Definition hex_char (d : N) : ascii :=
  match d with
  | 0 => "0" | 1 => "1" | 2 => "2" | 3 => "3" | 4 => "4"
  | 5 => "5" | 6 => "6" | 7 => "7" | 8 => "8" | 9 => "9"
  | 10 => "a" | 11 => "b" | 12 => "c" | 13 => "d" | 14 => "e"
  | _ => "f"
  end%N%char.

(** The value of a hexadecimal digit, either case. *)
Definition hex_value (c : ascii) : option Z :=
  let n := Z.of_N (N_of_ascii c) in
  if ((48 <=? n) && (n <=? 57))%Z then Some (n - 48)%Z
  else if ((97 <=? n) && (n <=? 102))%Z then Some (n - 87)%Z
  else if ((65 <=? n) && (n <=? 70))%Z then Some (n - 55)%Z
  else None.

(** The character class [[a-fA-F0-9]]. *)
Definition is_hex_digit (c : ascii) : bool :=
  match hex_value c with Some _ => true | None => false end.

(** The digits [toString(16)] prints: [0-9a-f]. *)
Definition is_lower_hex_digit (c : ascii) : bool :=
  let n := N_of_ascii c in
  (((48 <=? n) && (n <=? 57)) || ((97 <=? n) && (n <=? 102)))%N.

(** [n.toString(16)] for a non-negative integer [n]. *)
Fixpoint toString16_aux (fuel : nat) (n : N) (acc : string) : string :=
  match fuel with
  | 0 => acc
  | S fuel' =>
      let acc' := String (hex_char (n mod 16)) acc in
      if (n / 16 =? 0)%N then acc' else toString16_aux fuel' (n / 16)%N acc'
  end.

Definition toString16 (n : N) : string :=
  toString16_aux (S (N.to_nat (N.log2 n))) n "".

(** White space and line terminators, as [parseInt] skips them. *)
Definition is_js_space (c : ascii) : bool :=
  let n := N_of_ascii c in
  ((n =? 9) || (n =? 10) || (n =? 11) || (n =? 12) || (n =? 13)
   || (n =? 32) || (n =? 160))%N.

Fixpoint trim_start (s : string) : string :=
  match s with
  | String c s' => if is_js_space c then trim_start s' else s
  | EmptyString => EmptyString
  end.

(** The value of the longest prefix of hexadecimal digits, with the number
    of digits read. *)
Fixpoint hex_prefix (s : string) (acc : Z) (count : nat) : Z * nat :=
  match s with
  | String c s' =>
      match hex_value c with
      | Some d => hex_prefix s' (acc * 16 + d)%Z (S count)
      | None => (acc, count)
      end
  | EmptyString => (acc, count)
  end.

(** [parseInt(s, 16)]: leading white space, an optional sign, an optional
    [0x] or [0X], then the longest run of hexadecimal digits; NaN when that
    run is empty. *)
Definition parseInt16 (s : string) : number :=
  let s1 := trim_start s in
  let '(sign, s2) :=
    match s1 with
    | String "-" r => ((-1)%Z, r)
    | String "+" r => (1%Z, r)
    | _ => (1%Z, s1)
    end in
  let s3 :=
    match s2 with
    | String "0" (String "x" r) => r
    | String "0" (String "X" r) => r
    | _ => s2
    end in
  match hex_prefix s3 0%Z 0 with
  | (_, 0) => NaN
  | (v, _) => num (sign * v)
  end.

End Js.
Import Js.

(* ===================================================================== *)
(** ** EncryptionCodec: utils/encryption and lib/utils/security *)
(* ===================================================================== *)

(** The counted loop [for (let i = 0; i < n; i += 2)]: the values [i] takes. *)
Definition even_indices (n : nat) : list nat :=
  map (fun k => 2 * k) (seq 0 (Nat.div2 (S n))).

(** [b => b.toString(16).padStart(2, '0')] *)
Definition byte_hex (b : byte) : string :=
  padStart 2 "0" (toString16 (Byte.to_N b)).

(** utils/encryption: [encryptedToHex] *)
Definition encryptedToHex (encrypted : Uint8Array) : string :=
  "0x" +:+ join_empty (map byte_hex encrypted).

(** utils/encryption: [hexToUint8Array] *)
Definition hexToUint8Array (hex : string) : JsResult Uint8Array :=
  let cleanHex := if startsWith hex "0x" then slice 2 hex else hex in
  bindR (new_Uint8Array (half (String.length cleanHex))) (fun bytes =>
  Returned
    (foldl (fun bytes i => typed_set bytes (i / 2) (parseInt16 (substr i 2 cleanHex)))
           bytes (even_indices (String.length cleanHex)))).

(** lib/utils/security: [bytesToHex] *)
Definition bytesToHex (bytes : Uint8Array) : string :=
  "0x" +:+ join_empty (map byte_hex bytes).

(** lib/utils/security: [hexToBytes] *)
Definition hexToBytes (hex : string) : JsResult Uint8Array :=
  let cleaned := replace_first "0x" "" hex in
  bindR (new_Uint8Array (half (String.length cleaned))) (fun bytes =>
  Returned
    (foldl (fun bytes i =>
              typed_set bytes (i / 2) (parseInt16 (substring i (i + 2) cleaned)))
           bytes (even_indices (String.length cleaned)))).

(** utils/encryption and lib/utils/security: [isValidAddress], the regular
    expression [/^0x[a-fA-F0-9]{40}$/]. *)
Fixpoint match_class_exactly (n : nat) (cls : ascii -> bool) (s : string)
  : option string :=
  match n with
  | 0 => Some s
  | S n' =>
      match s with
      | String c s' => if cls c then match_class_exactly n' cls s' else None
      | EmptyString => None
      end
  end.

Definition address_regex_test (s : string) : bool :=
  match s with
  | String "0" (String "x" rest) =>
      match match_class_exactly 40 is_hex_digit rest with
      | Some "" => true
      | _ => false
      end
  | _ => false
  end.

Definition isValidAddress (address : string) : bool := address_regex_test address.

(** utils/encryption: [isValidEncryptedData] *)
Definition isValidEncryptedData (data : Uint8Array) : bool :=
  (0 <? length data)%nat.

(** What either decoder returns on a string of [len] digits after the
    prefix: [len / 2] bytes, the [k]-th parsed from the [k]-th pair. *)
Definition decoded_pairs (digits : string) : Uint8Array :=
  map (fun k => ToUint8 (parseInt16 (substr (2 * k) 2 digits)))
      (seq 0 (String.length digits / 2)).


(* ===================================================================== *)
(** ** InputValidator: lib/utils/validation *)
(* ===================================================================== *)

(** The values [validateEncryptionValue] is declared over:
    [number | boolean | string | bigint]. *)
Inductive JsValue : Type :=
| VNumber (n : number)
| VBoolean (b : bool)
| VString (s : string)
| VBigInt (z : Z).

(** The conversions of the runtime that parse or print Numbers; the
    validator is stated for any implementation of them. *)
Record Runtime := {
  StringToNumber : string -> number;
  StringToBigInt : string -> option Z;
  NumberToString : number -> string;
  BigIntToString : Z -> string;
}.

(** [m / 2^e] rounded to the nearest integer, ties to even. *)
Definition round_half_even (m e : Z) : Z :=
  let q := (m / 2 ^ e)%Z in
  let r := (m mod 2 ^ e)%Z in
  let h := (2 ^ (e - 1))%Z in
  if (r <? h)%Z then q
  else if (h <? r)%Z then (q + 1)%Z
  else if Z.even q then q else (q + 1)%Z.

(** [Number(b)] for a BigInt [b]: exact below [2^53], otherwise rounded to
    the 53 significant bits of a double. *)
Definition NumberOfBigInt (z : Z) : number :=
  let a := Z.abs z in
  if (a <? 2 ^ 53)%Z then num z
  else
    let e := (Z.log2 a - 52)%Z in
    let v := (round_half_even a e * 2 ^ e)%Z in
    if (2 ^ 1024 <=? v)%Z then (if (z <? 0)%Z then NegInf else PosInf)
    else num (Z.sgn z * v).

(** [{ valid: boolean; error?: string }] *)
Record ValidationResult := { valid : bool; error : option string }.

Definition accepted : ValidationResult := {| valid := true; error := None |}.
Definition rejected (reason : string) : ValidationResult :=
  {| valid := false; error := Some reason |}.

Section Validation.

Variable rt : Runtime.

(** [Number(value)] *)
Definition ToNumber (value : JsValue) : number :=
  match value with
  | VNumber n => n
  | VBoolean b => num (if b then 1 else 0)
  | VString s => StringToNumber rt s
  | VBigInt z => NumberOfBigInt z
  end.

(** The errors of [BigInt(value)].  The language fixes their classes, a
    [RangeError] for a Number that is not an integer and a [SyntaxError]
    for a string that is not an integer literal; the messages are the
    engine's, here those of V8 (Node, Chromium), which name the value. *)
Definition not_an_integer (n : number) : JsError :=
  RangeError ("The number " +:+ NumberToString rt n
              +:+ " cannot be converted to a BigInt because it is not an integer").

Definition not_a_BigInt_literal (s : string) : JsError :=
  SyntaxError ("Cannot convert " +:+ s +:+ " to a BigInt").

(** [BigInt(value)] *)
Definition ToBigInt (value : JsValue) : JsResult Z :=
  match value with
  | VNumber n =>
      match n with
      | Finite q =>
          if Number_isInteger n then Returned (truncate q)
          else Thrown (not_an_integer n)
      | _ => Thrown (not_an_integer n)
      end
  | VBoolean b => Returned (if b then 1 else 0)%Z
  | VString s =>
      match StringToBigInt rt s with
      | Some z => Returned z
      | None => Thrown (not_a_BigInt_literal s)
      end
  | VBigInt z => Returned z
  end.

(** [String(value)] *)
Definition ToString (value : JsValue) : string :=
  match value with
  | VNumber n => NumberToString rt n
  | VBoolean b => if b then "true" else "false"
  | VString s => s
  | VBigInt z => BigIntToString rt z
  end.

(** The shared shape of the three [Number] cases. *)
Definition out_of_range (v : number) (max : Z) : bool :=
  negb (Number_isInteger v) || num_lt v (num 0) || num_gt v (num max).

(** lib/utils/validation: [validateEncryptionValue] *)
Definition validateEncryptionValue (type : string) (value : JsValue)
  : ValidationResult :=
  match type with
  | "bool" =>
      match value with
      | VBoolean _ => accepted
      | _ => rejected "Value must be a boolean"
      end
  | "uint8" =>
      let uint8Val := ToNumber value in
      if out_of_range uint8Val 255
      then rejected "Value must be an integer between 0 and 255"
      else accepted
  | "uint16" =>
      let uint16Val := ToNumber value in
      if out_of_range uint16Val 65535
      then rejected "Value must be an integer between 0 and 65535"
      else accepted
  | "uint32" =>
      let uint32Val := ToNumber value in
      if out_of_range uint32Val 4294967295
      then rejected "Value must be an integer between 0 and 4294967295"
      else accepted
  | "uint64" =>
      match ToBigInt value with
      | Returned uint64Val =>
          if ((uint64Val <? 0) || (18446744073709551615 <? uint64Val))%Z
          then rejected "Value must be between 0 and 2^64-1"
          else accepted
      | Thrown _ => rejected "Value must be a valid BigInt"
      end
  | "address" =>
      let addressStr := ToString value in
      if negb (address_regex_test addressStr)
      then rejected "Value must be a valid Ethereum address"
      else accepted
  | _ => rejected ("Unsupported type: " +:+ type)
  end.

End Validation.

(** Whether the validator accepts [value] for [type]. *)
Definition accepts (rt : Runtime) (type : string) (value : JsValue) : bool :=
  valid (validateEncryptionValue rt type value).

(** A runtime for closed examples.  It parses no string, and the examples
    give it none that an engine would parse; what it prints is never
    looked at. *)
Definition sample_runtime : Runtime :=
  {| StringToNumber := fun _ => NaN;
     StringToBigInt := fun _ => None;
     NumberToString := fun _ => "NaN";
     BigIntToString := fun _ => "0" |}.

(* ===================================================================== *)
(** ** FhevmClient: core/FhevmClient *)
(* ===================================================================== *)

(** *** types.ts and the external collaborators *)

(** The typed encrypt entry points of the FHE library's instance. *)
Inductive EncryptEntry : Type :=
| Enc_bool | Enc_uint8 | Enc_uint16 | Enc_uint32 | Enc_uint64 | Enc_address.

(** The handle [createEncryptedInput] gives back; its methods belong to the
    FHE library. *)
Inductive EncryptedInputBuilder : Type := BuilderHandle (id : nat).

Record PublicKeyData := { pkd_publicKey : string; pkd_signature : string }.

(** [FhevmInstance]: the methods of the FHE library's instance.  Each is a
    call into the library and may throw. *)
Record FhevmInstance := {
  encrypt_bool : JsValue -> JsResult Uint8Array;
  encrypt_uint8 : JsValue -> JsResult Uint8Array;
  encrypt_uint16 : JsValue -> JsResult Uint8Array;
  encrypt_uint32 : JsValue -> JsResult Uint8Array;
  encrypt_uint64 : JsValue -> JsResult Uint8Array;
  encrypt_address : JsValue -> JsResult Uint8Array;
  inst_getPublicKey : string -> JsResult PublicKeyData;
  inst_createEncryptedInput : string -> string -> JsResult EncryptedInputBuilder;
}.

(** [config.provider]: a [BrowserProvider], or a raw EIP-1193 provider that
    is wrapped on demand. *)
Inductive Provider : Type :=
| BrowserProvider (endpoint : nat)
| Eip1193Provider (endpoint : nat).

(** [p instanceof BrowserProvider ? p : new BrowserProvider(p)] *)
Definition as_BrowserProvider (p : Provider) : Provider :=
  match p with
  | BrowserProvider _ => p
  | Eip1193Provider endpoint => BrowserProvider endpoint
  end.

Record FhevmConfig := {
  provider : Provider;
  contractAddress : string;
  aclAddress : option string;
  network : option string;
  gatewayUrl : option string;
}.

Record DecryptRequest := {
  ciphertext : Uint8Array;
  req_contractAddress : string;
  userAddress : string;
}.

Record DecryptionResult := { value : JsValue; success : bool }.

Record EIP712Domain := {
  name : string;
  version : string;
  chainId : number;
  verifyingContract : string;
}.

(** One field of a typed-data struct, and the [types] object: the struct
    names with their fields, in order. *)
Record TypedField := { field_name : string; field_type : string }.
Definition TypedDataTypes := list (string * list TypedField).

(** The message signed for a decryption. *)
Record DecryptionMessage := { msg_ciphertext : Uint8Array; msg_user : string }.

(** The argument of the library's [createInstance]. *)
Record CreateInstanceParams := {
  cip_chainId : number;
  cip_publicKeyVerifier : option string;
  cip_gatewayUrl : option string;
}.

Record Signer := {
  signTypedData : EIP712Domain -> TypedDataTypes -> DecryptionMessage -> JsResult string;
}.

(** [provider.getNetwork()] resolves to a network whose [chainId] is a BigInt. *)
Record Network := { net_chainId : Z }.

(** What the outside answers while one operation runs. *)
Record World := {
  import_fhevmjs : JsResult (CreateInstanceParams -> JsResult FhevmInstance);
  getNetwork : Provider -> JsResult Network;
  getSigner : Provider -> JsResult Signer;
}.

(** The calls that leave the client, in the order they are made. *)
Inductive ExtCall : Type :=
| CallImport
| CallGetNetwork (p : Provider)
| CallGetSigner (p : Provider)
| CallCreateInstance (params : CreateInstanceParams)
| CallInstanceGetPublicKey (contractAddress : string)
| CallEncrypt (entry : EncryptEntry) (value : JsValue)
| CallCreateEncryptedInput (contractAddress userAddress : string)
| CallSignTypedData (domain : EIP712Domain) (types : TypedDataTypes)
                    (message : DecryptionMessage).

(** The fields of a [FhevmClient] object. *)
Record FhevmClient := {
  config : FhevmConfig;
  instance : option FhevmInstance;
  publicKey : option string;
  signature : option string;
}.

(** [new FhevmClient(config)] *)
Definition new_FhevmClient (cfg : FhevmConfig) : FhevmClient :=
  {| config := cfg; instance := None; publicKey := None; signature := None |}.

Record InitializeResult := {
  ir_instance : option FhevmInstance;
  ir_publicKey : option string;
  ir_signature : option string;
}.

(** *** Methods run against the object's fields and the outside *)

(** A method body: it reads the outside, reads and writes the fields of
    [this], appends to the log of outgoing calls, and returns or throws.
    Writes made before a throw stay. *)
Definition Method (A : Type) : Type :=
  World -> FhevmClient -> list ExtCall -> JsResult A * FhevmClient * list ExtCall.

Definition ret {A} (a : A) : Method A := fun _ this log => (Returned a, this, log).

Definition throw {A} (e : JsError) : Method A := fun _ this log => (Thrown e, this, log).

Definition bind {A B} (m : Method A) (k : A -> Method B) : Method B :=
  fun w this log =>
    match m w this log with
    | (Returned a, this', log') => k a w this' log'
    | (Thrown e, this', log') => (Thrown e, this', log')
    end.

Notation "'let!' x ':=' m 'in' k" := (bind m (fun x => k))
  (at level 10, x name, m at level 100, k at level 200).
Notation "'do!' m 'in' k" := (bind m (fun _ => k))
  (at level 10, m at level 100, k at level 200).

(** [try { body } catch (error) { handler }] *)
Definition try_catch {A} (body : Method A) (handler : JsError -> Method A) : Method A :=
  fun w this log =>
    match body w this log with
    | (Returned a, this', log') => (Returned a, this', log')
    | (Thrown e, this', log') => handler e w this' log'
    end.

(** Read [this]. *)
Definition get_this : Method FhevmClient := fun _ this log => (Returned this, this, log).

Definition set_instance (i : option FhevmInstance) : Method unit :=
  fun _ this log =>
    (Returned tt,
     {| config := config this; instance := i;
        publicKey := publicKey this; signature := signature this |}, log).

Definition set_publicKey (k : option string) : Method unit :=
  fun _ this log =>
    (Returned tt,
     {| config := config this; instance := instance this;
        publicKey := k; signature := signature this |}, log).

Definition set_signature (s : option string) : Method unit :=
  fun _ this log =>
    (Returned tt,
     {| config := config this; instance := instance this;
        publicKey := publicKey this; signature := s |}, log).

(** A call that leaves the client: logged, then answered. *)
Definition call {A} (c : ExtCall) (answer : World -> JsResult A) : Method A :=
  fun w this log => (answer w, this, log ++ [c]).

(** Run a method on a client, from an empty log. *)
Definition run {A} (m : Method A) (w : World) (this : FhevmClient)
  : JsResult A * FhevmClient * list ExtCall :=
  m w this [].

Definition result_of {A} (r : JsResult A * FhevmClient * list ExtCall) : JsResult A :=
  fst (fst r).
Definition client_of {A} (r : JsResult A * FhevmClient * list ExtCall) : FhevmClient :=
  snd (fst r).
Definition calls_of {A} (r : JsResult A * FhevmClient * list ExtCall) : list ExtCall :=
  snd r.

Definition not_initialized_message : string :=
  "FHEVM instance not initialized. Call initialize() first.".

(** [initialize()] *)
Definition initialize : Method InitializeResult :=
  try_catch
    (let! createInstance := call CallImport import_fhevmjs in
     let! this := get_this in
     let provider := as_BrowserProvider (provider (config this)) in
     let! network := call (CallGetNetwork provider) (fun w => getNetwork w provider) in
     let chainId := NumberOfBigInt (net_chainId network) in
     let params := {| cip_chainId := chainId;
                      cip_publicKeyVerifier := aclAddress (config this);
                      cip_gatewayUrl := gatewayUrl (config this) |} in
     let! created := call (CallCreateInstance params) (fun _ => createInstance params) in
     do! set_instance (Some created) in
     let! this := get_this in
     let! publicKeyData :=
       match instance this with
       | Some i =>
           call (CallInstanceGetPublicKey (contractAddress (config this)))
                (fun _ => inst_getPublicKey i (contractAddress (config this)))
       | None => throw (TypeError "Cannot read properties of null (reading 'getPublicKey')")
       end in
     do! set_publicKey (Some (pkd_publicKey publicKeyData)) in
     do! set_signature (Some (pkd_signature publicKeyData)) in
     let! this := get_this in
     ret {| ir_instance := instance this;
            ir_publicKey := publicKey this;
            ir_signature := signature this |})
    (fun error => throw (Error ("Failed to initialize FHEVM: " +:+ error_toString error))).

(** [getInstance()] *)
Definition getInstance : Method FhevmInstance :=
  let! this := get_this in
  match instance this with
  | None => throw (Error not_initialized_message)
  | Some i => ret i
  end.

(** A [string | null] as a condition: null and the empty string are
    falsy, so [!s] holds exactly when [truthy s] is [None]. *)
Definition truthy (s : option string) : option string :=
  match s with
  | Some "" => None
  | other => other
  end.

(** [getPublicKey()] *)
Definition getPublicKey : Method string :=
  let! this := get_this in
  match truthy (publicKey this) with
  | None => throw (Error not_initialized_message)
  | Some k => ret k
  end.

(** [getSignature()] *)
Definition getSignature : Method string :=
  let! this := get_this in
  match truthy (signature this) with
  | None => throw (Error not_initialized_message)
  | Some s => ret s
  end.

(** [this.getInstance().encrypt_xxx(value)] *)
Definition entry_of (i : FhevmInstance) (entry : EncryptEntry)
  : JsValue -> JsResult Uint8Array :=
  match entry with
  | Enc_bool => encrypt_bool i
  | Enc_uint8 => encrypt_uint8 i
  | Enc_uint16 => encrypt_uint16 i
  | Enc_uint32 => encrypt_uint32 i
  | Enc_uint64 => encrypt_uint64 i
  | Enc_address => encrypt_address i
  end.

Definition encryptBool (value : JsValue) : Method Uint8Array :=
  let! i := getInstance in call (CallEncrypt Enc_bool value) (fun _ => encrypt_bool i value).

Definition encryptUint8 (value : JsValue) : Method Uint8Array :=
  let! i := getInstance in call (CallEncrypt Enc_uint8 value) (fun _ => encrypt_uint8 i value).

Definition encryptUint16 (value : JsValue) : Method Uint8Array :=
  let! i := getInstance in call (CallEncrypt Enc_uint16 value) (fun _ => encrypt_uint16 i value).

Definition encryptUint32 (value : JsValue) : Method Uint8Array :=
  let! i := getInstance in call (CallEncrypt Enc_uint32 value) (fun _ => encrypt_uint32 i value).

Definition encryptUint64 (value : JsValue) : Method Uint8Array :=
  let! i := getInstance in call (CallEncrypt Enc_uint64 value) (fun _ => encrypt_uint64 i value).

Definition encryptAddress (value : JsValue) : Method Uint8Array :=
  let! i := getInstance in call (CallEncrypt Enc_address value) (fun _ => encrypt_address i value).

(** The six typed encrypt methods, by entry point. *)
Definition typed_encrypt (entry : EncryptEntry) : JsValue -> Method Uint8Array :=
  match entry with
  | Enc_bool => encryptBool
  | Enc_uint8 => encryptUint8
  | Enc_uint16 => encryptUint16
  | Enc_uint32 => encryptUint32
  | Enc_uint64 => encryptUint64
  | Enc_address => encryptAddress
  end.

(** The validator's tag for the values an entry point encrypts. *)
Definition type_tag (entry : EncryptEntry) : string :=
  match entry with
  | Enc_bool => "bool"
  | Enc_uint8 => "uint8"
  | Enc_uint16 => "uint16"
  | Enc_uint32 => "uint32"
  | Enc_uint64 => "uint64"
  | Enc_address => "address"
  end.

(** [createEncryptedInput(userAddress)] *)
Definition createEncryptedInput (user : string) : Method EncryptedInputBuilder :=
  let! i := getInstance in
  let! this := get_this in
  call (CallCreateEncryptedInput (contractAddress (config this)) user)
       (fun _ => inst_createEncryptedInput i (contractAddress (config this)) user).

Definition decryption_types : TypedDataTypes :=
  [("Decryption",
    [ {| field_name := "ciphertext"; field_type := "bytes" |};
      {| field_name := "user"; field_type := "address" |} ])].

(** [userDecrypt(request)] *)
Definition userDecrypt (request : DecryptRequest) : Method DecryptionResult :=
  try_catch
    (let! this := get_this in
     let provider := as_BrowserProvider (provider (config this)) in
     let! signer := call (CallGetSigner provider) (fun w => getSigner w provider) in
     let! network := call (CallGetNetwork provider) (fun w => getNetwork w provider) in
     let domain := {| name := "FHEVM Decryption";
                      version := "1";
                      chainId := NumberOfBigInt (net_chainId network);
                      verifyingContract := req_contractAddress request |} in
     let types := decryption_types in
     let value := {| msg_ciphertext := ciphertext request;
                     msg_user := userAddress request |} in
     let! signature := call (CallSignTypedData domain types value)
                    (fun _ => signTypedData signer domain types value) in
     ret {| value := VNumber (num 0); success := true |})
    (fun error => throw (Error ("Decryption failed: " +:+ error_toString error))).

(** [publicDecrypt(contractAddress, ciphertext)] *)
Definition publicDecrypt (contractAddress : string) (ciphertext : Uint8Array)
  : Method DecryptionResult :=
  try_catch
    (ret {| value := VNumber (num 0); success := true |})
    (fun error => throw (Error ("Public decryption failed: " +:+ error_toString error))).

(** [isInitialized()] *)
Definition isInitialized : Method bool :=
  let! this := get_this in
  ret (match instance this with Some _ => true | None => false end).

(* ===================================================================== *)
(** ** FrameworkBinding: react/FhevmProvider, useFhevmEncrypt, useFhevmDecrypt *)
(* ===================================================================== *)

(** The state cells of [FhevmProvider]. *)
Record ProviderState := {
  ps_instance : option FhevmInstance;
  ps_publicKey : option string;
  ps_signature : option string;
  ps_isInitialized : bool;
  ps_isInitializing : bool;
  ps_error : option JsError;
}.

Definition initial_ProviderState : ProviderState :=
  {| ps_instance := None; ps_publicKey := None; ps_signature := None;
     ps_isInitialized := false; ps_isInitializing := false; ps_error := None |}.

Inductive ProviderSetter : Type :=
| SetInstance (i : option FhevmInstance)
| SetPublicKey (k : option string)
| SetSignature (s : option string)
| SetIsInitialized (b : bool)
| SetIsInitializing (b : bool)
| SetProviderError (e : option JsError).

Definition apply_ProviderSetter (st : ProviderState) (a : ProviderSetter) : ProviderState :=
  match a with
  | SetInstance i =>
      {| ps_instance := i; ps_publicKey := ps_publicKey st;
         ps_signature := ps_signature st; ps_isInitialized := ps_isInitialized st;
         ps_isInitializing := ps_isInitializing st; ps_error := ps_error st |}
  | SetPublicKey k =>
      {| ps_instance := ps_instance st; ps_publicKey := k;
         ps_signature := ps_signature st; ps_isInitialized := ps_isInitialized st;
         ps_isInitializing := ps_isInitializing st; ps_error := ps_error st |}
  | SetSignature s =>
      {| ps_instance := ps_instance st; ps_publicKey := ps_publicKey st;
         ps_signature := s; ps_isInitialized := ps_isInitialized st;
         ps_isInitializing := ps_isInitializing st; ps_error := ps_error st |}
  | SetIsInitialized b =>
      {| ps_instance := ps_instance st; ps_publicKey := ps_publicKey st;
         ps_signature := ps_signature st; ps_isInitialized := b;
         ps_isInitializing := ps_isInitializing st; ps_error := ps_error st |}
  | SetIsInitializing b =>
      {| ps_instance := ps_instance st; ps_publicKey := ps_publicKey st;
         ps_signature := ps_signature st; ps_isInitialized := ps_isInitialized st;
         ps_isInitializing := b; ps_error := ps_error st |}
  | SetProviderError e =>
      {| ps_instance := ps_instance st; ps_publicKey := ps_publicKey st;
         ps_signature := ps_signature st; ps_isInitialized := ps_isInitialized st;
         ps_isInitializing := ps_isInitializing st; ps_error := e |}
  end.

(** [FhevmProvider]'s [initialize], in the pieces its one [await]
    separates.  The function is made anew by every render and closes over
    that render's [isInitializing] and [isInitialized]: the guard reads the
    two flags as they were captured, not the cells as they are when the
    function is called. *)
Definition FhevmProvider_initialize_guard (captured : ProviderState) : bool :=
  ps_isInitializing captured || ps_isInitialized captured.

(** The setters called before [await client.initialize()]. *)
Definition FhevmProvider_initialize_before_await : list ProviderSetter :=
  [SetIsInitializing true; SetProviderError None].

(** The setters called once [client.initialize()] has settled: the rest of
    the [try] block or the [catch] block, then the [finally] block. *)
Definition FhevmProvider_initialize_after_await (outcome : JsResult InitializeResult)
  : list ProviderSetter :=
  match outcome with
  | Returned result =>
      [SetInstance (ir_instance result); SetPublicKey (ir_publicKey result);
       SetSignature (ir_signature result); SetIsInitialized true;
       SetIsInitializing false]
  | Thrown err =>
      [SetProviderError (Some err); SetIsInitializing false]
  end.

(** One call of [initialize] with nothing else running in between: the
    setters it calls, in order, with the client it leaves behind and the
    calls that went out. *)
Definition FhevmProvider_initialize (captured : ProviderState) (client : FhevmClient)
    (w : World)
  : list ProviderSetter * FhevmClient * list ExtCall :=
  if FhevmProvider_initialize_guard captured then ([], client, [])
  else
    let '(outcome, client', calls) := run initialize w client in
    (FhevmProvider_initialize_before_await
       ++ FhevmProvider_initialize_after_await outcome,
     client', calls).

(** What [useFhevm()] hands to the two hooks. *)
Record FhevmContextValue := {
  ctx_client : option FhevmClient;
  ctx_isInitialized : bool;
}.

Definition context_of (st : ProviderState) (client : FhevmClient) : FhevmContextValue :=
  {| ctx_client := Some client; ctx_isInitialized := ps_isInitialized st |}.

Definition client_not_initialized : JsError := Error "FHEVM client not initialized".

(** *** useFhevmEncrypt *)

Record EncryptState := {
  isEncrypting : bool;
  encrypted : option Uint8Array;
  encryptedHex : option string;
  encrypt_error : option JsError;
}.

Inductive EncryptSetter : Type :=
| SetIsEncrypting (b : bool)
| SetEncrypted (r : option Uint8Array)
| SetEncryptedHex (h : option string)
| SetEncryptError (e : option JsError).

Definition apply_EncryptSetter (st : EncryptState) (a : EncryptSetter) : EncryptState :=
  match a with
  | SetIsEncrypting b =>
      {| isEncrypting := b; encrypted := encrypted st;
         encryptedHex := encryptedHex st; encrypt_error := encrypt_error st |}
  | SetEncrypted r =>
      {| isEncrypting := isEncrypting st; encrypted := r;
         encryptedHex := encryptedHex st; encrypt_error := encrypt_error st |}
  | SetEncryptedHex h =>
      {| isEncrypting := isEncrypting st; encrypted := encrypted st;
         encryptedHex := h; encrypt_error := encrypt_error st |}
  | SetEncryptError e =>
      {| isEncrypting := isEncrypting st; encrypted := encrypted st;
         encryptedHex := encryptedHex st; encrypt_error := e |}
  end.

(** The [switch (type)] of the wrapper. *)
Definition encrypt_switch (type : string) (value : JsValue) : Method Uint8Array :=
  match type with
  | "bool" => encryptBool value
  | "uint8" => encryptUint8 value
  | "uint16" => encryptUint16 value
  | "uint32" => encryptUint32 value
  | "uint64" => encryptUint64 value
  | "address" => encryptAddress value
  | _ => throw (Error ("Unsupported type: " +:+ type))
  end.

(** [useFhevmEncrypt().encrypt(type, value)]: the setters it calls, in
    order, what it resolves to ([None] is [null]) and the calls that went
    out. *)
Definition useFhevmEncrypt_encrypt (ctx : FhevmContextValue) (type : string)
    (value : JsValue) (w : World)
  : list EncryptSetter * option Uint8Array * list ExtCall :=
  match ctx_client ctx with
  | Some client =>
      if negb (ctx_isInitialized ctx)
      then ([SetEncryptError (Some client_not_initialized)], None, [])
      else
        let '(outcome, _, calls) := run (encrypt_switch type value) w client in
        match outcome with
        | Returned result =>
            ([SetIsEncrypting true; SetEncryptError None;
              SetEncrypted (Some result);
              SetEncryptedHex (Some (encryptedToHex result));
              SetIsEncrypting false], Some result, calls)
        | Thrown err =>
            ([SetIsEncrypting true; SetEncryptError None;
              SetEncryptError (Some err); SetIsEncrypting false], None, calls)
        end
  | None => ([SetEncryptError (Some client_not_initialized)], None, [])
  end.

(** *** useFhevmDecrypt *)

Record DecryptState := {
  isDecrypting : bool;
  decrypted : option JsValue;
  decrypt_error : option JsError;
}.

Inductive DecryptSetter : Type :=
| SetIsDecrypting (b : bool)
| SetDecrypted (v : option JsValue)
| SetDecryptError (e : option JsError).

Definition apply_DecryptSetter (st : DecryptState) (a : DecryptSetter) : DecryptState :=
  match a with
  | SetIsDecrypting b =>
      {| isDecrypting := b; decrypted := decrypted st; decrypt_error := decrypt_error st |}
  | SetDecrypted v =>
      {| isDecrypting := isDecrypting st; decrypted := v; decrypt_error := decrypt_error st |}
  | SetDecryptError e =>
      {| isDecrypting := isDecrypting st; decrypted := decrypted st; decrypt_error := e |}
  end.

(** [useFhevmDecrypt().decrypt(request)] *)
Definition useFhevmDecrypt_decrypt (ctx : FhevmContextValue) (request : DecryptRequest)
    (w : World)
  : list DecryptSetter * option JsValue * list ExtCall :=
  match ctx_client ctx with
  | Some client =>
      if negb (ctx_isInitialized ctx)
      then ([SetDecryptError (Some client_not_initialized)], None, [])
      else
        let '(outcome, _, calls) := run (userDecrypt request) w client in
        match outcome with
        | Returned result =>
            ([SetIsDecrypting true; SetDecryptError None;
              SetDecrypted (Some (value result)); SetIsDecrypting false],
             Some (value result), calls)
        | Thrown err =>
            ([SetIsDecrypting true; SetDecryptError None;
              SetDecryptError (Some err); SetIsDecrypting false], None, calls)
        end
  | None => ([SetDecryptError (Some client_not_initialized)], None, [])
  end.

(** The states a component passes through as the setters run, the
    starting one first. *)
Fixpoint states_through {S A} (apply : S -> A -> S) (st : S) (setters : list A) : list S :=
  match setters with
  | [] => [st]
  | a :: rest => st :: states_through apply (apply st a) rest
  end.

Definition final_state {S A} (apply : S -> A -> S) (st : S) (setters : list A) : S :=
  fold_left apply setters st.

(* ===================================================================== *)
(** ** Sessions: sequences of operations *)
(* ===================================================================== *)

(** The public methods of a client. *)
Inductive ClientOp : Type :=
| OpInitialize
| OpGetInstance
| OpGetPublicKey
| OpGetSignature
| OpEncrypt (entry : EncryptEntry) (value : JsValue)
| OpCreateEncryptedInput (user : string)
| OpUserDecrypt (request : DecryptRequest)
| OpPublicDecrypt (contractAddress : string) (ciphertext : Uint8Array)
| OpIsInitialized.

(** A method run for its effect on the object. *)
Definition discard {A} (m : Method A) : Method unit :=
  let! _ := m in ret tt.

Definition perform (op : ClientOp) : Method unit :=
  match op with
  | OpInitialize => discard initialize
  | OpGetInstance => discard getInstance
  | OpGetPublicKey => discard getPublicKey
  | OpGetSignature => discard getSignature
  | OpEncrypt entry value => discard (typed_encrypt entry value)
  | OpCreateEncryptedInput user => discard (createEncryptedInput user)
  | OpUserDecrypt request => discard (userDecrypt request)
  | OpPublicDecrypt a c => discard (publicDecrypt a c)
  | OpIsInitialized => discard isInitialized
  end.

(** The client an operation leaves behind. *)
Definition after (op : ClientOp) (w : World) (c : FhevmClient) : FhevmClient :=
  client_of (run (perform op) w c).

(** The states a client built from [cfg] can be in: any operations, each
    against whatever the outside answers at that time. *)
Inductive reachable (cfg : FhevmConfig) : FhevmClient -> Prop :=
| reachable_new : reachable cfg (new_FhevmClient cfg)
| reachable_step (c : FhevmClient) (op : ClientOp) (w : World) :
    reachable cfg c -> reachable cfg (after op w c).

(** The states of a client on which no [initialize()] has resolved: every
    [initialize()] so far has rejected. *)
Inductive never_initialized (cfg : FhevmConfig) : FhevmClient -> Prop :=
| never_new : never_initialized cfg (new_FhevmClient cfg)
| never_failed_initialize (c : FhevmClient) (w : World) :
    never_initialized cfg c ->
    is_thrown (result_of (run initialize w c)) = true ->
    never_initialized cfg (client_of (run initialize w c))
| never_other (c : FhevmClient) (op : ClientOp) (w : World) :
    never_initialized cfg c ->
    op <> OpInitialize ->
    never_initialized cfg (after op w c).

(** A mounted provider, seen between two synchronous blocks of its code.
    The setter calls of one block take effect together, as one update
    (React 18, which the repository's examples are built on, batches them
    also after an [await]), so these are the states a render can see.
    The record holds the cells; the client object; the cell values of the
    renders so far, the latest first (every render makes an [initialize]
    over them and hands them to the hooks below it); the number of
    [initialize] runs that wait at their [await] for
    [client.initialize()]; and the outcomes of the runs whose
    [client.initialize()] has settled while their continuation has not run
    yet. *)
Record Mounted := {
  m_cells : ProviderState;
  m_client : FhevmClient;
  m_renders : list ProviderState;
  m_awaiting : nat;
  m_settled : list (JsResult InitializeResult);
}.

(** The first render. *)
Definition mount (cfg : FhevmConfig) : Mounted :=
  {| m_cells := initial_ProviderState;
     m_client := new_FhevmClient cfg;
     m_renders := [initial_ProviderState];
     m_awaiting := 0;
     m_settled := [] |}.

(** A render over the cells as they are. *)
Definition render (m : Mounted) : Mounted :=
  {| m_cells := m_cells m; m_client := m_client m;
     m_renders := m_cells m :: m_renders m;
     m_awaiting := m_awaiting m; m_settled := m_settled m |}.

(** A call of [initialize] whose guard let it through, up to its [await]. *)
Definition begin_initialize (m : Mounted) : Mounted :=
  {| m_cells := final_state apply_ProviderSetter (m_cells m)
                  FhevmProvider_initialize_before_await;
     m_client := m_client m; m_renders := m_renders m;
     m_awaiting := S (m_awaiting m); m_settled := m_settled m |}.

(** The [client.initialize()] of a waiting run settles.  It writes the
    object in one synchronous stretch, after its own last [await], so its
    effect on the object is that of [initialize] run on the fields as they
    are at that moment. *)
Definition settle_initialize (w : World) (m : Mounted) : Mounted :=
  {| m_cells := m_cells m;
     m_client := client_of (run initialize w (m_client m));
     m_renders := m_renders m;
     m_awaiting := pred (m_awaiting m);
     m_settled := result_of (run initialize w (m_client m)) :: m_settled m |}.

(** The continuation of a settled run: the setters after the [await]. *)
Definition finish_initialize (outcome : JsResult InitializeResult)
    (others : list (JsResult InitializeResult)) (m : Mounted) : Mounted :=
  {| m_cells := final_state apply_ProviderSetter (m_cells m)
                  (FhevmProvider_initialize_after_await outcome);
     m_client := m_client m; m_renders := m_renders m;
     m_awaiting := m_awaiting m; m_settled := others |}.

(** A method called on the client the provider hands out. *)
Definition use_client (op : ClientOp) (w : World) (m : Mounted) : Mounted :=
  {| m_cells := m_cells m; m_client := after op w (m_client m);
     m_renders := m_renders m;
     m_awaiting := m_awaiting m; m_settled := m_settled m |}.

(** The states of a mounted provider.  [initialize] may be called through
    the function of any render so far, the first included, which the
    mount effect calls and every consumer of the context may keep; a call
    gets past the guard when the flags of that render were both false,
    whatever the cells hold by then.  Runs may overlap, and methods may be
    called on the client at any time. *)
Inductive mounted (cfg : FhevmConfig) : Mounted -> Prop :=
| mounted_new : mounted cfg (mount cfg)
| mounted_render (m : Mounted) :
    mounted cfg m -> mounted cfg (render m)
| mounted_begin (m : Mounted) (captured : ProviderState) :
    mounted cfg m ->
    In captured (m_renders m) ->
    FhevmProvider_initialize_guard captured = false ->
    mounted cfg (begin_initialize m)
| mounted_settle (m : Mounted) (w : World) :
    mounted cfg m ->
    (0 < m_awaiting m)%nat ->
    mounted cfg (settle_initialize w m)
| mounted_finish (m : Mounted) (outcome : JsResult InitializeResult)
    (before after : list (JsResult InitializeResult)) :
    mounted cfg m ->
    m_settled m = before ++ outcome :: after ->
    mounted cfg (finish_initialize outcome (before ++ after) m)
| mounted_use_client (m : Mounted) (op : ClientOp) (w : World) :
    mounted cfg m -> mounted cfg (use_client op w m).

(** A call of [initialize] through the function of a render with both
    flags false, run to its end with nothing in between. *)
Definition initialize_uninterrupted (w : World) (m : Mounted) : Mounted :=
  let settled := settle_initialize w (begin_initialize m) in
  finish_initialize (result_of (run initialize w (m_client m))) (m_settled m) settled.

(** The argument [initialize()] passes to [createInstance] on a network. *)
Definition createInstance_params (c : FhevmClient) (net : Network) : CreateInstanceParams :=
  {| cip_chainId := NumberOfBigInt (net_chainId net);
     cip_publicKeyVerifier := aclAddress (config c);
     cip_gatewayUrl := gatewayUrl (config c) |}.

(** The client with all three session fields written. *)
Definition initialized_with (c : FhevmClient) (created : FhevmInstance)
    (keys : PublicKeyData) : FhevmClient :=
  {| config := config c;
     instance := Some created;
     publicKey := Some (pkd_publicKey keys);
     signature := Some (pkd_signature keys) |}.

(** The client with only [instance] written. *)
Definition instance_replaced (c : FhevmClient) (created : FhevmInstance) : FhevmClient :=
  {| config := config c;
     instance := Some created;
     publicKey := publicKey c;
     signature := signature c |}.

(** The error [initialize()] rejects with when [cause] was thrown inside. *)
Definition initialize_error (cause : JsError) : JsError :=
  Error ("Failed to initialize FHEVM: " +:+ error_toString cause).

(** The error [userDecrypt()] rejects with when [cause] was thrown inside. *)
Definition decryption_error (cause : JsError) : JsError :=
  Error ("Decryption failed: " +:+ error_toString cause).

(** The typed-data payload [userDecrypt] builds for a request on a network. *)
Definition decryption_domain (request : DecryptRequest) (net : Network) : EIP712Domain :=
  {| name := "FHEVM Decryption";
     version := "1";
     chainId := NumberOfBigInt (net_chainId net);
     verifyingContract := req_contractAddress request |}.

Definition decryption_message (request : DecryptRequest) : DecryptionMessage :=
  {| msg_ciphertext := ciphertext request; msg_user := userAddress request |}.

(* ===================================================================== *)
(** ** Sample collaborators for closed examples *)
(* ===================================================================== *)

Definition sample_config : FhevmConfig :=
  {| provider := BrowserProvider 0;
     contractAddress := "0x52908400098527886E0F7030069857D2E4169EE7";
     aclAddress := None;
     network := Some "sepolia";
     gatewayUrl := None |}.

Definition sample_ciphertext : Uint8Array := [xc1; x0f; x3a].

Definition sample_keys : PublicKeyData :=
  {| pkd_publicKey := "0x04ab"; pkd_signature := "0x99cd" |}.

(** An instance of the library that encrypts anything to the same bytes. *)
Definition sample_instance : FhevmInstance :=
  {| encrypt_bool := fun _ => Returned sample_ciphertext;
     encrypt_uint8 := fun _ => Returned sample_ciphertext;
     encrypt_uint16 := fun _ => Returned sample_ciphertext;
     encrypt_uint32 := fun _ => Returned sample_ciphertext;
     encrypt_uint64 := fun _ => Returned sample_ciphertext;
     encrypt_address := fun _ => Returned sample_ciphertext;
     inst_getPublicKey := fun _ => Returned sample_keys;
     inst_createEncryptedInput := fun _ _ => Returned (BuilderHandle 0) |}.

(** The same instance, except that deriving the public key throws. *)
Definition keyless_instance : FhevmInstance :=
  {| encrypt_bool := fun _ => Returned sample_ciphertext;
     encrypt_uint8 := fun _ => Returned sample_ciphertext;
     encrypt_uint16 := fun _ => Returned sample_ciphertext;
     encrypt_uint32 := fun _ => Returned sample_ciphertext;
     encrypt_uint64 := fun _ => Returned sample_ciphertext;
     encrypt_address := fun _ => Returned sample_ciphertext;
     inst_getPublicKey := fun _ => Thrown (Error "public key unavailable");
     inst_createEncryptedInput := fun _ _ => Returned (BuilderHandle 0) |}.

Definition sample_signer : Signer :=
  {| signTypedData := fun _ _ _ => Returned "0x5167" |}.

(** Sepolia (chain id 11155111), a wallet that signs, and a library whose
    [createInstance] resolves to [created]. *)
Definition sepolia_world (created : FhevmInstance) : World :=
  {| import_fhevmjs := Returned (fun _ => Returned created);
     getNetwork := fun _ => Returned {| net_chainId := 11155111 |};
     getSigner := fun _ => Returned sample_signer |}.

(** A client whose [initialize()] resolved. *)
Definition ready_client : FhevmClient :=
  client_of (run initialize (sepolia_world sample_instance) (new_FhevmClient sample_config)).

(** A client whose only [initialize()] rejected, the public-key derivation
    having thrown after the instance was created. *)
Definition half_initialized_client : FhevmClient :=
  client_of (run initialize (sepolia_world keyless_instance) (new_FhevmClient sample_config)).

Definition sample_request : DecryptRequest :=
  {| ciphertext := sample_ciphertext;
     req_contractAddress := "0x52908400098527886E0F7030069857D2E4169EE7";
     userAddress := "0xde709f2102306220921060314715629080e2fb77" |}.

(* ===================================================================== *)
(** ** Further sessions and collaborators *)
(* ===================================================================== *)

(** A run of operations, each against the outside as it is at that time. *)
Definition after_all (steps : list (ClientOp * World)) (c : FhevmClient) : FhevmClient :=
  fold_left (fun c step => after (fst step) (snd step) c) steps c.

Definition is_initialize (op : ClientOp) : bool :=
  match op with OpInitialize => true | _ => false end.

(** A library instance that hands out a second pair of keys. *)
Definition rotated_keys : PublicKeyData :=
  {| pkd_publicKey := "0x07ee"; pkd_signature := "0x31b2" |}.

Definition rotated_instance : FhevmInstance :=
  {| encrypt_bool := fun _ => Returned sample_ciphertext;
     encrypt_uint8 := fun _ => Returned sample_ciphertext;
     encrypt_uint16 := fun _ => Returned sample_ciphertext;
     encrypt_uint32 := fun _ => Returned sample_ciphertext;
     encrypt_uint64 := fun _ => Returned sample_ciphertext;
     encrypt_address := fun _ => Returned sample_ciphertext;
     inst_getPublicKey := fun _ => Returned rotated_keys;
     inst_createEncryptedInput := fun _ _ => Returned (BuilderHandle 1) |}.

(** An outside in which the library cannot be loaded. *)
Definition offline_world : World :=
  {| import_fhevmjs := Thrown (Error "Cannot find module 'fhevmjs'");
     getNetwork := fun _ => Thrown (Error "network unreachable");
     getSigner := fun _ => Thrown (Error "no wallet") |}.

(** A wallet whose user declines to sign. *)
Definition declining_world : World :=
  {| import_fhevmjs := Returned (fun _ => Returned sample_instance);
     getNetwork := fun _ => Returned {| net_chainId := 11155111 |};
     getSigner := fun _ =>
       Returned {| signTypedData := fun _ _ _ => Thrown (Error "user rejected action") |} |}.

(** A provider whose mount-time [initialize] resolved, rendered again. *)
Definition ready_provider : Mounted :=
  render (initialize_uninterrupted (sepolia_world sample_instance) (mount sample_config)).

(** The same provider after [initialize] was called once more through the
    function of the first render, with the library out of reach. *)
Definition ready_provider_after_stale_initialize : Mounted :=
  initialize_uninterrupted offline_world ready_provider.

(** The placeholder [userDecrypt] and [publicDecrypt] resolve to. *)
Definition placeholder_result : DecryptionResult :=
  {| value := VNumber (num 0); success := true |}.

(* ===================================================================== *)
(** ** FrameworkBinding: resets, useFhevmClient, useEncryption *)
(* ===================================================================== *)

(** [useFhevmEncrypt().reset()] *)
Definition useFhevmEncrypt_reset : list EncryptSetter :=
  [SetEncrypted None; SetEncryptedHex None; SetEncryptError None].

(** [useFhevmDecrypt().reset()] *)
Definition useFhevmDecrypt_reset : list DecryptSetter :=
  [SetDecrypted None; SetDecryptError None].

(** The cells of either wrapper as the component first renders them. *)
Definition initial_EncryptState : EncryptState :=
  {| isEncrypting := false; encrypted := None; encryptedHex := None;
     encrypt_error := None |}.

Definition initial_DecryptState : DecryptState :=
  {| isDecrypting := false; decrypted := None; decrypt_error := None |}.

(** *** react/useFhevmClient *)






(** *** hooks/useEncryption *)

(** One item of a batch: [{ type, value }]. *)
Record BatchItem := { item_type : string; item_value : JsValue }.

Inductive BatchSetter : Type :=
| SetIsBatchEncrypting (b : bool)
| SetBatchError (e : option JsError).

(** What a batch leaves behind: the setters of the batch's own cells, the
    setters the SDK wrapper called, the collected ciphertexts and the
    outgoing calls, each in order. *)
Record BatchOutcome := {
  batch_setters : list BatchSetter;
  sdk_setters : list EncryptSetter;
  batch_results : list Uint8Array;
  batch_calls : list ExtCall;
}.

(** The body of [for (const item of items)]: one awaited [sdkEncrypt], its
    result pushed when it is not null. *)
Fixpoint encryptBatch_loop (ctx : FhevmContextValue) (w : World) (items : list BatchItem)
    (sdk : list EncryptSetter) (results : list Uint8Array) (calls : list ExtCall)
  : list EncryptSetter * list Uint8Array * list ExtCall :=
  match items with
  | [] => (sdk, results, calls)
  | item :: rest =>
      let '(setters, result, out) :=
        useFhevmEncrypt_encrypt ctx (item_type item) (item_value item) w in
      encryptBatch_loop ctx w rest (sdk ++ setters)
        (match result with
         | Some r => results ++ [r]
         | None => results
         end)
        (calls ++ out)
  end.

(** [useEncryption().encryptBatch(items)].  The wrapper it awaits never
    rejects, so the [catch] branch has nothing to catch. *)
Definition useEncryption_encryptBatch (ctx : FhevmContextValue) (w : World)
    (items : list BatchItem) : BatchOutcome :=
  let '(sdk, results, calls) := encryptBatch_loop ctx w items [] [] [] in
  {| batch_setters := [SetIsBatchEncrypting true; SetBatchError None;
                       SetIsBatchEncrypting false];
     sdk_setters := sdk;
     batch_results := results;
     batch_calls := calls |}.

(** The entry point a type tag selects, if any. *)
Definition entry_of_type (type : string) : option EncryptEntry :=
  match type with
  | "bool" => Some Enc_bool
  | "uint8" => Some Enc_uint8
  | "uint16" => Some Enc_uint16
  | "uint32" => Some Enc_uint32
  | "uint64" => Some Enc_uint64
  | "address" => Some Enc_address
  | _ => None
  end.

(* ===================================================================== *)
(** ** lib/utils/validation: parsing and the contract address *)
(* ===================================================================== *)

(** [String.prototype.toLowerCase] on one-byte code units: the letters
    [A-Z] and the accented capitals of Latin-1. *)
Definition toLowerCase_char (c : ascii) : ascii :=
  let n := N_of_ascii c in
  if (((65 <=? n) && (n <=? 90))
      || ((192 <=? n) && (n <=? 222) && negb (n =? 215)))%N
  then ascii_of_N (n + 32)
  else c.

Fixpoint toLowerCase (s : string) : string :=
  match s with
  | EmptyString => EmptyString
  | String c s' => String (toLowerCase_char c) (toLowerCase s')
  end.

(** The value of a decimal digit. *)
Definition dec_value (c : ascii) : option Z :=
  let n := Z.of_N (N_of_ascii c) in
  if ((48 <=? n) && (n <=? 57))%Z then Some (n - 48)%Z else None.

(** The value of the longest prefix of decimal digits, with the number of
    digits read. *)
Fixpoint dec_prefix (s : string) (acc : Z) (count : nat) : Z * nat :=
  match s with
  | String c s' =>
      match dec_value c with
      | Some d => dec_prefix s' (acc * 10 + d)%Z (S count)
      | None => (acc, count)
      end
  | EmptyString => (acc, count)
  end.

(** [parseInt(s, 10)]: leading white space, an optional sign, then the
    longest run of decimal digits, as the Number nearest to that integer
    (beyond twenty significant digits the language lets an implementation
    approximate; the nearest Number is what is taken here); NaN when the
    run is empty. *)
Definition parseInt10 (s : string) : number :=
  let s1 := trim_start s in
  let '(sign, s2) :=
    match s1 with
    | String "-" r => ((-1)%Z, r)
    | String "+" r => (1%Z, r)
    | _ => (1%Z, s1)
    end in
  match dec_prefix s2 0%Z 0 with
  | (_, 0) => NaN
  | (v, _) => NumberOfBigInt (sign * v)
  end.

Section Parsing.

Variable rt : Runtime.

(** lib/utils/validation: [parseValueForType]; [None] is [null]. *)
Definition parseValueForType (type : string) (value : string) : option JsValue :=
  match type with
  | "bool" => Some (VBoolean (String.eqb (toLowerCase value) "true"))
  | "uint8" | "uint16" | "uint32" => Some (VNumber (parseInt10 value))
  | "uint64" =>
      match ToBigInt rt (VString value) with
      | Returned z => Some (VBigInt z)
      | Thrown _ => None
      end
  | "address" => Some (VString value)
  | _ => None
  end.

(** lib/utils/validation: [validateContractAddress] *)
Definition validateContractAddress (address : string) : ValidationResult :=
  match address with
  | "" => rejected "Contract address is required"
  | _ =>
      if negb (address_regex_test address)
      then rejected "Invalid contract address format"
      else accepted
  end.

(** [validation.error || 'Invalid value'] *)
Definition error_or_default (v : ValidationResult) : string :=
  match error v with
  | Some "" | None => "Invalid value"
  | Some reason => reason
  end.

(** components EncryptionDemo: [handleEncrypt].  The strings passed to
    [setValidationError], in order, and what the awaited [encrypt] did when
    it was reached. *)
Definition handleEncrypt (ctx : FhevmContextValue) (w : World)
    (selectedType : string) (inputValue : string)
  : list string * option (list EncryptSetter * option Uint8Array * list ExtCall) :=
  match parseValueForType selectedType inputValue with
  | None => ([""; "Invalid value for selected type"], None)
  | Some parsedValue =>
      let validation := validateEncryptionValue rt selectedType parsedValue in
      if negb (valid validation)
      then ([""; error_or_default validation], None)
      else ([""], Some (useFhevmEncrypt_encrypt ctx selectedType parsedValue w))
  end.

End Parsing.

(** The integer a decimal input starts with, after white space and an
    optional sign; [None] when no digit follows. *)
Definition leading_integer (s : string) : option Z :=
  let s1 := trim_start s in
  let '(sign, s2) :=
    match s1 with
    | String "-" r => ((-1)%Z, r)
    | String "+" r => (1%Z, r)
    | _ => (1%Z, s1)
    end in
  match dec_prefix s2 0%Z 0 with
  | (_, 0) => None
  | (v, _) => Some (sign * v)%Z
  end.

(* ===================================================================== *)
(** ** lib/utils/security: the remaining helpers *)
(* ===================================================================== *)

(** lib/utils/security: [sanitizeHex] *)
Definition sanitizeHex (hex : string) : string :=
  if startsWith hex "0x" then hex else "0x" +:+ hex.

(** The longest prefix of characters in a class, and what follows it. *)
Fixpoint match_class_many (cls : ascii -> bool) (s : string) : nat * string :=
  match s with
  | String c s' =>
      if cls c
      then let '(n, rest) := match_class_many cls s' in (S n, rest)
      else (0, s)
  | EmptyString => (0, EmptyString)
  end.

(** lib/utils/security: [isValidHex], the regular expression
    [/^0x[a-fA-F0-9]+$/]. *)
Definition isValidHex (hex : string) : bool :=
  match hex with
  | String "0" (String "x" rest) =>
      match match_class_many is_hex_digit rest with
      | (S _, "") => true
      | _ => false
      end
  | _ => false
  end.

(** [s.substring(start, end)] with integral Number arguments: a negative
    end is read as 0. *)
Definition substring_int (start stop : Z) (s : string) : string :=
  substring (Z.to_nat (Z.max 0 start)) (Z.to_nat (Z.max 0 stop)) s.

(** lib/utils/security: [truncateAddress(address, chars)], for an integral
    [chars] (4 when omitted). *)
Definition truncateAddress (address : string) (chars : Z) : string :=
  if negb (isValidAddress address) then address
  else substring_int 0 (chars + 2) address
       +:+ "..."
       +:+ substring_int (Z.of_nat (String.length address) - chars)
             (Z.of_nat (String.length address)) address.

Definition truncateAddress_default (address : string) : string :=
  truncateAddress address 4.

(* ===================================================================== *)
(** ** utils/encryption: createInputProof *)
(* ===================================================================== *)

(** The calls made on the library's input builder. *)
Inductive BuilderCall : Type :=
| BCreateEncryptedInput (contractAddress userAddress : string)
| BAddBool (value : JsValue)
| BAdd8 (value : JsValue)
| BAdd16 (value : JsValue)
| BAdd32 (value : JsValue)
| BAdd64 (value : JsValue)
| BAddAddress (value : JsValue)
| BEncrypt.

(** [{ handles: Uint8Array[]; inputProof: string }] *)
Record EncryptedInput := { handles : list Uint8Array; inputProof : string }.

(** How the library's builder answers: each answer may depend on the calls
    made on the builder so far. *)
Record BuilderBehaviour := {
  builder_add : list BuilderCall -> BuilderCall -> JsResult unit;
  builder_encrypt : list BuilderCall -> JsResult EncryptedInput;
}.

(** One element of [values]: [{ type, value }]. *)
Record TypedValue := { tv_type : string; tv_value : JsValue }.

(** The builder method the [switch (type)] selects. *)
Definition add_call (item : TypedValue) : option BuilderCall :=
  match tv_type item with
  | "bool" => Some (BAddBool (tv_value item))
  | "uint8" => Some (BAdd8 (tv_value item))
  | "uint16" => Some (BAdd16 (tv_value item))
  | "uint32" => Some (BAdd32 (tv_value item))
  | "uint64" => Some (BAdd64 (tv_value item))
  | "address" => Some (BAddAddress (tv_value item))
  | _ => None
  end.

(** The loop [for (const { type, value } of values)], with the calls made
    so far. *)
Fixpoint add_values (builder : BuilderBehaviour) (values : list TypedValue)
    (log : list BuilderCall) : JsResult unit * list BuilderCall :=
  match values with
  | [] => (Returned tt, log)
  | item :: rest =>
      match add_call item with
      | Some c =>
          match builder_add builder log c with
          | Returned _ => add_values builder rest (log ++ [c])
          | Thrown e => (Thrown e, log ++ [c])
          end
      | None => (Thrown (Error ("Unsupported type: " +:+ tv_type item)), log)
      end
  end.

(** utils/encryption: [createInputProof]; [builder_of] is the behaviour of
    the builder a handle stands for. *)
Definition createInputProof (builder_of : EncryptedInputBuilder -> BuilderBehaviour)
    (i : FhevmInstance) (contractAddress userAddress : string)
    (values : list TypedValue)
  : JsResult EncryptedInput * list BuilderCall :=
  let created := [BCreateEncryptedInput contractAddress userAddress] in
  match inst_createEncryptedInput i contractAddress userAddress with
  | Thrown e => (Thrown e, created)
  | Returned input =>
      match add_values (builder_of input) values created with
      | (Thrown e, log) => (Thrown e, log)
      | (Returned _, log) => (builder_encrypt (builder_of input) log, log ++ [BEncrypt])
      end
  end.

(* ===================================================================== *)
(** ** lib/fhe/server and lib/fhe/client: encrypting a request *)
(* ===================================================================== *)

(** [Boolean(value)] *)
Definition ToBoolean (value : JsValue) : bool :=
  match value with
  | VNumber (Finite q) => negb (Qnum q =? 0)%Z
  | VNumber NaN => false
  | VNumber _ => true
  | VBoolean b => b
  | VString s => negb (String.eqb s "")
  | VBigInt z => negb (z =? 0)%Z
  end.

(** [{ type, value }] *)
Record EncryptionRequest := { er_type : string; er_value : JsValue }.

(** [{ ciphertext, hex, type }] *)
Record EncryptionResult := {
  res_ciphertext : Uint8Array;
  res_hex : string;
  res_type : string;
}.

(** [Buffer.from(bytes).toString('hex')]: two lower-case digits per byte. *)
Definition Buffer_toString_hex (bytes : Uint8Array) : string :=
  join_empty (map byte_hex bytes).

Section ServerEncrypt.

Variable rt : Runtime.

(** A conversion that may throw, inside a method. *)
Definition lift {A} (r : JsResult A) : Method A := fun _ this log => (r, this, log).

(** lib/fhe/server: [serverEncryptValue], and lib/fhe/client:
    [encryptValue], which has the same body. *)
Definition serverEncryptValue (request : EncryptionRequest) : Method EncryptionResult :=
  let! ciphertext :=
    match er_type request with
    | "bool" => encryptBool (VBoolean (ToBoolean (er_value request)))
    | "uint8" => encryptUint8 (VNumber (ToNumber rt (er_value request)))
    | "uint16" => encryptUint16 (VNumber (ToNumber rt (er_value request)))
    | "uint32" => encryptUint32 (VNumber (ToNumber rt (er_value request)))
    | "uint64" =>
        let! z := lift (ToBigInt rt (er_value request)) in
        encryptUint64 (VBigInt z)
    | "address" => encryptAddress (VString (ToString rt (er_value request)))
    | _ => throw (Error ("Unsupported encryption type: " +:+ er_type request))
    end in
  ret {| res_ciphertext := ciphertext;
         res_hex := "0x" +:+ Buffer_toString_hex ciphertext;
         res_type := er_type request |}.

End ServerEncrypt.

(** The JavaScript type an entry point is declared to take. *)
Definition has_declared_type (entry : EncryptEntry) (value : JsValue) : bool :=
  match entry, value with
  | Enc_bool, VBoolean _ => true
  | (Enc_uint8 | Enc_uint16 | Enc_uint32), VNumber _ => true
  | Enc_uint64, VBigInt _ => true
  | Enc_address, VString _ => true
  | _, _ => false
  end.

(** The argument [serverEncryptValue] builds for an entry point. *)
Definition coerce_for (rt : Runtime) (entry : EncryptEntry) (value : JsValue)
  : JsResult JsValue :=
  match entry with
  | Enc_bool => Returned (VBoolean (ToBoolean value))
  | Enc_uint8 | Enc_uint16 | Enc_uint32 => Returned (VNumber (ToNumber rt value))
  | Enc_uint64 => bindR (ToBigInt rt value) (fun z => Returned (VBigInt z))
  | Enc_address => Returned (VString (ToString rt value))
  end.

(** A builder that accepts every value and proves whatever was added. *)
Definition sample_builder : BuilderBehaviour :=
  {| builder_add := fun _ _ => Returned tt;
     builder_encrypt := fun log =>
       Returned {| handles := map (fun _ => sample_ciphertext) (tl log);
                   inputProof := "0x70726f6f66" |} |}.

(* ===================================================================== *)
(** * Properties *)
(* ===================================================================== *)

(* ===================================================================== *)
(** ** EncryptionCodec *)
(* ===================================================================== *)

Lemma typed_set_middle (pre : Uint8Array) (x : byte) (post : Uint8Array) (v : number) :
  typed_set (pre ++ x :: post) (length pre) v = (pre ++ [ToUint8 v]) ++ post.
Proof.
  unfold typed_set. rewrite <- app_assoc.
  rewrite <- (Nat.add_0_r (length pre)) at 1.
  rewrite insert_app_r. reflexivity.
Qed.

Section CodecFacts.

(** The loop body of either decoder, as a function of the byte index. *)
Variable pair_at : nat -> number.

Lemma foldl_typed_set_exact (m : nat) :
  forall (s : nat) (pre post : Uint8Array),
    length pre = s -> length post = m ->
    foldl (fun bytes k => typed_set bytes k (pair_at k)) (pre ++ post) (seq s m)
    = pre ++ map (fun k => ToUint8 (pair_at k)) (seq s m).
Proof.
  induction m as [|m IH]; intros s pre post Hpre Hpost.
  - destruct post; [reflexivity | discriminate].
  - destruct post as [|x post]; [discriminate|].
    cbn [seq foldl map]. subst s.
    rewrite typed_set_middle, (IH (S (length pre))).
    + rewrite <- app_assoc. reflexivity.
    + rewrite length_app. simpl. lia.
    + simpl in Hpost. lia.
Qed.

Lemma foldl_over_even_indices (g : nat -> number) (n s : nat) (bytes : Uint8Array) :
  (forall k, g (2 * k) = pair_at k) ->
  foldl (fun bytes i => typed_set bytes (i / 2) (g i)) bytes
        (map (fun k => 2 * k) (seq s n))
  = foldl (fun bytes k => typed_set bytes k (pair_at k)) bytes (seq s n).
Proof.
  intros Hg. revert s bytes.
  induction n as [|n IH]; intros s bytes; [reflexivity|].
  cbn [seq map foldl]. rewrite Hg.
  replace (2 * s / 2) with s by (symmetry; rewrite Nat.mul_comm; apply Nat.div_mul; lia).
  apply IH.
Qed.

(** A zero-filled array of [n] bytes, written by the loop over
    [i = 0, 2, ...] below [len], ends up holding the [n] leading pairs:
    the write of a trailing odd digit falls past the end and is dropped. *)
Lemma decode_loop_spec (g : nat -> number) (len : nat) :
  (forall k, g (2 * k) = pair_at k) ->
  foldl (fun bytes i => typed_set bytes (i / 2) (g i))
        (replicate (len / 2) x00) (even_indices len)
  = map (fun k => ToUint8 (pair_at k)) (seq 0 (len / 2)).
Proof.
  intros Hg. unfold even_indices.
  rewrite (foldl_over_even_indices g _ _ _ Hg).
  assert (Hcount : Nat.div2 (S len) = len / 2 \/ Nat.div2 (S len) = S (len / 2)).
  { rewrite Nat.div2_div.
    destruct (Nat.even len) eqn:E.
    - left. apply Nat.even_spec in E. destruct E as [h ->].
      replace (S (2 * h)) with (1 + h * 2) by lia.
      rewrite Nat.div_add by lia. rewrite (Nat.mul_comm 2 h), Nat.div_mul by lia.
      reflexivity.
    - right. assert (O : Nat.odd len = true) by (rewrite <- Nat.negb_even, E; reflexivity).
      apply Nat.odd_spec in O. destruct O as [h ->].
      replace (S (2 * h + 1)) with ((h + 1) * 2) by lia.
      rewrite Nat.div_mul by lia.
      replace (2 * h + 1) with (1 + h * 2) by lia.
      rewrite Nat.div_add by lia. simpl. lia. }
  set (n := len / 2) in *.
  pose proof (foldl_typed_set_exact n 0 [] (replicate n x00) eq_refl
                (length_replicate n x00)) as Hexact.
  simpl in Hexact.
  destruct Hcount as [-> | ->]; [exact Hexact|].
  rewrite seq_S, foldl_app, Hexact. cbn [foldl]. unfold typed_set.
  apply list_insert_ge. rewrite length_map, length_seq. simpl. lia.
Qed.

End CodecFacts.

Lemma truncate_half (n : nat) : truncate (Z.of_nat n # 2) = Z.of_nat (n / 2).
Proof.
  unfold truncate. simpl Qnum. simpl Qden.
  rewrite Z.quot_div_nonneg by lia.
  rewrite Nat2Z.inj_div. reflexivity.
Qed.

(** The allocation of either decoder succeeds on every string whose length
    the runtime can represent. *)
Lemma new_Uint8Array_half (n : nat) :
  (Z.of_nat n <= 2 ^ 53 - 1)%Z ->
  new_Uint8Array (half n) = Returned (replicate (n / 2) x00).
Proof.
  intros Hn. unfold new_Uint8Array, half, ToIndex.
  rewrite truncate_half.
  assert (Hle : (Z.of_nat (n / 2) <= Z.of_nat n)%Z).
  { apply Nat2Z.inj_le. apply Nat.Div0.div_le_upper_bound. lia. }
  destruct (Z.ltb_spec (Z.of_nat (n / 2)) 0); [lia|].
  destruct (Z.ltb_spec (2 ^ 53 - 1) (Z.of_nat (n / 2))); [lia|].
  simpl. rewrite Nat2Z.id. reflexivity.
Qed.

Lemma slice_length_le (n : nat) (s : string) :
  String.length (slice n s) <= String.length s.
Proof.
  revert s. induction n as [|n IH]; intros s; [simpl; lia|].
  destruct s as [|c s]; simpl; [lia|]. specialize (IH s). lia.
Qed.

Lemma replace_first_0x_length_le (s : string) :
  String.length (replace_first "0x" "" s) <= String.length s.
Proof.
  induction s as [|c s IH]; [simpl; lia|].
  unfold replace_first; fold replace_first.
  destruct (String.prefix "0x" (String c s)).
  - change ("" +:+ ?t) with t. apply (slice_length_le 2).
  - simpl. lia.
Qed.

(** [substring(i, i + 2)] and [substr(i, 2)] read the same two characters. *)
Lemma substring_is_substr (i : nat) (s : string) :
  substring i (i + 2) s = substr i 2 s.
Proof.
  unfold substring, substr.
  destruct (Nat.le_gt_cases (i + 2) (String.length s)) as [Hin | Hout].
  - rewrite (Nat.min_l i), (Nat.min_l (i + 2)) by lia.
    rewrite Nat.min_l, Nat.max_r by lia.
    f_equal. lia.
  - revert i Hout. induction s as [|c s IH]; intros i Hout.
    + destruct i; reflexivity.
    + destruct i as [|i].
      * simpl in Hout. assert (Hs : String.length s = 0) by lia.
        destruct s; [reflexivity | discriminate].
      * simpl in Hout. specialize (IH i ltac:(lia)).
        simpl String.length.
        destruct (Nat.le_gt_cases (S i) (S (String.length s))) as [Hi | Hi].
        -- rewrite (Nat.min_l (S i)), (Nat.min_r (S i + 2)) by lia.
           rewrite Nat.min_l, Nat.max_r by lia.
           rewrite (Nat.min_l i), (Nat.min_r (i + 2)) in IH by lia.
           rewrite Nat.min_l, Nat.max_r in IH by lia.
           simpl String.substring.
           replace (S (String.length s) - S i) with (String.length s - i) by lia.
           exact IH.
        -- rewrite (Nat.min_r (S i)), (Nat.min_r (S i + 2)) by lia.
           rewrite Nat.min_id, Nat.max_id, Nat.sub_diag.
           rewrite (Nat.min_r i), (Nat.min_r (i + 2)) in IH by lia.
           rewrite Nat.min_id, Nat.max_id, Nat.sub_diag in IH.
           simpl String.substring. exact IH.
Qed.

Lemma hexToBytes_returns (hex : string) :
  (Z.of_nat (String.length hex) <= 2 ^ 53 - 1)%Z ->
  hexToBytes hex = Returned (decoded_pairs (replace_first "0x" "" hex)).
Proof.
  intros Hlen. unfold hexToBytes.
  pose proof (replace_first_0x_length_le hex) as Hle.
  set (cleaned := replace_first "0x" "" hex) in *.
  rewrite new_Uint8Array_half by lia. cbn [bindR]. f_equal.
  apply (decode_loop_spec (fun k => parseInt16 (substr (2 * k) 2 cleaned))).
  intros k. rewrite substring_is_substr. reflexivity.
Qed.

Lemma hexToUint8Array_returns (hex : string) :
  (Z.of_nat (String.length hex) <= 2 ^ 53 - 1)%Z ->
  hexToUint8Array hex
  = Returned (decoded_pairs (if startsWith hex "0x" then slice 2 hex else hex)).
Proof.
  intros Hlen. unfold hexToUint8Array.
  set (cleanHex := if startsWith hex "0x" then slice 2 hex else hex).
  assert (Hle : String.length cleanHex <= String.length hex).
  { subst cleanHex. destruct (startsWith hex "0x"); [apply slice_length_le | lia]. }
  rewrite new_Uint8Array_half by lia. cbn [bindR]. f_equal.
  apply (decode_loop_spec (fun k => parseInt16 (substr (2 * k) 2 cleanHex))).
  reflexivity.
Qed.

(** Every byte prints as exactly two lower-case digits, and those two
    digits parse back to the byte. *)
Lemma byte_hex_two (b : byte) :
  exists c1 c2, byte_hex b = String c1 (String c2 "").
Proof. destruct b; eexists; eexists; reflexivity. Qed.

Lemma byte_hex_parse (b : byte) : ToUint8 (parseInt16 (byte_hex b)) = b.
Proof. destruct b; vm_compute; reflexivity. Qed.

Lemma append_two (c1 c2 : ascii) (s : string) :
  String c1 (String c2 "") +:+ s = String c1 (String c2 s).
Proof. reflexivity. Qed.

Lemma hex_digits_cons (b : byte) (bytes : Uint8Array) :
  exists c1 c2,
    byte_hex b = String c1 (String c2 "")
    /\ join_empty (map byte_hex (b :: bytes))
       = String c1 (String c2 (join_empty (map byte_hex bytes))).
Proof.
  destruct (byte_hex_two b) as (c1 & c2 & E). exists c1, c2. split; [exact E|].
  change (join_empty (map byte_hex (b :: bytes)))
    with (byte_hex b +:+ join_empty (map byte_hex bytes)).
  rewrite E. apply append_two.
Qed.

Lemma hex_digits_length (bytes : Uint8Array) :
  String.length (join_empty (map byte_hex bytes)) = 2 * length bytes.
Proof.
  induction bytes as [|b bytes IH]; [reflexivity|].
  destruct (hex_digits_cons b bytes) as (c1 & c2 & _ & ->).
  cbn [String.length length]. rewrite IH. lia.
Qed.

Lemma hex_digits_pair (bytes : Uint8Array) :
  forall (k : nat) (b : byte),
    bytes !! k = Some b ->
    substr (2 * k) 2 (join_empty (map byte_hex bytes)) = byte_hex b.
Proof.
  unfold substr.
  induction bytes as [|b0 bytes IH]; intros k b Hk; [discriminate|].
  destruct (hex_digits_cons b0 bytes) as (c1 & c2 & E & ->).
  destruct k as [|k].
  - injection Hk as <-. rewrite E.
    cbn [String.substring Nat.mul Nat.add].
    destruct (join_empty (map byte_hex bytes)); reflexivity.
  - replace (2 * S k) with (S (S (2 * k))) by lia.
    cbn [String.substring].
    apply IH. exact Hk.
Qed.

Lemma map_seq_recover {A} (l : list A) (f : nat -> A) :
  (forall k x, l !! k = Some x -> f k = x) ->
  map f (seq 0 (length l)) = l.
Proof.
  revert f. induction l as [|x l IH]; intros f Hf; [reflexivity|].
  cbn [length seq map]. rewrite (Hf 0 x eq_refl). f_equal.
  rewrite <- seq_shift, map_map. apply IH.
  intros k y Hk. apply Hf. exact Hk.
Qed.

Lemma decoded_pairs_of_hex_digits (bytes : Uint8Array) :
  decoded_pairs (join_empty (map byte_hex bytes)) = bytes.
Proof.
  unfold decoded_pairs. rewrite hex_digits_length.
  replace (2 * length bytes / 2) with (length bytes)
    by (symmetry; rewrite Nat.mul_comm; apply Nat.div_mul; lia).
  apply map_seq_recover. intros k b Hk.
  rewrite (hex_digits_pair bytes k b Hk). apply byte_hex_parse.
Qed.

Lemma bytesToHex_length (bytes : Uint8Array) :
  String.length (bytesToHex bytes) = 2 + 2 * length bytes.
Proof.
  unfold bytesToHex.
  change ("0x" +:+ ?d) with (String "0" (String "x" d)).
  cbn [String.length]. rewrite hex_digits_length. reflexivity.
Qed.

Lemma replace_first_0x_prefixed (d : string) :
  replace_first "0x" "" ("0x" +:+ d) = d.
Proof. destruct d; reflexivity. Qed.

Lemma strip_0x_prefixed (d : string) :
  (if startsWith ("0x" +:+ d) "0x" then slice 2 ("0x" +:+ d) else "0x" +:+ d) = d.
Proof. destruct d; reflexivity. Qed.

Lemma byte_hex_lower (b : byte) :
  forallb is_lower_hex_digit (list_ascii_of_string (byte_hex b)) = true.
Proof. destruct b; reflexivity. Qed.

Lemma hex_digits_lower (bytes : Uint8Array) :
  forallb is_lower_hex_digit
    (list_ascii_of_string (join_empty (map byte_hex bytes))) = true.
Proof.
  induction bytes as [|b bytes IH]; [reflexivity|].
  pose proof (byte_hex_lower b) as Hb.
  destruct (hex_digits_cons b bytes) as (c1 & c2 & E & ->).
  rewrite E in Hb. cbn [list_ascii_of_string forallb] in Hb |- *.
  rewrite IH.
  destruct (is_lower_hex_digit c1); [|discriminate].
  destruct (is_lower_hex_digit c2); [reflexivity | discriminate].
Qed.

(** C5. Round trip: a byte sequence written as a [0x]-prefixed lower-case
    hex string (two digits per byte) and read back is the sequence itself,
    for [bytesToHex] / [hexToBytes] (lib/utils/security) and for
    [encryptedToHex] / [hexToUint8Array] (utils/encryption) alike.  The
    bound is the one every string of the runtime satisfies: the printed
    string has a length the runtime can represent. *)
Theorem hex_roundtrip (b : Uint8Array) :
  (Z.of_nat (String.length (bytesToHex b)) <= 2 ^ 53 - 1)%Z ->
  (exists digits,
      bytesToHex b = "0x" +:+ digits
      /\ encryptedToHex b = "0x" +:+ digits
      /\ String.length digits = 2 * length b
      /\ forallb is_lower_hex_digit (list_ascii_of_string digits) = true)
  /\ hexToBytes (bytesToHex b) = Returned b
  /\ hexToUint8Array (encryptedToHex b) = Returned b.
Proof.
  intros Hlen. split; [|split].
  - exists (join_empty (map byte_hex b)).
    split; [reflexivity|]. split; [reflexivity|].
    split; [apply hex_digits_length | apply hex_digits_lower].
  - rewrite hexToBytes_returns by exact Hlen.
    unfold bytesToHex.
    rewrite replace_first_0x_prefixed, decoded_pairs_of_hex_digits. reflexivity.
  - rewrite hexToUint8Array_returns by exact Hlen.
    unfold encryptedToHex.
    rewrite strip_0x_prefixed, decoded_pairs_of_hex_digits. reflexivity.
Qed.

Lemma hex_roundtrip_witness :
  bytesToHex [x00; xff; x1a] = "0x00ff1a"
  /\ hexToBytes (bytesToHex [x00; xff; x1a]) = Returned [x00; xff; x1a]
  /\ hexToUint8Array (encryptedToHex [x00; xff; x1a]) = Returned [x00; xff; x1a].
Proof.
  split; [reflexivity|].
  apply (hex_roundtrip [x00; xff; x1a]). vm_compute. discriminate.
Defined.

Example encryptedToHex_ex : encryptedToHex [x00; xff; x1a] = "0x00ff1a".
Proof. reflexivity. Qed.

Example hexToBytes_ex : hexToBytes "0x00ff1a" = Returned [x00; xff; x1a].
Proof. vm_compute. reflexivity. Qed.

Example hexToBytes_odd_ex : hexToBytes "0xabc" = Returned [xab].
Proof. vm_compute. reflexivity. Qed.

Example hexToUint8Array_nonhex_ex : hexToUint8Array "0xzz-f" = Returned [x00; xf1].
Proof. vm_compute. reflexivity. Qed.


(** Neither decoder has a failure path of its own: whatever the characters
    are, the result has one byte per complete pair. *)
Lemma decoded_pairs_length (digits : string) :
  length (decoded_pairs digits) = String.length digits / 2.
Proof. unfold decoded_pairs. rewrite length_map, length_seq. reflexivity. Qed.

(* ===================================================================== *)
(** ** InputValidator *)
(* ===================================================================== *)

Example validate_uint16_ex (rt : Runtime) :
  validateEncryptionValue rt "uint16" (VNumber (Finite (1 # 2)))
  = rejected "Value must be an integer between 0 and 65535".
Proof. reflexivity. Qed.

Example validate_uint64_ex (rt : Runtime) :
  validateEncryptionValue rt "uint64" (VBigInt (2 ^ 64)) =
  rejected "Value must be between 0 and 2^64-1".
Proof. reflexivity. Qed.

Example validate_unknown_ex (rt : Runtime) :
  validateEncryptionValue rt "uint128" (VBoolean true)
  = rejected "Unsupported type: uint128".
Proof. reflexivity. Qed.

(** *** The address pattern *)

Lemma match_class_exactly_spec (cls : ascii -> bool) (n : nat) :
  forall s : string,
    match_class_exactly n cls s = Some ""
    <-> String.length s = n /\ forallb cls (list_ascii_of_string s) = true.
Proof.
  induction n as [|n IH]; intros s.
  - simpl. split.
    + intros [= ->]. split; reflexivity.
    + intros [Hlen _]. destruct s; [reflexivity | discriminate].
  - destruct s as [|c s]; simpl.
    + split; [discriminate | intros [? _]; discriminate].
    + destruct (cls c); simpl.
      * rewrite IH. split; intros [Hlen Hall]; split; auto; lia.
      * split; [discriminate | intros [_ ?]; discriminate].
Qed.

(** [/^0x[a-fA-F0-9]{40}$/] accepts exactly [0x] followed by forty
    hexadecimal digits. *)
Lemma address_regex_test_spec (s : string) :
  address_regex_test s = true
  <-> exists digits,
        s = "0x" +:+ digits
        /\ String.length digits = 40
        /\ forallb is_hex_digit (list_ascii_of_string digits) = true.
Proof.
  split.
  - intros H. unfold address_regex_test in H.
    destruct s as [|c0 [|c1 rest]]; try discriminate;
      [destruct c0 as [[] [] [] [] [] [] [] []]; discriminate|].
    destruct (Ascii.eqb_spec c0 "0") as [-> | N0].
    2:{ exfalso. destruct c0 as [[] [] [] [] [] [] [] []];
        try discriminate; apply N0; reflexivity. }
    destruct (Ascii.eqb_spec c1 "x") as [-> | N1].
    2:{ exfalso. destruct c1 as [[] [] [] [] [] [] [] []];
        try discriminate; apply N1; reflexivity. }
    destruct (match_class_exactly 40 is_hex_digit rest) as [[|? ?]|] eqn:E;
      try discriminate.
    apply match_class_exactly_spec in E. exists rest. split; [reflexivity | exact E].
  - intros (digits & -> & Hlen & Hall).
    change ("0x" +:+ digits) with (String "0" (String "x" digits)).
    unfold address_regex_test.
    rewrite (proj2 (match_class_exactly_spec is_hex_digit 40 digits) (conj Hlen Hall)).
    reflexivity.
Qed.

(** The class [[a-fA-F0-9]] holds digits and the six letters in either case. *)
Lemma is_hex_digit_spec (c : ascii) :
  is_hex_digit c = true
  <-> In c (list_ascii_of_string "0123456789abcdefABCDEF").
Proof.
  split.
  - destruct c as [[] [] [] [] [] [] [] []]; intros H; try discriminate H;
      simpl; tauto.
  - simpl. intros H.
    repeat (destruct H as [<- | H]; [reflexivity|]). destruct H.
Qed.

Lemma accepts_address (rt : Runtime) (s : string) :
  accepts rt "address" (VString s) = address_regex_test s.
Proof.
  unfold accepts. cbn. destruct (address_regex_test s); reflexivity.
Qed.

(** C8. Range boundaries of the validator: [uint8] accepts 0 and 255 and
    rejects -1 and 256; [uint32] accepts 4294967295 and rejects 4294967296;
    [address] accepts every [0x] followed by exactly forty hexadecimal
    digits of either case, rejects a string with 39 or 41 digits and a
    string with a non-hexadecimal character among its digits, and accepts
    nothing else. *)
Theorem validator_boundaries (rt : Runtime) :
  accepts rt "uint8" (VNumber (num 0)) = true
  /\ accepts rt "uint8" (VNumber (num 255)) = true
  /\ accepts rt "uint8" (VNumber (num (-1))) = false
  /\ accepts rt "uint8" (VNumber (num 256)) = false
  /\ accepts rt "uint32" (VNumber (num 4294967295)) = true
  /\ accepts rt "uint32" (VNumber (num 4294967296)) = false
  /\ (forall digits : string,
        String.length digits = 40 ->
        forallb is_hex_digit (list_ascii_of_string digits) = true ->
        accepts rt "address" (VString ("0x" +:+ digits)) = true)
  /\ (forall digits : string,
        String.length digits = 39 \/ String.length digits = 41 ->
        accepts rt "address" (VString ("0x" +:+ digits)) = false)
  /\ (forall (digits : string) (c : ascii),
        In c (list_ascii_of_string digits) -> is_hex_digit c = false ->
        accepts rt "address" (VString ("0x" +:+ digits)) = false)
  /\ (forall s : string,
        accepts rt "address" (VString s) = true
        <-> exists digits,
              s = "0x" +:+ digits
              /\ String.length digits = 40
              /\ forallb is_hex_digit (list_ascii_of_string digits) = true).
Proof.
  repeat match goal with |- _ = _ /\ _ => split; [reflexivity|] end.
  assert (Hreject : forall digits,
             ~ (String.length digits = 40
                /\ forallb is_hex_digit (list_ascii_of_string digits) = true) ->
             accepts rt "address" (VString ("0x" +:+ digits)) = false).
  { intros digits Hno. rewrite accepts_address.
    destruct (address_regex_test ("0x" +:+ digits)) eqn:E; [|reflexivity].
    exfalso. apply Hno. apply address_regex_test_spec in E.
    destruct E as (d & Heq & Hd).
    change (String "0" (String "x" digits) = String "0" (String "x" d)) in Heq.
    injection Heq as ->. exact Hd. }
  split; [|split; [|split]].
  - intros digits Hlen Hall. rewrite accepts_address.
    apply address_regex_test_spec. exists digits. auto.
  - intros digits Hlen. apply Hreject. intros [H40 _]. lia.
  - intros digits c Hin Hc. apply Hreject. intros [_ Hall].
    rewrite forallb_forall in Hall. rewrite (Hall c Hin) in Hc. discriminate.
  - intros s. rewrite accepts_address. apply address_regex_test_spec.
Qed.

Lemma validator_boundaries_witness :
  accepts sample_runtime "address"
    (VString "0x52908400098527886E0F7030069857D2E4169EE7") = true
  /\ accepts sample_runtime "address"
       (VString "0x52908400098527886E0F7030069857D2E4169EE") = false
  /\ accepts sample_runtime "address"
       (VString "0x52908400098527886E0F7030069857D2E4169EEg") = false.
Proof.
  pose proof (validator_boundaries sample_runtime)
    as (_ & _ & _ & _ & _ & _ & Hacc & Hlen & Hchar & _).
  split; [|split].
  - apply (Hacc "52908400098527886E0F7030069857D2E4169EE7"); reflexivity.
  - apply (Hlen "52908400098527886E0F7030069857D2E4169EE"). left. reflexivity.
  - apply (Hchar "52908400098527886E0F7030069857D2E4169EEg" "g"%char).
    + simpl. tauto.
    + reflexivity.
Defined.

(* ===================================================================== *)
(** ** EncryptionCodec: malformed input *)
(* ===================================================================== *)




(* ===================================================================== *)
(** ** FhevmClient *)
(* ===================================================================== *)

Example ready_client_fields :
  instance ready_client = Some sample_instance
  /\ publicKey ready_client = Some "0x04ab"
  /\ signature ready_client = Some "0x99cd".
Proof. repeat split. Qed.

Example half_initialized_client_fields :
  instance half_initialized_client = Some keyless_instance
  /\ publicKey half_initialized_client = None
  /\ signature half_initialized_client = None.
Proof. repeat split. Qed.

(** Unfold a method body down to the state-passing function it denotes. *)
Ltac unfold_method :=
  unfold run, try_catch, bind, call, get_this, set_instance, set_publicKey,
    set_signature, throw, ret.

(** Below [2^53] a BigInt converts to the Number of the same value. *)
Lemma NumberOfBigInt_exact (z : Z) :
  (Z.abs z < 2 ^ 53)%Z -> NumberOfBigInt z = num z.
Proof.
  intros H. unfold NumberOfBigInt.
  destruct (Z.ltb_spec (Z.abs z) (2 ^ 53)); [reflexivity | lia].
Qed.

(** *** Accessors and typed encryption *)

Lemma getInstance_run (w : World) (c : FhevmClient) (log : list ExtCall) :
  getInstance w c log
  = (match instance c with
     | Some i => Returned i
     | None => Thrown (Error not_initialized_message)
     end, c, log).
Proof. unfold getInstance, bind, get_this. destruct (instance c); reflexivity. Qed.

Lemma typed_encrypt_run (entry : EncryptEntry) (value : JsValue)
    (w : World) (c : FhevmClient) (log : list ExtCall) :
  typed_encrypt entry value w c log
  = match instance c with
    | Some i => (entry_of i entry value, c, log ++ [CallEncrypt entry value])
    | None => (Thrown (Error not_initialized_message), c, log)
    end.
Proof.
  destruct entry; cbn [typed_encrypt];
    unfold encryptBool, encryptUint8, encryptUint16, encryptUint32,
      encryptUint64, encryptAddress, bind;
    rewrite getInstance_run; destruct (instance c); reflexivity.
Qed.

(** Without an instance every typed encrypt method throws the
    not-initialized error at once: nothing is called, nothing changes. *)
Lemma typed_encrypt_without_instance (entry : EncryptEntry) (value : JsValue)
    (w : World) (c : FhevmClient) :
  instance c = None ->
  run (typed_encrypt entry value) w c
  = (Thrown (Error not_initialized_message), c, []).
Proof. intros H. unfold run. rewrite typed_encrypt_run, H. reflexivity. Qed.

Lemma publicDecrypt_run (a : string) (ct : Uint8Array)
    (w : World) (c : FhevmClient) (log : list ExtCall) :
  publicDecrypt a ct w c log
  = (Returned {| value := VNumber (num 0); success := true |}, c, log).
Proof. reflexivity. Qed.

(** *** initialize() *)

Section Initialize.

Variables (w : World) (c : FhevmClient).

Let p := as_BrowserProvider (provider (config c)).
Let addr := contractAddress (config c).

(** Both external calls answer: the three fields are written together. *)
Lemma initialize_resolves create net created keys :
  import_fhevmjs w = Returned create ->
  getNetwork w p = Returned net ->
  create (createInstance_params c net) = Returned created ->
  inst_getPublicKey created addr = Returned keys ->
  run initialize w c
  = (Returned {| ir_instance := Some created;
                 ir_publicKey := Some (pkd_publicKey keys);
                 ir_signature := Some (pkd_signature keys) |},
     initialized_with c created keys,
     [CallImport; CallGetNetwork p;
      CallCreateInstance (createInstance_params c net);
      CallInstanceGetPublicKey addr]).
Proof.
  intros Himp Hnet Hcreate Hkeys.
  unfold initialize. unfold_method.
  rewrite Himp. cbn. fold p. rewrite Hnet. cbn.
  fold (createInstance_params c net). rewrite Hcreate. cbn.
  fold addr. rewrite Hkeys. reflexivity.
Qed.

(** The import rejects: nothing is written. *)
Lemma initialize_rejects_at_import e :
  import_fhevmjs w = Thrown e ->
  run initialize w c = (Thrown (initialize_error e), c, [CallImport]).
Proof.
  intros Himp.
  unfold initialize. unfold_method.
  rewrite Himp. reflexivity.
Qed.

(** The network lookup rejects: nothing is written. *)
Lemma initialize_rejects_at_network create e :
  import_fhevmjs w = Returned create ->
  getNetwork w p = Thrown e ->
  run initialize w c
  = (Thrown (initialize_error e), c, [CallImport; CallGetNetwork p]).
Proof.
  intros Himp Hnet.
  unfold initialize. unfold_method.
  rewrite Himp. cbn. fold p. rewrite Hnet. reflexivity.
Qed.

(** Instance creation rejects: nothing is written. *)
Lemma initialize_rejects_at_createInstance create net e :
  import_fhevmjs w = Returned create ->
  getNetwork w p = Returned net ->
  create (createInstance_params c net) = Thrown e ->
  run initialize w c
  = (Thrown (initialize_error e), c,
     [CallImport; CallGetNetwork p;
      CallCreateInstance (createInstance_params c net)]).
Proof.
  intros Himp Hnet Hcreate.
  unfold initialize. unfold_method.
  rewrite Himp. cbn. fold p. rewrite Hnet. cbn.
  fold (createInstance_params c net). rewrite Hcreate. reflexivity.
Qed.

(** The public-key derivation throws: [instance] has been written already
    and stays, the two keys are as they were. *)
Lemma initialize_rejects_at_getPublicKey create net created e :
  import_fhevmjs w = Returned create ->
  getNetwork w p = Returned net ->
  create (createInstance_params c net) = Returned created ->
  inst_getPublicKey created addr = Thrown e ->
  run initialize w c
  = (Thrown (initialize_error e), instance_replaced c created,
     [CallImport; CallGetNetwork p;
      CallCreateInstance (createInstance_params c net);
      CallInstanceGetPublicKey addr]).
Proof.
  intros Himp Hnet Hcreate Hkeys.
  unfold initialize. unfold_method.
  rewrite Himp. cbn. fold p. rewrite Hnet. cbn.
  fold (createInstance_params c net). rewrite Hcreate. cbn.
  fold addr. rewrite Hkeys. reflexivity.
Qed.

(** The outcomes of [initialize()], by what it leaves in the object. *)
Lemma initialize_outcomes :
  (exists r created keys,
      result_of (run initialize w c) = Returned r
      /\ client_of (run initialize w c) = initialized_with c created keys)
  \/ (exists e,
         result_of (run initialize w c) = Thrown (initialize_error e)
         /\ client_of (run initialize w c) = c)
  \/ (exists e created,
         result_of (run initialize w c) = Thrown (initialize_error e)
         /\ client_of (run initialize w c) = instance_replaced c created).
Proof.
  destruct (import_fhevmjs w) as [create | e] eqn:Himp.
  2:{ right; left. exists e. rewrite (initialize_rejects_at_import e Himp). auto. }
  destruct (getNetwork w p) as [net | e] eqn:Hnet.
  2:{ right; left. exists e.
      rewrite (initialize_rejects_at_network create e Himp Hnet). auto. }
  destruct (create (createInstance_params c net)) as [created | e] eqn:Hcreate.
  2:{ right; left. exists e.
      rewrite (initialize_rejects_at_createInstance create net e Himp Hnet Hcreate).
      auto. }
  destruct (inst_getPublicKey created addr) as [keys | e] eqn:Hkeys.
  - left. eexists _, created, keys.
    rewrite (initialize_resolves create net created keys Himp Hnet Hcreate Hkeys).
    auto.
  - right; right. exists e, created.
    rewrite (initialize_rejects_at_getPublicKey create net created e
               Himp Hnet Hcreate Hkeys).
    auto.
Qed.

End Initialize.

(** *** userDecrypt() and the other methods leave the fields alone *)

Lemma userDecrypt_run (request : DecryptRequest) (w : World) (c : FhevmClient) :
  let p := as_BrowserProvider (provider (config c)) in
  run (userDecrypt request) w c
  = match getSigner w p with
    | Thrown e => (Thrown (decryption_error e), c, [CallGetSigner p])
    | Returned signer =>
        match getNetwork w p with
        | Thrown e =>
            (Thrown (decryption_error e), c, [CallGetSigner p; CallGetNetwork p])
        | Returned net =>
            (match signTypedData signer (decryption_domain request net)
                     decryption_types (decryption_message request) with
             | Returned _ => Returned {| value := VNumber (num 0); success := true |}
             | Thrown e => Thrown (decryption_error e)
             end, c,
             [CallGetSigner p; CallGetNetwork p;
              CallSignTypedData (decryption_domain request net) decryption_types
                (decryption_message request)])
        end
    end.
Proof.
  intros p.
  unfold userDecrypt. unfold_method.
  cbn. fold p.
  destruct (getSigner w p) as [signer | e]; [|reflexivity]. cbn.
  destruct (getNetwork w p) as [net | e]; [|reflexivity]. cbn.
  fold (decryption_domain request net). fold (decryption_message request).
  destruct (signTypedData signer _ _ _); reflexivity.
Qed.

Lemma discard_client {A} (m : Method A) (w : World) (c : FhevmClient) :
  client_of (run (discard m) w c) = client_of (run m w c).
Proof.
  unfold discard, run, bind, ret, client_of.
  destruct (m w c []) as [[[a | e] c'] log]; reflexivity.
Qed.

(** Only [initialize()] writes the fields. *)
Lemma other_methods_keep_fields (op : ClientOp) (w : World) (c : FhevmClient) :
  op <> OpInitialize -> after op w c = c.
Proof.
  intros Hop. unfold after.
  destruct op; try congruence; cbn [perform]; rewrite discard_client.
  - unfold run. rewrite getInstance_run. reflexivity.
  - unfold run, getPublicKey, bind, get_this.
    destruct (truthy (publicKey c)); reflexivity.
  - unfold run, getSignature, bind, get_this.
    destruct (truthy (signature c)); reflexivity.
  - unfold run. rewrite typed_encrypt_run. destruct (instance c); reflexivity.
  - unfold run, createEncryptedInput, bind. rewrite getInstance_run.
    destruct (instance c); reflexivity.
  - rewrite userDecrypt_run.
    destruct (getSigner w _); [|reflexivity].
    destruct (getNetwork w _); reflexivity.
  - reflexivity.
  - reflexivity.
Qed.

Lemma is_initialize_or_not (op : ClientOp) : op = OpInitialize \/ op <> OpInitialize.
Proof. destruct op; (left; reflexivity) || (right; discriminate). Qed.

Lemma after_initialize (w : World) (c : FhevmClient) :
  after OpInitialize w c = client_of (run initialize w c).
Proof. unfold after. cbn [perform]. apply discard_client. Qed.

(** Once written, [instance] is never cleared. *)
Lemma instance_persists (op : ClientOp) (w : World) (c : FhevmClient) :
  instance c <> None -> instance (after op w c) <> None.
Proof.
  intros Hi.
  destruct (is_initialize_or_not op) as [-> | Hop].
  - rewrite after_initialize.
    destruct (initialize_outcomes w c)
      as [(r & created & keys & _ & ->) | [(e & _ & ->) | (e & created & _ & ->)]];
      try exact Hi; discriminate.
  - rewrite other_methods_keep_fields by exact Hop. exact Hi.
Qed.

(** The half of the session invariant that holds in every state: the two
    keys are never present without an instance. *)
Lemma keys_need_instance (cfg : FhevmConfig) (c : FhevmClient) :
  reachable cfg c ->
  instance c = None -> publicKey c = None /\ signature c = None.
Proof.
  induction 1 as [|c op w Hreach IH]; [split; reflexivity|].
  destruct (is_initialize_or_not op) as [-> | Hop].
  - rewrite after_initialize.
    destruct (initialize_outcomes w c)
      as [(r & created & keys & _ & ->) | [(e & _ & ->) | (e & created & _ & ->)]];
      try discriminate; exact IH.
  - rewrite other_methods_keep_fields by exact Hop. exact IH.
Qed.

(** So in every state, [isInitialized()] false makes both getters throw. *)
Lemma getters_throw_when_not_initialized (cfg : FhevmConfig) (c : FhevmClient) (w : World) :
  reachable cfg c ->
  result_of (run isInitialized w c) = Returned false ->
  result_of (run getPublicKey w c) = Thrown (Error not_initialized_message)
  /\ result_of (run getSignature w c) = Thrown (Error not_initialized_message).
Proof.
  intros Hreach Hfalse.
  assert (Hi : instance c = None).
  { unfold run, isInitialized, bind, get_this, ret, result_of in Hfalse. cbn in Hfalse.
    destruct (instance c); [discriminate | reflexivity]. }
  destruct (keys_need_instance cfg c Hreach Hi) as [Hk Hs].
  unfold run, getPublicKey, getSignature, bind, get_this, result_of.
  rewrite Hk, Hs. split; reflexivity.
Qed.

(** *** Properties of the client *)

(** C1. EIP-712 shape. Whatever the client's state, [userDecrypt] hands
    the signer's typed-data call exactly one payload and no other: domain
    [{name: "FHEVM Decryption", version: "1", chainId, verifyingContract:
    request.contractAddress}] with [chainId] the Number of the chain id the
    provider's network reports during the call, the single type
    [Decryption = [ciphertext: bytes, user: address]], and the value
    [{ciphertext: request.ciphertext, user: request.userAddress}].  When
    signer and network are obtained, it is the third and last outgoing
    call, and its outcome decides the result. *)
Theorem userDecrypt_signs_exact_payload
    (request : DecryptRequest) (w : World) (c : FhevmClient) :
  let p := as_BrowserProvider (provider (config c)) in
  let domain_on net :=
    {| name := "FHEVM Decryption";
       version := "1";
       chainId := NumberOfBigInt (net_chainId net);
       verifyingContract := req_contractAddress request |} in
  let types :=
    [("Decryption",
      [ {| field_name := "ciphertext"; field_type := "bytes" |};
        {| field_name := "user"; field_type := "address" |} ])] in
  let message :=
    {| msg_ciphertext := ciphertext request; msg_user := userAddress request |} in
  (forall d t m,
      In (CallSignTypedData d t m) (calls_of (run (userDecrypt request) w c)) ->
      exists net,
        getNetwork w p = Returned net
        /\ d = domain_on net /\ t = types /\ m = message)
  /\ (forall signer net,
         getSigner w p = Returned signer ->
         getNetwork w p = Returned net ->
         calls_of (run (userDecrypt request) w c)
         = [CallGetSigner p; CallGetNetwork p;
            CallSignTypedData (domain_on net) types message]
         /\ result_of (run (userDecrypt request) w c)
            = match signTypedData signer (domain_on net) types message with
              | Returned _ => Returned {| value := VNumber (num 0); success := true |}
              | Thrown e => Thrown (decryption_error e)
              end).
Proof.
  intros p domain_on types message.
  pose proof (userDecrypt_run request w c) as Hrun. cbv zeta in Hrun. fold p in Hrun.
  split.
  - intros d t m Hin. rewrite Hrun in Hin.
    destruct (getSigner w p) as [signer | e].
    + destruct (getNetwork w p) as [net | e].
      * exists net. split; [reflexivity|].
        cbn in Hin. destruct Hin as [H | [H | [H | []]]]; try discriminate.
        injection H as <- <- <-. auto.
      * cbn in Hin. destruct Hin as [H | [H | []]]; discriminate.
    + cbn in Hin. destruct Hin as [H | []]; discriminate.
  - intros signer net Hs Hn. rewrite Hrun, Hs, Hn. split; reflexivity.
Qed.

Lemma userDecrypt_signs_exact_payload_witness :
  calls_of (run (userDecrypt sample_request) (sepolia_world sample_instance) ready_client)
  = [CallGetSigner (BrowserProvider 0); CallGetNetwork (BrowserProvider 0);
     CallSignTypedData
       {| name := "FHEVM Decryption"; version := "1";
          chainId := num 11155111;
          verifyingContract := "0x52908400098527886E0F7030069857D2E4169EE7" |}
       [("Decryption",
         [ {| field_name := "ciphertext"; field_type := "bytes" |};
           {| field_name := "user"; field_type := "address" |} ])]
       {| msg_ciphertext := sample_ciphertext;
          msg_user := "0xde709f2102306220921060314715629080e2fb77" |}]
  /\ result_of (run (userDecrypt sample_request) (sepolia_world sample_instance) ready_client)
     = Returned {| value := VNumber (num 0); success := true |}.
Proof.
  apply (proj2 (userDecrypt_signs_exact_payload sample_request
                  (sepolia_world sample_instance) ready_client)
           sample_signer {| net_chainId := 11155111 |});
    reflexivity.
Defined.

(** C2.  The getters and [isInitialized()] disagree in a reachable state:
    after an [initialize()] that rejected because the public-key derivation threw,
    [isInitialized()] answers true while [getPublicKey()] and
    [getSignature()] both throw. *)
Theorem getters_throw_on_half_initialized_client :
  reachable sample_config half_initialized_client
  /\ forall w : World,
       result_of (run isInitialized w half_initialized_client) = Returned true
       /\ result_of (run getPublicKey w half_initialized_client)
          = Thrown (Error not_initialized_message)
       /\ result_of (run getSignature w half_initialized_client)
          = Thrown (Error not_initialized_message).
Proof.
  split.
  - change half_initialized_client
      with (after OpInitialize (sepolia_world keyless_instance)
              (new_FhevmClient sample_config)).
    apply reachable_step, reachable_new.
  - intros w. repeat split.
Qed.

(** C3.  [initialize()] is not atomic.  On a fresh client, when instance creation
    resolves and the public-key derivation throws, [initialize()] rejects
    with the wrapped error and leaves [instance] set to the created
    instance; only [publicKey] and [signature] are absent. *)
Theorem initialize_rejection_keeps_instance :
  run initialize (sepolia_world keyless_instance) (new_FhevmClient sample_config)
  = (Thrown (Error "Failed to initialize FHEVM: Error: public key unavailable"),
     {| config := sample_config;
        instance := Some keyless_instance;
        publicKey := None;
        signature := None |},
     [CallImport; CallGetNetwork (BrowserProvider 0);
      CallCreateInstance {| cip_chainId := num 11155111;
                            cip_publicKeyVerifier := None;
                            cip_gatewayUrl := None |};
      CallInstanceGetPublicKey "0x52908400098527886E0F7030069857D2E4169EE7"]).
Proof. reflexivity. Qed.

(** C4 does not hold of the code.  The typed encrypt methods do not consult the
    validator: on an initialized client the address [0x123], which the
    validator rejects, reaches the instance's entry point and its
    ciphertext is returned. *)
Lemma encryptAddress_passes_invalid_address :
  accepts sample_runtime (type_tag Enc_address) (VString "0x123") = false
  /\ validateEncryptionValue sample_runtime "address" (VString "0x123")
     = rejected "Value must be a valid Ethereum address"
  /\ instance ready_client = Some sample_instance
  /\ run (encryptAddress (VString "0x123")) (sepolia_world sample_instance) ready_client
     = (Returned sample_ciphertext, ready_client,
        [CallEncrypt Enc_address (VString "0x123")]).
Proof. repeat split. Qed.

(** C4, as the code has it.  On a client with an instance, each typed
    encrypt method makes exactly one outgoing call, to the instance's entry
    point of the same type with the argument as given, and returns or
    throws what that call returns or throws; no validation comes first and
    the fields are untouched. *)
Theorem typed_encrypt_delegates_unvalidated
    (c : FhevmClient) (i : FhevmInstance) (value : JsValue) (w : World) :
  instance c = Some i ->
  run (encryptBool value) w c = (encrypt_bool i value, c, [CallEncrypt Enc_bool value])
  /\ run (encryptUint8 value) w c = (encrypt_uint8 i value, c, [CallEncrypt Enc_uint8 value])
  /\ run (encryptUint16 value) w c = (encrypt_uint16 i value, c, [CallEncrypt Enc_uint16 value])
  /\ run (encryptUint32 value) w c = (encrypt_uint32 i value, c, [CallEncrypt Enc_uint32 value])
  /\ run (encryptUint64 value) w c = (encrypt_uint64 i value, c, [CallEncrypt Enc_uint64 value])
  /\ run (encryptAddress value) w c
     = (encrypt_address i value, c, [CallEncrypt Enc_address value]).
Proof.
  intros Hi.
  pose proof (fun entry => typed_encrypt_run entry value w c []) as H.
  rewrite Hi in H.
  repeat split;
    [apply (H Enc_bool) | apply (H Enc_uint8) | apply (H Enc_uint16)
    | apply (H Enc_uint32) | apply (H Enc_uint64) | apply (H Enc_address)].
Qed.

Lemma typed_encrypt_delegates_unvalidated_witness :
  run (encryptAddress (VString "0x123")) (sepolia_world sample_instance) ready_client
  = (encrypt_address sample_instance (VString "0x123"), ready_client,
     [CallEncrypt Enc_address (VString "0x123")]).
Proof.
  apply (typed_encrypt_delegates_unvalidated ready_client sample_instance
           (VString "0x123") (sepolia_world sample_instance)).
  reflexivity.
Defined.

(** C7.  A client on which no [initialize()] has resolved can still
    encrypt.  On a client whose only [initialize()] rejected after the instance was created,
    [encryptBool(true)] does not throw: it calls the instance and returns
    its ciphertext. *)
Theorem encryptBool_after_rejected_initialize :
  never_initialized sample_config half_initialized_client
  /\ forall w : World,
       run (encryptBool (VBoolean true)) w half_initialized_client
       = (Returned sample_ciphertext, half_initialized_client,
          [CallEncrypt Enc_bool (VBoolean true)]).
Proof.
  split.
  - apply (never_failed_initialize sample_config (new_FhevmClient sample_config)
             (sepolia_world keyless_instance)).
    + apply never_new.
    + reflexivity.
  - intros w. reflexivity.
Qed.

(** C10. [publicDecrypt] resolves to [{value: 0, success: true}] for every
    contract address and ciphertext, in every client state and whatever the
    outside would answer: it makes no outgoing call and writes no field. *)
Theorem publicDecrypt_placeholder
    (contractAddress : string) (ciphertext : Uint8Array) (w : World) (c : FhevmClient) :
  run (publicDecrypt contractAddress ciphertext) w c
  = (Returned {| value := VNumber (num 0); success := true |}, c, []).
Proof. reflexivity. Qed.

(* ===================================================================== *)
(** ** FrameworkBinding *)
(* ===================================================================== *)

(** C9. State-container error surfacing.  Invoked while the session is not
    initialized, the encrypt wrapper calls one setter only, which stores
    the error "FHEVM client not initialized", and resolves to null; no
    outgoing call is made; in every state the component passes through,
    [isEncrypting], [encrypted] and [encryptedHex] are what they were, so
    the pending flag is never raised and an absent result stays absent.
    The decrypt wrapper does the same with its own cells. *)
Theorem wrappers_surface_precondition_error (ctx : FhevmContextValue) (w : World) :
  ctx_isInitialized ctx = false \/ ctx_client ctx = None ->
  (forall (type : string) (value : JsValue) (st : EncryptState),
      let out := useFhevmEncrypt_encrypt ctx type value w in
      let setters := fst (fst out) in
      setters = [SetEncryptError (Some (Error "FHEVM client not initialized"))]
      /\ snd (fst out) = None
      /\ snd out = []
      /\ encrypt_error (final_state apply_EncryptSetter st setters)
         = Some (Error "FHEVM client not initialized")
      /\ Forall (fun st' => isEncrypting st' = isEncrypting st
                            /\ encrypted st' = encrypted st
                            /\ encryptedHex st' = encryptedHex st)
                (states_through apply_EncryptSetter st setters))
  /\ (forall (request : DecryptRequest) (st : DecryptState),
         let out := useFhevmDecrypt_decrypt ctx request w in
         let setters := fst (fst out) in
         setters = [SetDecryptError (Some (Error "FHEVM client not initialized"))]
         /\ snd (fst out) = None
         /\ snd out = []
         /\ decrypt_error (final_state apply_DecryptSetter st setters)
            = Some (Error "FHEVM client not initialized")
         /\ Forall (fun st' => isDecrypting st' = isDecrypting st
                               /\ decrypted st' = decrypted st)
                   (states_through apply_DecryptSetter st setters)).
Proof.
  intros Hguard.
  assert (Henc : forall type value,
             useFhevmEncrypt_encrypt ctx type value w
             = ([SetEncryptError (Some client_not_initialized)], None, [])).
  { intros type value. unfold useFhevmEncrypt_encrypt.
    destruct Hguard as [-> | ->]; [destruct (ctx_client ctx)|]; reflexivity. }
  assert (Hdec : forall request,
             useFhevmDecrypt_decrypt ctx request w
             = ([SetDecryptError (Some client_not_initialized)], None, [])).
  { intros request. unfold useFhevmDecrypt_decrypt.
    destruct Hguard as [-> | ->]; [destruct (ctx_client ctx)|]; reflexivity. }
  split.
  - intros type value st. cbv zeta. rewrite Henc. cbn.
    repeat split; auto.
  - intros request st. cbv zeta. rewrite Hdec. cbn.
    repeat split; auto.
Qed.

Lemma wrappers_surface_precondition_error_witness :
  useFhevmEncrypt_encrypt (context_of initial_ProviderState (new_FhevmClient sample_config))
    "bool" (VBoolean true) (sepolia_world sample_instance)
  = ([SetEncryptError (Some (Error "FHEVM client not initialized"))], None, [])
  /\ useFhevmDecrypt_decrypt (context_of initial_ProviderState (new_FhevmClient sample_config))
       sample_request (sepolia_world sample_instance)
     = ([SetDecryptError (Some (Error "FHEVM client not initialized"))], None, []).
Proof.
  pose proof (wrappers_surface_precondition_error
                (context_of initial_ProviderState (new_FhevmClient sample_config))
                (sepolia_world sample_instance) (or_introl eq_refl)) as [Henc Hdec].
  split.
  - destruct (Henc "bool" (VBoolean true)
                {| isEncrypting := false; encrypted := None;
                   encryptedHex := None; encrypt_error := None |})
      as (Hs & Hr & Hc & _).
    reflexivity.
  - reflexivity.
Defined.

Example encrypt_wrapper_ready_ex :
  useFhevmEncrypt_encrypt (context_of
      {| ps_instance := Some sample_instance; ps_publicKey := Some "0x04ab";
         ps_signature := Some "0x99cd"; ps_isInitialized := true;
         ps_isInitializing := false; ps_error := None |} ready_client)
    "uint32" (VNumber (num 42)) (sepolia_world sample_instance)
  = ([SetIsEncrypting true; SetEncryptError None;
      SetEncrypted (Some sample_ciphertext); SetEncryptedHex (Some "0xc10f3a");
      SetIsEncrypting false],
     Some sample_ciphertext, [CallEncrypt Enc_uint32 (VNumber (num 42))]).
Proof. reflexivity. Qed.

(* ===================================================================== *)
(** ** Further properties of the client *)
(* ===================================================================== *)

(** X1.  A resolving [initialize()]: the library is imported, the network
    looked up, the instance created with
    [{chainId: Number(network.chainId), publicKeyVerifier: aclAddress,
    gatewayUrl}] and the public key derived for the configured contract, in
    that order and nothing else; the three session fields are then written
    from the answers, whatever they held before, and returned. *)
Theorem initialize_success_populates_session
    (w : World) (c : FhevmClient) create net created keys :
  import_fhevmjs w = Returned create ->
  getNetwork w (as_BrowserProvider (provider (config c))) = Returned net ->
  create {| cip_chainId := NumberOfBigInt (net_chainId net);
            cip_publicKeyVerifier := aclAddress (config c);
            cip_gatewayUrl := gatewayUrl (config c) |} = Returned created ->
  inst_getPublicKey created (contractAddress (config c)) = Returned keys ->
  result_of (run initialize w c)
  = Returned {| ir_instance := Some created;
                ir_publicKey := Some (pkd_publicKey keys);
                ir_signature := Some (pkd_signature keys) |}
  /\ client_of (run initialize w c)
     = {| config := config c;
          instance := Some created;
          publicKey := Some (pkd_publicKey keys);
          signature := Some (pkd_signature keys) |}
  /\ calls_of (run initialize w c)
     = [CallImport;
        CallGetNetwork (as_BrowserProvider (provider (config c)));
        CallCreateInstance
          {| cip_chainId := NumberOfBigInt (net_chainId net);
             cip_publicKeyVerifier := aclAddress (config c);
             cip_gatewayUrl := gatewayUrl (config c) |};
        CallInstanceGetPublicKey (contractAddress (config c))].
Proof.
  intros Himp Hnet Hcreate Hkeys.
  rewrite (initialize_resolves w c create net created keys Himp Hnet Hcreate Hkeys).
  repeat split.
Qed.

Lemma initialize_success_populates_session_witness :
  client_of (run initialize (sepolia_world sample_instance) half_initialized_client)
  = {| config := sample_config;
       instance := Some sample_instance;
       publicKey := Some "0x04ab";
       signature := Some "0x99cd" |}.
Proof.
  apply (initialize_success_populates_session (sepolia_world sample_instance)
           half_initialized_client (fun _ => Returned sample_instance)
           {| net_chainId := 11155111 |} sample_instance sample_keys);
    reflexivity.
Defined.

(** X2.  Error wrapping.  When the import, the network lookup or the
    instance creation rejects with [e], [initialize()] rejects with an
    [Error] whose message is ["Failed to initialize FHEVM: "] followed by
    [String(e)]; no field is written and the instance's public-key entry
    point is never reached. *)
Theorem initialize_early_rejection_is_wrapped
    (w : World) (c : FhevmClient) (e : JsError) :
  (import_fhevmjs w = Thrown e
   \/ (exists create,
          import_fhevmjs w = Returned create
          /\ (getNetwork w (as_BrowserProvider (provider (config c))) = Thrown e
              \/ exists net,
                   getNetwork w (as_BrowserProvider (provider (config c))) = Returned net
                   /\ create (createInstance_params c net) = Thrown e))) ->
  result_of (run initialize w c)
  = Thrown (Error ("Failed to initialize FHEVM: " +:+ error_toString e))
  /\ client_of (run initialize w c) = c
  /\ forall a, ~ In (CallInstanceGetPublicKey a) (calls_of (run initialize w c)).
Proof.
  intros [Himp | (create & Himp & [Hnet | (net & Hnet & Hcreate)])].
  - rewrite (initialize_rejects_at_import w c e Himp).
    repeat split. intros a [H | []]; discriminate.
  - rewrite (initialize_rejects_at_network w c create e Himp Hnet).
    repeat split. intros a [H | [H | []]]; discriminate.
  - rewrite (initialize_rejects_at_createInstance w c create net e Himp Hnet Hcreate).
    repeat split. intros a [H | [H | [H | []]]]; discriminate.
Qed.

Lemma initialize_early_rejection_is_wrapped_witness :
  result_of (run initialize offline_world ready_client)
  = Thrown (Error "Failed to initialize FHEVM: Error: Cannot find module 'fhevmjs'")
  /\ client_of (run initialize offline_world ready_client) = ready_client
  /\ forall a, ~ In (CallInstanceGetPublicKey a)
                 (calls_of (run initialize offline_world ready_client)).
Proof.
  apply (initialize_early_rejection_is_wrapped offline_world ready_client
           (Error "Cannot find module 'fhevmjs'")).
  left. reflexivity.
Defined.

(** X3.  Re-initialization: last call wins.  Two [initialize()] calls in
    sequence that both resolve leave the session holding the second call's
    instance and keys; nothing of the first survives but the
    configuration. *)
Theorem reinitialize_last_call_wins
    (w1 w2 : World) (c : FhevmClient)
    create1 net1 created1 keys1 create2 net2 created2 keys2 :
  import_fhevmjs w1 = Returned create1 ->
  getNetwork w1 (as_BrowserProvider (provider (config c))) = Returned net1 ->
  create1 (createInstance_params c net1) = Returned created1 ->
  inst_getPublicKey created1 (contractAddress (config c)) = Returned keys1 ->
  import_fhevmjs w2 = Returned create2 ->
  getNetwork w2 (as_BrowserProvider (provider (config c))) = Returned net2 ->
  create2 (createInstance_params c net2) = Returned created2 ->
  inst_getPublicKey created2 (contractAddress (config c)) = Returned keys2 ->
  let first := run initialize w1 c in
  let second := run initialize w2 (client_of first) in
  is_thrown (result_of first) = false
  /\ is_thrown (result_of second) = false
  /\ client_of second
     = {| config := config c;
          instance := Some created2;
          publicKey := Some (pkd_publicKey keys2);
          signature := Some (pkd_signature keys2) |}.
Proof.
  intros Hi1 Hn1 Hc1 Hk1 Hi2 Hn2 Hc2 Hk2 first second. subst first second.
  rewrite (initialize_resolves w1 c create1 net1 created1 keys1 Hi1 Hn1 Hc1 Hk1).
  cbn [client_of result_of fst snd is_thrown].
  rewrite (initialize_resolves w2 (initialized_with c created1 keys1)
             create2 net2 created2 keys2 Hi2 Hn2 Hc2 Hk2).
  repeat split.
Qed.

Lemma reinitialize_last_call_wins_witness :
  client_of (run initialize (sepolia_world rotated_instance)
               (client_of (run initialize (sepolia_world sample_instance)
                             (new_FhevmClient sample_config))))
  = {| config := sample_config;
       instance := Some rotated_instance;
       publicKey := Some "0x07ee";
       signature := Some "0x31b2" |}.
Proof.
  apply (reinitialize_last_call_wins
           (sepolia_world sample_instance) (sepolia_world rotated_instance)
           (new_FhevmClient sample_config)
           (fun _ => Returned sample_instance) {| net_chainId := 11155111 |}
           sample_instance sample_keys
           (fun _ => Returned rotated_instance) {| net_chainId := 11155111 |}
           rotated_instance rotated_keys);
    reflexivity.
Defined.

Lemma after_keeps_config (op : ClientOp) (w : World) (c : FhevmClient) :
  config (after op w c) = config c.
Proof.
  destruct (is_initialize_or_not op) as [-> | Hop].
  - rewrite after_initialize.
    destruct (initialize_outcomes w c)
      as [(r & created & keys & _ & ->) | [(e & _ & ->) | (e & created & _ & ->)]];
      reflexivity.
  - rewrite other_methods_keep_fields by exact Hop. reflexivity.
Qed.

(** X4.  Session invariant.  In every state a client can reach, by any
    operations with any outcomes, the configuration is the one it was
    constructed with, and [publicKey] and [signature] are absent whenever
    [instance] is: the keys are never present without an instance. *)
Theorem reachable_session_invariant (cfg : FhevmConfig) (c : FhevmClient) :
  reachable cfg c ->
  config c = cfg
  /\ (instance c = None -> publicKey c = None /\ signature c = None).
Proof.
  intros Hreach. split.
  - induction Hreach as [|c op w Hreach IH]; [reflexivity|].
    rewrite after_keeps_config. exact IH.
  - apply (keys_need_instance cfg c Hreach).
Qed.

Lemma reachable_session_invariant_witness :
  config (after (OpEncrypt Enc_uint8 (VNumber (num 7))) offline_world
            (after OpInitialize offline_world (new_FhevmClient sample_config)))
  = sample_config.
Proof.
  apply (reachable_session_invariant sample_config).
  apply reachable_step, reachable_step, reachable_new.
Defined.

(** X5.  No operation clears a session.  Once [instance] is set it stays
    set through any further operations, a rejected re-initialization
    included: [isInitialized()] never goes back to false. *)
Theorem instance_survives_all_operations
    (steps : list (ClientOp * World)) (c : FhevmClient) :
  instance c <> None ->
  instance (after_all steps c) <> None
  /\ forall w, result_of (run isInitialized w (after_all steps c)) = Returned true.
Proof.
  intros Hi.
  assert (Hall : instance (after_all steps c) <> None).
  { revert c Hi. induction steps as [|[op w] steps IH]; intros c Hi; [exact Hi|].
    cbn [after_all fold_left fst snd]. apply IH. apply instance_persists. exact Hi. }
  split; [exact Hall|].
  intros w. unfold run, isInitialized, bind, get_this, ret, result_of. cbn.
  destruct (instance (after_all steps c)); [reflexivity | contradiction].
Qed.

Lemma instance_survives_all_operations_witness :
  instance (after_all [(OpInitialize, offline_world);
                       (OpUserDecrypt sample_request, offline_world)] ready_client)
  <> None.
Proof.
  apply (instance_survives_all_operations
           [(OpInitialize, offline_world);
            (OpUserDecrypt sample_request, offline_world)] ready_client).
  discriminate.
Defined.

(** X6.  Only [initialize()] writes the object.  Any run of the other
    methods (accessors, typed encryption, input builders, both
    decryptions), whatever they return or throw, leaves every field as it
    was. *)
Theorem only_initialize_writes_fields
    (steps : list (ClientOp * World)) (c : FhevmClient) :
  forallb (fun step => negb (is_initialize (fst step))) steps = true ->
  after_all steps c = c.
Proof.
  revert c. induction steps as [|[op w] steps IH]; intros c Hsteps; [reflexivity|].
  cbn [forallb fst] in Hsteps. apply andb_prop in Hsteps as [Hop Hrest].
  cbn [after_all fold_left fst snd].
  rewrite other_methods_keep_fields.
  - apply IH. exact Hrest.
  - intros ->. discriminate.
Qed.

Lemma only_initialize_writes_fields_witness :
  after_all [(OpEncrypt Enc_bool (VBoolean true), declining_world);
             (OpUserDecrypt sample_request, declining_world);
             (OpGetPublicKey, offline_world)] half_initialized_client
  = half_initialized_client.
Proof.
  apply (only_initialize_writes_fields
           [(OpEncrypt Enc_bool (VBoolean true), declining_world);
            (OpUserDecrypt sample_request, declining_world);
            (OpGetPublicKey, offline_world)] half_initialized_client).
  reflexivity.
Defined.

(** X7.  Precondition failure.  On a client without an instance,
    [getInstance()], each of the six typed encrypt methods and
    [createEncryptedInput()] throw
    ["FHEVM instance not initialized. Call initialize() first."] before any
    call leaves the client; the object is unchanged. *)
Theorem operations_need_an_instance
    (c : FhevmClient) (w : World) (value : JsValue) (user : string) :
  instance c = None ->
  let refused {A} (r : JsResult A * FhevmClient * list ExtCall) :=
    r = (Thrown (Error "FHEVM instance not initialized. Call initialize() first."),
         c, []) in
  refused (run getInstance w c)
  /\ refused (run (encryptBool value) w c)
  /\ refused (run (encryptUint8 value) w c)
  /\ refused (run (encryptUint16 value) w c)
  /\ refused (run (encryptUint32 value) w c)
  /\ refused (run (encryptUint64 value) w c)
  /\ refused (run (encryptAddress value) w c)
  /\ refused (run (createEncryptedInput user) w c).
Proof.
  intros Hi refused. subst refused. cbv beta.
  pose proof (fun entry => typed_encrypt_without_instance entry value w c Hi) as H.
  split; [unfold run; rewrite getInstance_run, Hi; reflexivity|].
  split; [apply (H Enc_bool)|]. split; [apply (H Enc_uint8)|].
  split; [apply (H Enc_uint16)|]. split; [apply (H Enc_uint32)|].
  split; [apply (H Enc_uint64)|]. split; [apply (H Enc_address)|].
  unfold run, createEncryptedInput, bind. rewrite getInstance_run, Hi. reflexivity.
Qed.

Lemma operations_need_an_instance_witness :
  run (encryptBool (VBoolean true)) (sepolia_world sample_instance)
      (new_FhevmClient sample_config)
  = (Thrown (Error "FHEVM instance not initialized. Call initialize() first."),
     new_FhevmClient sample_config, []).
Proof.
  apply (operations_need_an_instance (new_FhevmClient sample_config)
           (sepolia_world sample_instance) (VBoolean true) "").
  reflexivity.
Defined.

(** [createEncryptedInput(userAddress)] on a client with an instance
    makes one call, the instance's [createEncryptedInput] with the
    configured contract address first and the user address second, and
    returns or throws what the library does. *)
Theorem createEncryptedInput_binds_configured_contract
    (c : FhevmClient) (i : FhevmInstance) (w : World) (user : string) :
  instance c = Some i ->
  run (createEncryptedInput user) w c
  = (inst_createEncryptedInput i (contractAddress (config c)) user, c,
     [CallCreateEncryptedInput (contractAddress (config c)) user]).
Proof.
  intros Hi. unfold run, createEncryptedInput, bind.
  rewrite getInstance_run, Hi. reflexivity.
Qed.

Lemma createEncryptedInput_binds_configured_contract_witness :
  run (createEncryptedInput "0xde709f2102306220921060314715629080e2fb77")
      offline_world ready_client
  = (Returned (BuilderHandle 0), ready_client,
     [CallCreateEncryptedInput "0x52908400098527886E0F7030069857D2E4169EE7"
        "0xde709f2102306220921060314715629080e2fb77"]).
Proof.
  apply (createEncryptedInput_binds_configured_contract ready_client sample_instance
           offline_world "0xde709f2102306220921060314715629080e2fb77").
  reflexivity.
Defined.

(** X8.  [userDecrypt] does not depend on the session: it reads only the
    configured provider, never writes a field, and runs on a client that
    was never initialized.  It resolves only when the signer produced a
    signature, always to [{value: 0, success: true}]; every rejection is an
    [Error] whose message is ["Decryption failed: "] followed by the
    cause's string; a signer that cannot be obtained means no network
    lookup and no signing request. *)
Theorem userDecrypt_outcomes (request : DecryptRequest) (w : World) (c : FhevmClient) :
  let p := as_BrowserProvider (provider (config c)) in
  let r := run (userDecrypt request) w c in
  client_of r = c
  /\ (forall v, result_of r = Returned v ->
        v = {| value := VNumber (num 0); success := true |}
        /\ exists signer net sig,
             getSigner w p = Returned signer
             /\ getNetwork w p = Returned net
             /\ signTypedData signer (decryption_domain request net)
                  decryption_types (decryption_message request) = Returned sig)
  /\ (forall e, result_of r = Thrown e ->
        exists cause,
          e = Error ("Decryption failed: " +:+ error_toString cause))
  /\ (forall cause, getSigner w p = Thrown cause ->
        r = (Thrown (Error ("Decryption failed: " +:+ error_toString cause)), c,
             [CallGetSigner p])).
Proof.
  intros p r. subst r. rewrite userDecrypt_run. cbv zeta. fold p.
  destruct (getSigner w p) as [signer | e1].
  - destruct (getNetwork w p) as [net | e2].
    + destruct (signTypedData signer _ _ _) as [sig | e3] eqn:Hsig.
      * split; [reflexivity|]. split; [|split].
        -- intros v [= <-]. split; [reflexivity|].
           exists signer, net, sig. auto.
        -- intros e H. discriminate H.
        -- intros cause H. discriminate H.
      * split; [reflexivity|]. split; [|split].
        -- intros v H. discriminate H.
        -- intros e [= <-]. exists e3. reflexivity.
        -- intros cause H. discriminate H.
    + split; [reflexivity|]. split; [|split].
      * intros v H. discriminate H.
      * intros e [= <-]. exists e2. reflexivity.
      * intros cause H. discriminate H.
  - split; [reflexivity|]. split; [|split].
    + intros v H. discriminate H.
    + intros e [= <-]. exists e1. reflexivity.
    + intros cause [= <-]. reflexivity.
Qed.

Lemma userDecrypt_outcomes_witness :
  run (userDecrypt sample_request) offline_world (new_FhevmClient sample_config)
  = (Thrown (Error "Decryption failed: Error: no wallet"),
     new_FhevmClient sample_config, [CallGetSigner (BrowserProvider 0)]).
Proof.
  pose proof (userDecrypt_outcomes sample_request offline_world
                (new_FhevmClient sample_config)) as (_ & _ & _ & H).
  apply (H (Error "no wallet")). reflexivity.
Defined.

(** After a resolving [initialize()], [isInitialized()] is true and
    [getInstance()] returns the created instance; [getPublicKey()] and
    [getSignature()] return the library's key and signature when these are
    non-empty strings, and throw the not-initialized error for an empty one
    (the accessors test the stored string for truthiness). *)
Theorem accessors_after_initialize
    (w w' : World) (c : FhevmClient) create net created keys :
  import_fhevmjs w = Returned create ->
  getNetwork w (as_BrowserProvider (provider (config c))) = Returned net ->
  create (createInstance_params c net) = Returned created ->
  inst_getPublicKey created (contractAddress (config c)) = Returned keys ->
  let c' := client_of (run initialize w c) in
  result_of (run isInitialized w' c') = Returned true
  /\ result_of (run getInstance w' c') = Returned created
  /\ result_of (run getPublicKey w' c')
     = (if String.eqb (pkd_publicKey keys) ""
        then Thrown (Error not_initialized_message)
        else Returned (pkd_publicKey keys))
  /\ result_of (run getSignature w' c')
     = (if String.eqb (pkd_signature keys) ""
        then Thrown (Error not_initialized_message)
        else Returned (pkd_signature keys)).
Proof.
  intros Himp Hnet Hcreate Hkeys c'. subst c'.
  rewrite (initialize_resolves w c create net created keys Himp Hnet Hcreate Hkeys).
  cbn [client_of fst snd].
  repeat split.
  - unfold run, getPublicKey, bind, get_this, result_of. cbn.
    destruct (pkd_publicKey keys); reflexivity.
  - unfold run, getSignature, bind, get_this, result_of. cbn.
    destruct (pkd_signature keys); reflexivity.
Qed.

Lemma accessors_after_initialize_witness :
  result_of (run getPublicKey offline_world ready_client) = Returned "0x04ab"
  /\ result_of (run getSignature offline_world ready_client) = Returned "0x99cd".
Proof.
  pose proof (accessors_after_initialize (sepolia_world sample_instance) offline_world
                (new_FhevmClient sample_config) (fun _ => Returned sample_instance)
                {| net_chainId := 11155111 |} sample_instance sample_keys
                eq_refl eq_refl eq_refl eq_refl) as (_ & _ & Hk & Hs).
  split; [exact Hk | exact Hs].
Defined.

(* ===================================================================== *)
(** ** Further properties of the framework binding *)
(* ===================================================================== *)

(** Follow a [match] on a string through its characters. *)
Ltac split_string_match :=
  repeat match goal with
         | |- context [match ?x with _ => _ end] =>
             is_var x; destruct x; try reflexivity
         end.

Lemma encrypt_switch_by_entry (type : string) (value : JsValue) :
  encrypt_switch type value
  = match entry_of_type type with
    | Some entry => typed_encrypt entry value
    | None => throw (Error ("Unsupported type: " +:+ type))
    end.
Proof. unfold encrypt_switch, entry_of_type. split_string_match. Qed.

Lemma entry_of_type_tag (entry : EncryptEntry) :
  entry_of_type (type_tag entry) = Some entry.
Proof. destruct entry; reflexivity. Qed.

Lemma entry_of_type_inv (type : string) (entry : EncryptEntry) :
  entry_of_type type = Some entry -> type = type_tag entry.
Proof.
  unfold entry_of_type.
  repeat match goal with
         | |- context [match ?x with _ => _ end] =>
             is_var x; destruct x; try discriminate
         end;
    intros [= <-]; reflexivity.
Qed.

Lemma entry_of_type_unsupported (type : string) :
  (forall entry, type <> type_tag entry) -> entry_of_type type = None.
Proof.
  intros H. destruct (entry_of_type type) as [entry|] eqn:E; [|reflexivity].
  exfalso. exact (H entry (entry_of_type_inv type entry E)).
Qed.



(** X10.  Unsupported type.  For a type tag other than the six supported
    ones the encrypt wrapper, even on a ready session, makes no outgoing
    call: it stores the error ["Unsupported type: <tag>"], returns null and
    leaves [isEncrypting] false and the stored result untouched. *)
Theorem encrypt_wrapper_unsupported_type
    (ctx : FhevmContextValue) (c : FhevmClient)
    (type : string) (value : JsValue) (w : World) (st : EncryptState) :
  ctx_client ctx = Some c ->
  ctx_isInitialized ctx = true ->
  (forall entry, type <> type_tag entry) ->
  let out := useFhevmEncrypt_encrypt ctx type value w in
  let final := final_state apply_EncryptSetter st (fst (fst out)) in
  out = ([SetIsEncrypting true; SetEncryptError None;
          SetEncryptError (Some (Error ("Unsupported type: " +:+ type)));
          SetIsEncrypting false], None, [])
  /\ isEncrypting final = false
  /\ encrypted final = encrypted st
  /\ encrypt_error final = Some (Error ("Unsupported type: " +:+ type)).
Proof.
  intros Hc Hflag Hun out final. subst out final.
  unfold useFhevmEncrypt_encrypt. rewrite Hc, Hflag. cbn [negb].
  rewrite encrypt_switch_by_entry, (entry_of_type_unsupported type Hun).
  cbn. repeat split.
Qed.

Lemma encrypt_wrapper_unsupported_type_witness :
  useFhevmEncrypt_encrypt
    {| ctx_client := Some ready_client; ctx_isInitialized := true |}
    "uint128" (VNumber (num 1)) offline_world
  = ([SetIsEncrypting true; SetEncryptError None;
      SetEncryptError (Some (Error "Unsupported type: uint128"));
      SetIsEncrypting false], None, []).
Proof.
  apply (encrypt_wrapper_unsupported_type
           {| ctx_client := Some ready_client; ctx_isInitialized := true |}
           ready_client "uint128" (VNumber (num 1)) offline_world
           initial_EncryptState eq_refl eq_refl).
  intros entry. destruct entry; discriminate.
Defined.

(** X11.  The decrypt wrapper on a ready session.  It makes the calls of
    [userDecrypt], raises [isDecrypting] first and lowers it last.  When
    [userDecrypt] resolves, the value stored and returned is the Number 0
    whatever was signed, and the error stays cleared; when it rejects with
    [e], which is the wrapped ["Decryption failed: ..."] error, [e] itself
    is stored, the stored result is left as it was and null is returned. *)
Theorem decrypt_wrapper_on_ready_session
    (ctx : FhevmContextValue) (c : FhevmClient)
    (request : DecryptRequest) (w : World) (st : DecryptState) :
  ctx_client ctx = Some c ->
  ctx_isInitialized ctx = true ->
  let out := useFhevmDecrypt_decrypt ctx request w in
  let visited := states_through apply_DecryptSetter st (fst (fst out)) in
  let final := final_state apply_DecryptSetter st (fst (fst out)) in
  snd out = calls_of (run (userDecrypt request) w c)
  /\ isDecrypting final = false
  /\ (isDecrypting <$> visited) = [isDecrypting st; true; true; true; false]
  /\ match result_of (run (userDecrypt request) w c) with
     | Returned result =>
         result = {| value := VNumber (num 0); success := true |}
         /\ fst (fst out)
            = [SetIsDecrypting true; SetDecryptError None;
               SetDecrypted (Some (VNumber (num 0))); SetIsDecrypting false]
         /\ snd (fst out) = Some (VNumber (num 0))
         /\ decrypted final = Some (VNumber (num 0))
         /\ decrypt_error final = None
     | Thrown e =>
         (exists cause, e = Error ("Decryption failed: " +:+ error_toString cause))
         /\ fst (fst out)
            = [SetIsDecrypting true; SetDecryptError None;
               SetDecryptError (Some e); SetIsDecrypting false]
         /\ snd (fst out) = None
         /\ decrypted final = decrypted st
         /\ decrypt_error final = Some e
     end.
Proof.
  intros Hc Hflag out visited final. subst out visited final.
  unfold useFhevmDecrypt_decrypt. rewrite Hc, Hflag. cbn [negb].
  destruct (userDecrypt_outcomes request w c) as (_ & Hret & Hthrow & _).
  cbv zeta in Hret, Hthrow. unfold result_of, calls_of in *.
  destruct (run (userDecrypt request) w c) as [[[v | e] c'] calls];
    cbn [fst snd] in *.
  - destruct (Hret v eq_refl) as [-> _]. cbn. repeat split.
  - destruct (Hthrow e eq_refl) as [cause ->]. cbn.
    repeat split. exists cause. reflexivity.
Qed.

Lemma decrypt_wrapper_on_ready_session_witness :
  let out := useFhevmDecrypt_decrypt
               {| ctx_client := Some ready_client; ctx_isInitialized := true |}
               sample_request declining_world in
  snd (fst out) = None
  /\ decrypt_error (final_state apply_DecryptSetter initial_DecryptState (fst (fst out)))
     = Some (Error "Decryption failed: Error: user rejected action")
  /\ snd out
     = [CallGetSigner (BrowserProvider 0); CallGetNetwork (BrowserProvider 0);
        CallSignTypedData
          (decryption_domain sample_request {| net_chainId := 11155111 |})
          decryption_types (decryption_message sample_request)].
Proof.
  pose proof (decrypt_wrapper_on_ready_session
                {| ctx_client := Some ready_client; ctx_isInitialized := true |}
                ready_client sample_request declining_world initial_DecryptState
                eq_refl eq_refl) as (Hcalls & _ & _ & Hout).
  cbv zeta in Hout.
  change (result_of (run (userDecrypt sample_request) declining_world ready_client))
    with (@Thrown DecryptionResult
            (Error "Decryption failed: Error: user rejected action")) in Hout.
  destruct Hout as (_ & _ & Hnull & _ & Herr).
  cbv zeta. split; [exact Hnull|]. split; [exact Herr|]. exact Hcalls.
Defined.

(** Reset.  Neither [reset()] writes the pending flag; and from a
    component's first render, one invocation of a wrapper, whatever its
    arguments and outcome, followed by [reset()] brings every cell back to
    its initial value. *)
Theorem reset_restores_initial_state
    (ctx : FhevmContextValue) (w : World)
    (type : string) (value : JsValue) (request : DecryptRequest) :
  (forall st, isEncrypting (final_state apply_EncryptSetter st useFhevmEncrypt_reset)
              = isEncrypting st)
  /\ (forall st, isDecrypting (final_state apply_DecryptSetter st useFhevmDecrypt_reset)
                 = isDecrypting st)
  /\ final_state apply_EncryptSetter
       (final_state apply_EncryptSetter initial_EncryptState
          (fst (fst (useFhevmEncrypt_encrypt ctx type value w))))
       useFhevmEncrypt_reset
     = initial_EncryptState
  /\ final_state apply_DecryptSetter
       (final_state apply_DecryptSetter initial_DecryptState
          (fst (fst (useFhevmDecrypt_decrypt ctx request w))))
       useFhevmDecrypt_reset
     = initial_DecryptState.
Proof.
  split; [reflexivity|]. split; [reflexivity|]. split.
  - unfold useFhevmEncrypt_encrypt.
    destruct (ctx_client ctx) as [c|]; [|reflexivity].
    destruct (ctx_isInitialized ctx); [|reflexivity]. cbn [negb].
    destruct (run (encrypt_switch type value) w c) as [[[r | e] c'] calls];
      reflexivity.
  - unfold useFhevmDecrypt_decrypt.
    destruct (ctx_client ctx) as [c|]; [|reflexivity].
    destruct (ctx_isInitialized ctx); [|reflexivity]. cbn [negb].
    destruct (run (userDecrypt request) w c) as [[[r | e] c'] calls];
      reflexivity.
Qed.

(** What a resolving [initialize()] returns is what it stored. *)
Lemma initialize_result_fields (w : World) (c : FhevmClient) (r : InitializeResult) :
  result_of (run initialize w c) = Returned r ->
  exists created keys,
    r = {| ir_instance := Some created;
           ir_publicKey := Some (pkd_publicKey keys);
           ir_signature := Some (pkd_signature keys) |}
    /\ client_of (run initialize w c) = initialized_with c created keys.
Proof.
  set (p := as_BrowserProvider (provider (config c))).
  destruct (import_fhevmjs w) as [create | e] eqn:Himp.
  2:{ rewrite (initialize_rejects_at_import w c e Himp). discriminate. }
  destruct (getNetwork w p) as [net | e] eqn:Hnet.
  2:{ rewrite (initialize_rejects_at_network w c create e Himp Hnet). discriminate. }
  destruct (create (createInstance_params c net)) as [created | e] eqn:Hcreate.
  2:{ rewrite (initialize_rejects_at_createInstance w c create net e Himp Hnet Hcreate).
      discriminate. }
  destruct (inst_getPublicKey created (contractAddress (config c)))
    as [keys | e] eqn:Hkeys.
  - rewrite (initialize_resolves w c create net created keys Himp Hnet Hcreate Hkeys).
    intros [= <-]. exists created, keys. split; reflexivity.
  - rewrite (initialize_rejects_at_getPublicKey w c create net created e
               Himp Hnet Hcreate Hkeys).
    discriminate.
Qed.

(** *** The provider's states *)

(** A run of [initialize] that nothing interrupts leaves what
    [FhevmProvider_initialize] computes. *)
Lemma initialize_uninterrupted_spec (captured : ProviderState) (w : World) (m : Mounted) :
  FhevmProvider_initialize_guard captured = false ->
  m_cells (initialize_uninterrupted w m)
  = final_state apply_ProviderSetter (m_cells m)
      (fst (fst (FhevmProvider_initialize captured (m_client m) w)))
  /\ m_client (initialize_uninterrupted w m)
     = snd (fst (FhevmProvider_initialize captured (m_client m) w))
  /\ m_renders (initialize_uninterrupted w m) = m_renders m
  /\ m_awaiting (initialize_uninterrupted w m) = m_awaiting m
  /\ m_settled (initialize_uninterrupted w m) = m_settled m.
Proof.
  intros Hguard. unfold FhevmProvider_initialize. rewrite Hguard.
  unfold initialize_uninterrupted, finish_initialize, settle_initialize,
    begin_initialize, result_of, client_of.
  cbn [m_cells m_client m_renders m_awaiting m_settled pred].
  destruct (run initialize w (m_client m)) as [[outcome c'] calls].
  cbn [fst snd]. unfold final_state. rewrite fold_left_app.
  repeat split.
Qed.

Lemma mounted_uninterrupted (cfg : FhevmConfig) (m : Mounted) (captured : ProviderState)
    (w : World) :
  mounted cfg m ->
  In captured (m_renders m) ->
  FhevmProvider_initialize_guard captured = false ->
  mounted cfg (initialize_uninterrupted w m).
Proof.
  intros Hm Hin Hguard.
  refine (mounted_finish cfg (settle_initialize w (begin_initialize m))
            (result_of (run initialize w (m_client m))) [] (m_settled m) _ eq_refl).
  apply mounted_settle; [|cbn; lia].
  exact (mounted_begin cfg m captured Hm Hin Hguard).
Qed.

Lemma initialize_keeps_instance (w : World) (c : FhevmClient) :
  instance c <> None -> instance (client_of (run initialize w c)) <> None.
Proof.
  intros Hi. rewrite <- after_initialize. apply instance_persists. exact Hi.
Qed.

Lemma initialize_rejection_is_wrapped (w : World) (c : FhevmClient) (e : JsError) :
  result_of (run initialize w c) = Thrown e -> exists cause, e = initialize_error cause.
Proof.
  destruct (initialize_outcomes w c)
    as [(r & created & keys & -> & _) | [(cause & -> & _) | (cause & created & -> & _)]];
    [discriminate | |]; intros [= <-]; exists cause; reflexivity.
Qed.

(** What holds of a mounted provider at every moment, runs in flight
    included. *)
Lemma mounted_invariant (cfg : FhevmConfig) (m : Mounted) :
  mounted cfg m ->
  (ps_isInitialized (m_cells m) = true ->
     ps_instance (m_cells m) <> None /\ ps_publicKey (m_cells m) <> None
     /\ ps_signature (m_cells m) <> None /\ instance (m_client m) <> None)
  /\ (ps_isInitialized (m_cells m) = false ->
        ps_instance (m_cells m) = None /\ ps_publicKey (m_cells m) = None
        /\ ps_signature (m_cells m) = None)
  /\ (ps_isInitializing (m_cells m) = true ->
        (0 < m_awaiting m)%nat \/ m_settled m <> [])
  /\ (forall e, ps_error (m_cells m) = Some e -> exists cause, e = initialize_error cause)
  /\ (forall r, In (Returned r) (m_settled m) ->
        ir_instance r <> None /\ ir_publicKey r <> None /\ ir_signature r <> None
        /\ instance (m_client m) <> None)
  /\ (forall e, In (Thrown e) (m_settled m) -> exists cause, e = initialize_error cause)
  /\ (forall st, In st (m_renders m) -> ps_isInitialized st = true ->
        instance (m_client m) <> None).
Proof.
  induction 1 as [|m Hm IH|m captured Hm IH Hin Hguard|m w Hm IH Hwait
                 |m outcome before after Hm IH Hsettled|m op w Hm IH].
  - cbn. split; [discriminate|]. split; [auto|]. split; [discriminate|].
    split; [discriminate|]. split; [intros r []|]. split; [intros e []|].
    intros st [<- | []]; discriminate.
  - destruct IH as (Hon & Hoff & Hing & Herr & Hres & Hrej & Hren).
    cbn [render m_cells m_client m_renders m_awaiting m_settled].
    split; [exact Hon|]. split; [exact Hoff|]. split; [exact Hing|].
    split; [exact Herr|]. split; [exact Hres|]. split; [exact Hrej|].
    intros st [<- | Hin] Hflag; [apply Hon, Hflag | exact (Hren st Hin Hflag)].
  - destruct IH as (Hon & Hoff & Hing & Herr & Hres & Hrej & Hren).
    cbn. split; [exact Hon|]. split; [exact Hoff|].
    split; [intros _; left; lia|]. split; [discriminate|].
    split; [exact Hres|]. split; [exact Hrej | exact Hren].
  - destruct IH as (Hon & Hoff & Hing & Herr & Hres & Hrej & Hren).
    cbn [settle_initialize m_cells m_client m_renders m_awaiting m_settled].
    split.
    { intros Hflag. destruct (Hon Hflag) as (? & ? & ? & Hi).
      repeat split; try assumption. apply initialize_keeps_instance, Hi. }
    split; [exact Hoff|]. split; [intros _; right; discriminate|].
    split; [exact Herr|]. split; [|split].
    + intros r [Hnew | Hold].
      * destruct (initialize_result_fields w (m_client m) r Hnew)
          as (created & keys & -> & ->).
        cbn. repeat split; discriminate.
      * destruct (Hres r Hold) as (? & ? & ? & Hi).
        repeat split; try assumption. apply initialize_keeps_instance, Hi.
    + intros e [Hnew | Hold];
        [exact (initialize_rejection_is_wrapped w (m_client m) e Hnew)
        | exact (Hrej e Hold)].
    + intros st Hin Hflag. apply initialize_keeps_instance, (Hren st Hin Hflag).
  - destruct IH as (Hon & Hoff & Hing & Herr & Hres & Hrej & Hren).
    assert (Hsub : forall x, In x (before ++ after) -> In x (m_settled m)).
    { intros x Hx. rewrite Hsettled. apply in_app_or in Hx as [Hx | Hx];
        apply in_or_app; [left | right; right]; exact Hx. }
    assert (Hmine : In outcome (m_settled m)).
    { rewrite Hsettled. apply in_or_app. right. left. reflexivity. }
    cbn [finish_initialize m_cells m_client m_renders m_awaiting m_settled].
    destruct outcome as [r | e].
    + destruct (Hres r Hmine) as (Hi & Hk & Hs & Hc).
      cbn. split; [intros _; auto|]. split; [discriminate|].
      split; [discriminate|]. split; [exact Herr|].
      split; [intros r' Hr'; exact (Hres r' (Hsub _ Hr'))|].
      split; [intros e He; exact (Hrej e (Hsub _ He)) | exact Hren].
    + cbn. split; [exact Hon|]. split; [exact Hoff|].
      split; [discriminate|].
      split; [intros e' [= <-]; exact (Hrej e Hmine)|].
      split; [intros r' Hr'; exact (Hres r' (Hsub _ Hr'))|].
      split; [intros e' He'; exact (Hrej e' (Hsub _ He')) | exact Hren].
  - destruct IH as (Hon & Hoff & Hing & Herr & Hres & Hrej & Hren).
    cbn [use_client m_cells m_client m_renders m_awaiting m_settled].
    split.
    { intros Hflag. destruct (Hon Hflag) as (? & ? & ? & Hi).
      repeat split; try assumption. apply instance_persists, Hi. }
    split; [exact Hoff|]. split; [exact Hing|]. split; [exact Herr|].
    split; [|split; [exact Hrej|]].
    + intros r Hr. destruct (Hres r Hr) as (? & ? & ? & Hi).
      repeat split; try assumption. apply instance_persists, Hi.
    + intros st Hin Hflag. apply instance_persists, (Hren st Hin Hflag).
Qed.

(** So a session without an instance is one the provider reports as not
    initialized. *)
Lemma context_of_uninitialized_session (cfg : FhevmConfig) (m : Mounted) :
  mounted cfg m ->
  instance (m_client m) = None ->
  ctx_isInitialized (context_of (m_cells m) (m_client m)) = false.
Proof.
  intros Hm Hi. cbn.
  destruct (ps_isInitialized (m_cells m)) eqn:Hflag; [|reflexivity].
  destruct (mounted_invariant cfg m Hm) as (Hon & _).
  destruct (Hon Hflag) as (_ & _ & _ & Hinst). contradiction.
Qed.

(** X12.  The provider's cells.  Whatever runs of [initialize] the
    provider has made, through the function of whichever render, one after
    the other or overlapping, and whatever was called on the client it
    hands out: if [isInitialized] is true then [instance], [publicKey] and
    [signature] are all present and the client has an instance; if it is
    false the three are all null; [isInitializing] is false when no run is
    in flight; and a stored [error] is always the wrapped error of a
    rejected [client.initialize()].  The flag does not exclude a stored
    error: see [stale_initialize_stores_error_on_ready_provider]. *)
Theorem provider_cells_are_consistent (cfg : FhevmConfig) (m : Mounted) :
  mounted cfg m ->
  (ps_isInitialized (m_cells m) = true ->
     ps_instance (m_cells m) <> None /\ ps_publicKey (m_cells m) <> None
     /\ ps_signature (m_cells m) <> None /\ instance (m_client m) <> None)
  /\ (ps_isInitialized (m_cells m) = false ->
        ps_instance (m_cells m) = None /\ ps_publicKey (m_cells m) = None
        /\ ps_signature (m_cells m) = None)
  /\ (m_awaiting m = 0 -> m_settled m = [] -> ps_isInitializing (m_cells m) = false)
  /\ (forall e, ps_error (m_cells m) = Some e ->
        exists cause,
          e = Error ("Failed to initialize FHEVM: " +:+ error_toString cause)).
Proof.
  intros Hm.
  destruct (mounted_invariant cfg m Hm) as (Hon & Hoff & Hing & Herr & _).
  split; [exact Hon|]. split; [exact Hoff|]. split; [|exact Herr].
  intros Hwait Hsettled.
  destruct (ps_isInitializing (m_cells m)); [|reflexivity].
  destruct (Hing eq_refl) as [Hpos | Hne]; [lia | contradiction].
Qed.

Lemma mounted_ready_provider : mounted sample_config ready_provider.
Proof.
  apply mounted_render.
  apply (mounted_uninterrupted sample_config _ initial_ProviderState).
  - apply mounted_new.
  - left. reflexivity.
  - reflexivity.
Qed.

Lemma mounted_ready_provider_after_stale_initialize :
  mounted sample_config ready_provider_after_stale_initialize.
Proof.
  apply (mounted_uninterrupted sample_config _ initial_ProviderState).
  - exact mounted_ready_provider.
  - right. left. reflexivity.
  - reflexivity.
Qed.

Lemma provider_cells_are_consistent_witness :
  (ps_instance (m_cells ready_provider_after_stale_initialize) <> None
   /\ ps_publicKey (m_cells ready_provider_after_stale_initialize) <> None
   /\ ps_signature (m_cells ready_provider_after_stale_initialize) <> None
   /\ instance (m_client ready_provider_after_stale_initialize) <> None)
  /\ ps_isInitializing (m_cells ready_provider_after_stale_initialize) = false.
Proof.
  pose proof (provider_cells_are_consistent sample_config
                ready_provider_after_stale_initialize
                mounted_ready_provider_after_stale_initialize)
    as (Hon & _ & Hrest & _).
  split; [apply Hon | apply Hrest]; reflexivity.
Defined.

(** A provider that is initialized and holds an error.  The function of
    the first render, called again after the mount-time run resolved,
    passes its guard, because the flags it reads are those of the first
    render; when its [client.initialize()] rejects, the error is stored
    beside [isInitialized = true]. *)
Example stale_initialize_stores_error_on_ready_provider :
  mounted sample_config ready_provider_after_stale_initialize
  /\ ps_isInitialized (m_cells ready_provider) = true
  /\ FhevmProvider_initialize_guard (m_cells ready_provider) = true
  /\ ps_isInitialized (m_cells ready_provider_after_stale_initialize) = true
  /\ ps_error (m_cells ready_provider_after_stale_initialize)
     = Some (Error "Failed to initialize FHEVM: Error: Cannot find module 'fhevmjs'").
Proof.
  split; [exact mounted_ready_provider_after_stale_initialize|].
  repeat split.
Qed.

(** X13.  A render that saw [isInitialized] true is never wrong about the
    client.  The encrypt wrapper made over the context of such a render,
    called then or at any later moment, whatever runs of [initialize] and
    calls on the client came in between, reaches the instance for each
    supported type tag with exactly one call: it is stopped neither by its
    own guard nor by the client's precondition. *)
Theorem ready_provider_wrapper_reaches_instance
    (cfg : FhevmConfig) (m : Mounted) (captured : ProviderState)
    (entry : EncryptEntry) (value : JsValue) (w : World) :
  mounted cfg m ->
  In captured (m_renders m) ->
  ps_isInitialized captured = true ->
  snd (useFhevmEncrypt_encrypt (context_of captured (m_client m))
         (type_tag entry) value w)
  = [CallEncrypt entry value].
Proof.
  intros Hm Hin Hflag.
  destruct (mounted_invariant cfg m Hm) as (_ & _ & _ & _ & _ & _ & Hren).
  pose proof (Hren captured Hin Hflag) as Hi.
  destruct (instance (m_client m)) as [i|] eqn:Hinst; [|contradiction].
  unfold useFhevmEncrypt_encrypt, context_of. cbn [ctx_client ctx_isInitialized].
  rewrite Hflag. cbn [negb].
  rewrite encrypt_switch_by_entry, entry_of_type_tag.
  unfold run. rewrite typed_encrypt_run, Hinst.
  destruct (entry_of i entry value); reflexivity.
Qed.

Lemma ready_provider_wrapper_reaches_instance_witness :
  snd (useFhevmEncrypt_encrypt
         (context_of (m_cells ready_provider)
            (m_client ready_provider_after_stale_initialize))
         (type_tag Enc_uint64) (VBigInt 5) offline_world)
  = [CallEncrypt Enc_uint64 (VBigInt 5)].
Proof.
  apply (ready_provider_wrapper_reaches_instance sample_config).
  - exact mounted_ready_provider_after_stale_initialize.
  - left. reflexivity.
  - reflexivity.
Defined.



Lemma encryptBatch_loop_spec (ctx : FhevmContextValue) (w : World) (items : list BatchItem) :
  forall sdk results calls,
    encryptBatch_loop ctx w items sdk results calls
    = (sdk ++ concat (map (fun item =>
                             fst (fst (useFhevmEncrypt_encrypt ctx (item_type item)
                                         (item_value item) w))) items),
       results ++ omap (fun item =>
                          snd (fst (useFhevmEncrypt_encrypt ctx (item_type item)
                                      (item_value item) w))) items,
       calls ++ concat (map (fun item =>
                               snd (useFhevmEncrypt_encrypt ctx (item_type item)
                                      (item_value item) w)) items)).
Proof.
  induction items as [|item items IH]; intros sdk results calls.
  - cbn. rewrite !app_nil_r. reflexivity.
  - cbn [encryptBatch_loop map concat omap list_omap].
    destruct (useFhevmEncrypt_encrypt ctx (item_type item) (item_value item) w)
      as [[setters [r|]] out]; cbn [fst snd]; rewrite IH;
      rewrite <- !app_assoc; reflexivity.
Qed.

(** X15.  [encryptBatch] returns the ciphertexts of the items whose
    encryption succeeded, in item order, and silently leaves out the
    others (an unsupported type tag, an entry point that threw): the result
    is not aligned with the items, and no batch error is ever stored.  On a
    session that is not initialized it returns the empty list without any
    outgoing call. *)
Theorem encryptBatch_collects_successes
    (ctx : FhevmContextValue) (w : World) (items : list BatchItem) :
  let out := useEncryption_encryptBatch ctx w items in
  batch_setters out
  = [SetIsBatchEncrypting true; SetBatchError None; SetIsBatchEncrypting false]
  /\ (ctx_isInitialized ctx = false \/ ctx_client ctx = None ->
        batch_results out = [] /\ batch_calls out = [])
  /\ (forall c i,
         ctx_client ctx = Some c -> ctx_isInitialized ctx = true ->
         instance c = Some i ->
         batch_results out
         = omap (fun item =>
                   match entry_of_type (item_type item) with
                   | Some entry =>
                       match entry_of i entry (item_value item) with
                       | Returned r => Some r
                       | Thrown _ => None
                       end
                   | None => None
                   end) items
         /\ batch_calls out
            = omap (fun item =>
                      match entry_of_type (item_type item) with
                      | Some entry => Some (CallEncrypt entry (item_value item))
                      | None => None
                      end) items).
Proof.
  intros out. subst out. unfold useEncryption_encryptBatch.
  rewrite encryptBatch_loop_spec. cbn [batch_setters batch_results batch_calls app].
  split; [reflexivity|]. split.
  - intros Hguard.
    assert (Hnone : forall item,
               useFhevmEncrypt_encrypt ctx (item_type item) (item_value item) w
               = ([SetEncryptError (Some client_not_initialized)], None, [])).
    { intros item. unfold useFhevmEncrypt_encrypt.
      destruct Hguard as [-> | ->]; [destruct (ctx_client ctx)|]; reflexivity. }
    split.
    + induction items as [|item items IH]; [reflexivity|].
      cbn [omap list_omap]. rewrite Hnone. exact IH.
    + induction items as [|item items IH]; [reflexivity|].
      cbn [map concat]. rewrite Hnone. exact IH.
  - intros c i Hc Hflag Hi.
    assert (Hone : forall item,
               useFhevmEncrypt_encrypt ctx (item_type item) (item_value item) w
               = match entry_of_type (item_type item) with
                 | Some entry =>
                     match entry_of i entry (item_value item) with
                     | Returned r =>
                         ([SetIsEncrypting true; SetEncryptError None;
                           SetEncrypted (Some r);
                           SetEncryptedHex (Some (encryptedToHex r));
                           SetIsEncrypting false], Some r,
                          [CallEncrypt entry (item_value item)])
                     | Thrown e =>
                         ([SetIsEncrypting true; SetEncryptError None;
                           SetEncryptError (Some e); SetIsEncrypting false], None,
                          [CallEncrypt entry (item_value item)])
                     end
                 | None =>
                     ([SetIsEncrypting true; SetEncryptError None;
                       SetEncryptError
                         (Some (Error ("Unsupported type: " +:+ item_type item)));
                       SetIsEncrypting false], None, [])
                 end).
    { intros item. unfold useFhevmEncrypt_encrypt. rewrite Hc, Hflag. cbn [negb].
      rewrite encrypt_switch_by_entry.
      destruct (entry_of_type (item_type item)) as [entry|]; [|reflexivity].
      unfold run. rewrite typed_encrypt_run, Hi.
      destruct (entry_of i entry (item_value item)); reflexivity. }
    split.
    + induction items as [|item items IH]; [reflexivity|].
      cbn [omap list_omap]. rewrite Hone.
      destruct (entry_of_type (item_type item)) as [entry|];
        [destruct (entry_of i entry (item_value item))|];
        cbn [fst snd]; rewrite IH; reflexivity.
    + induction items as [|item items IH]; [reflexivity|].
      cbn [map concat omap list_omap]. rewrite Hone.
      destruct (entry_of_type (item_type item)) as [entry|];
        [destruct (entry_of i entry (item_value item))|];
        cbn [fst snd app]; rewrite IH; reflexivity.
Qed.

Lemma encryptBatch_collects_successes_witness :
  batch_results
    (useEncryption_encryptBatch
       {| ctx_client := Some ready_client; ctx_isInitialized := true |} offline_world
       [ {| item_type := "uint8"; item_value := VNumber (num 7) |};
         {| item_type := "uint128"; item_value := VNumber (num 7) |};
         {| item_type := "bool"; item_value := VBoolean true |} ])
  = [sample_ciphertext; sample_ciphertext].
Proof.
  pose proof (encryptBatch_collects_successes
                {| ctx_client := Some ready_client; ctx_isInitialized := true |}
                offline_world
                [ {| item_type := "uint8"; item_value := VNumber (num 7) |};
                  {| item_type := "uint128"; item_value := VNumber (num 7) |};
                  {| item_type := "bool"; item_value := VBoolean true |} ])
    as (_ & _ & H).
  destruct (H ready_client sample_instance eq_refl eq_refl eq_refl) as [Hr _].
  exact Hr.
Defined.

(* ===================================================================== *)
(** ** Further properties of the validator *)
(* ===================================================================== *)

Lemma log2_of_large (a : Z) : (2 ^ 53 <= a)%Z -> (53 <= Z.log2 a)%Z.
Proof.
  intros H. change 53%Z with (Z.log2 (2 ^ 53)) at 1. apply Z.log2_le_mono. exact H.
Qed.

Lemma round_half_even_lower (a e : Z) :
  (0 < e)%Z -> (a / 2 ^ e <= round_half_even a e)%Z.
Proof.
  intros He. unfold round_half_even.
  destruct (_ <? _)%Z; [lia|]. destruct (_ <? _)%Z; [lia|].
  destruct (Z.even _); lia.
Qed.

(** The double nearest to an integer of at least [2^53] is at least [2^53]. *)
Lemma rounded_large (a : Z) :
  (2 ^ 53 <= a)%Z ->
  (2 ^ 53 <= round_half_even a (Z.log2 a - 52) * 2 ^ (Z.log2 a - 52))%Z.
Proof.
  intros Ha. pose proof (log2_of_large a Ha) as Hlog.
  set (e := (Z.log2 a - 52)%Z). assert (He : (0 < e)%Z) by (subst e; lia).
  pose proof (round_half_even_lower a e He) as Hround.
  assert (Hpow : (2 ^ 52 * 2 ^ e <= a)%Z).
  { rewrite <- Z.pow_add_r by lia. replace (52 + e)%Z with (Z.log2 a) by (subst e; lia).
    apply Z.log2_spec. lia. }
  assert (Hpos : (0 < 2 ^ e)%Z) by (apply Z.pow_pos_nonneg; lia).
  assert (Hq : (2 ^ 52 <= a / 2 ^ e)%Z).
  { apply Z.div_le_lower_bound; [exact Hpos | lia]. }
  assert (H2 : (2 <= 2 ^ e)%Z).
  { change 2%Z with (2 ^ 1)%Z at 1. apply Z.pow_le_mono_r; lia. }
  change (2 ^ 53)%Z with (2 ^ 52 * 2)%Z.
  apply Z.mul_le_mono_nonneg; lia.
Qed.

(** A BigInt outside the exact range converts to a Number on the same side
    of it. *)
Lemma NumberOfBigInt_cases (z : Z) :
  (Z.abs z < 2 ^ 53)%Z /\ NumberOfBigInt z = num z
  \/ (2 ^ 53 <= z)%Z
     /\ (NumberOfBigInt z = PosInf
         \/ exists v, (2 ^ 53 <= v)%Z /\ NumberOfBigInt z = num v)
  \/ (z <= - 2 ^ 53)%Z
     /\ (NumberOfBigInt z = NegInf
         \/ exists v, (v <= - 2 ^ 53)%Z /\ NumberOfBigInt z = num v).
Proof.
  unfold NumberOfBigInt.
  destruct (Z.ltb_spec (Z.abs z) (2 ^ 53)) as [Hsmall | Hbig]; [left; auto|].
  right.
  pose proof (rounded_large (Z.abs z) Hbig) as Hv.
  set (v := (round_half_even (Z.abs z) (Z.log2 (Z.abs z) - 52)
             * 2 ^ (Z.log2 (Z.abs z) - 52))%Z) in *.
  destruct (Z.leb_spec (2 ^ 1024) v) as [Hinf | Hfin].
  - destruct (Z.ltb_spec z 0); [right | left]; (split; [lia | left; reflexivity]).
  - destruct (Z_lt_le_dec z 0) as [Hneg | Hpos].
    + right. split; [lia|]. right. exists (Z.sgn z * v)%Z.
      rewrite (Z.sgn_neg z Hneg). split; [lia | reflexivity].
    + left. split; [lia|]. right. exists (Z.sgn z * v)%Z.
      rewrite (Z.sgn_pos z) by lia. split; [lia | reflexivity].
Qed.

Lemma out_of_range_integer (z max : Z) :
  out_of_range (num z) max = negb ((0 <=? z) && (z <=? max))%Z.
Proof.
  unfold out_of_range, num_gt, num_lt, Number_isInteger, num, inject_Z.
  cbn [Qnum Qden]. rewrite Z.mod_1_r. cbn [Z.eqb negb orb].
  rewrite !Z.mul_1_r.
  destruct (Z.ltb_spec z 0), (Z.leb_spec 0 z), (Z.ltb_spec max z), (Z.leb_spec z max);
    try lia; reflexivity.
Qed.

Lemma out_of_range_bigint (z max : Z) :
  (0 <= max < 2 ^ 53)%Z ->
  out_of_range (NumberOfBigInt z) max = negb ((0 <=? z) && (z <=? max))%Z.
Proof.
  intros Hmax.
  destruct (NumberOfBigInt_cases z)
    as [[Hsmall ->] | [[Hbig [-> | (v & Hv & ->)]] | [Hneg [-> | (v & Hv & ->)]]]].
  - apply out_of_range_integer.
  - destruct (Z.leb_spec 0 z), (Z.leb_spec z max); try lia. reflexivity.
  - rewrite out_of_range_integer.
    destruct (Z.leb_spec 0 z), (Z.leb_spec z max), (Z.leb_spec 0 v), (Z.leb_spec v max);
      try lia; reflexivity.
  - destruct (Z.leb_spec 0 z), (Z.leb_spec z max); try lia; reflexivity.
  - rewrite out_of_range_integer.
    assert (0 < 2 ^ 53)%Z by lia.
    destruct (Z.leb_spec 0 z), (Z.leb_spec z max), (Z.leb_spec 0 v), (Z.leb_spec v max);
      try lia; reflexivity.
Qed.

Lemma range_verdict (b : bool) (reason : string) :
  valid (if b then rejected reason else accepted) = negb b.
Proof. destruct b; reflexivity. Qed.

(** X16.  The integer tags accept exactly their range.  For [uint8],
    [uint16] and [uint32] an integral Number or a BigInt is accepted if and
    only if it lies between 0 and 255, 65535 and 4294967295; a Number that
    is not an integer (a fraction, NaN, an infinity) is rejected. *)
Theorem integer_tags_accept_exactly_their_range (rt : Runtime) :
  (forall z : Z,
      (accepts rt "uint8" (VNumber (num z)) = true <-> 0 <= z <= 255)%Z
      /\ (accepts rt "uint8" (VBigInt z) = true <-> 0 <= z <= 255)%Z
      /\ (accepts rt "uint16" (VNumber (num z)) = true <-> 0 <= z <= 65535)%Z
      /\ (accepts rt "uint16" (VBigInt z) = true <-> 0 <= z <= 65535)%Z
      /\ (accepts rt "uint32" (VNumber (num z)) = true <-> 0 <= z <= 4294967295)%Z
      /\ (accepts rt "uint32" (VBigInt z) = true <-> 0 <= z <= 4294967295)%Z)
  /\ (forall x : number,
         Number_isInteger x = false ->
         accepts rt "uint8" (VNumber x) = false
         /\ accepts rt "uint16" (VNumber x) = false
         /\ accepts rt "uint32" (VNumber x) = false).
Proof.
  split.
  - intros z. unfold accepts. cbn [validateEncryptionValue ToNumber].
    rewrite !range_verdict, !out_of_range_integer.
    rewrite !out_of_range_bigint by (split; [lia | reflexivity]).
    rewrite !negb_involutive, !andb_true_iff, !Z.leb_le. tauto.
  - intros x Hx. unfold accepts. cbn [validateEncryptionValue ToNumber].
    unfold out_of_range. rewrite Hx. repeat split.
Qed.

(** X17.  [uint64] goes through [BigInt(value)]: a BigInt or an integral
    Number is accepted if and only if it lies between 0 and [2^64 - 1]; a
    Number that is not an integer, and a string that is not a BigInt
    literal, are rejected as ["Value must be a valid BigInt"], not as out
    of range. *)
Theorem uint64_accepts_exactly_its_range (rt : Runtime) :
  (forall z : Z,
      (accepts rt "uint64" (VBigInt z) = true <-> 0 <= z <= 2 ^ 64 - 1)%Z
      /\ (accepts rt "uint64" (VNumber (num z)) = true <-> 0 <= z <= 2 ^ 64 - 1)%Z)
  /\ (forall z : Z,
         (z < 0 \/ 2 ^ 64 - 1 < z)%Z ->
         validateEncryptionValue rt "uint64" (VBigInt z)
         = rejected "Value must be between 0 and 2^64-1")
  /\ (forall x : number,
         Number_isInteger x = false ->
         validateEncryptionValue rt "uint64" (VNumber x)
         = rejected "Value must be a valid BigInt")
  /\ (forall s : string,
         StringToBigInt rt s = None ->
         validateEncryptionValue rt "uint64" (VString s)
         = rejected "Value must be a valid BigInt").
Proof.
  split; [|split; [|split]].
  - intros z. unfold accepts.
    assert (Hnum : ToBigInt rt (VNumber (num z)) = Returned z).
    { unfold ToBigInt, num, inject_Z, Number_isInteger, truncate. cbn [Qnum Qden].
      rewrite Z.mod_1_r, Z.quot_1_r. reflexivity. }
    cbn [validateEncryptionValue]. rewrite Hnum. cbn [ToBigInt].
    rewrite range_verdict, negb_true_iff, orb_false_iff, !Z.ltb_ge.
    change (2 ^ 64 - 1)%Z with 18446744073709551615%Z. tauto.
  - intros z Hz. cbn [validateEncryptionValue ToBigInt].
    change (2 ^ 64 - 1)%Z with 18446744073709551615%Z in Hz.
    destruct (Z.ltb_spec z 0), (Z.ltb_spec 18446744073709551615 z);
      try lia; reflexivity.
  - intros x Hx. cbn [validateEncryptionValue]. unfold ToBigInt.
    destruct x; try reflexivity. rewrite Hx. reflexivity.
  - intros s Hs. cbn [validateEncryptionValue ToBigInt]. rewrite Hs. reflexivity.
Qed.

Lemma uint64_accepts_exactly_its_range_witness :
  validateEncryptionValue sample_runtime "uint64" (VNumber (Finite (3 # 2)))
  = rejected "Value must be a valid BigInt"
  /\ validateEncryptionValue sample_runtime "uint64" (VBigInt (2 ^ 64))
     = rejected "Value must be between 0 and 2^64-1".
Proof.
  pose proof (uint64_accepts_exactly_its_range sample_runtime) as (_ & Hr & Hx & _).
  split.
  - apply (Hx (Finite (3 # 2))). reflexivity.
  - apply (Hr (2 ^ 64)%Z). right. reflexivity.
Defined.

Lemma integer_tags_accept_exactly_their_range_witness :
  accepts sample_runtime "uint16" (VNumber (Finite (1 # 2))) = false.
Proof.
  pose proof (integer_tags_accept_exactly_their_range sample_runtime) as (_ & Hx).
  apply (Hx (Finite (1 # 2))). reflexivity.
Defined.

(** X18.  Type confusion.  The tag [bool] accepts a value if and only if
    it is a boolean; but each of the four integer tags also accepts both
    booleans, which it reads as 1 and 0. *)
Theorem booleans_pass_every_integer_tag (rt : Runtime) :
  (forall value : JsValue,
      accepts rt "bool" value = true <-> exists b, value = VBoolean b)
  /\ (forall b : bool,
         accepts rt "uint8" (VBoolean b) = true
         /\ accepts rt "uint16" (VBoolean b) = true
         /\ accepts rt "uint32" (VBoolean b) = true
         /\ accepts rt "uint64" (VBoolean b) = true).
Proof.
  split.
  - intros value. unfold accepts. cbn [validateEncryptionValue]. split.
    + destruct value; try discriminate. intros _. eexists; reflexivity.
    + intros [b ->]. reflexivity.
  - intros b. destruct b; repeat split.
Qed.

Lemma booleans_pass_every_integer_tag_witness :
  accepts sample_runtime "bool" (VBoolean false) = true
  /\ accepts sample_runtime "uint8" (VBoolean true) = true.
Proof.
  pose proof (booleans_pass_every_integer_tag sample_runtime) as [Hbool Hint].
  split.
  - apply Hbool. exists false. reflexivity.
  - apply (Hint true).
Defined.

Lemma validate_by_entry (rt : Runtime) (type : string) (value : JsValue) :
  validateEncryptionValue rt type value
  = match entry_of_type type with
    | Some entry => validateEncryptionValue rt (type_tag entry) value
    | None => rejected ("Unsupported type: " +:+ type)
    end.
Proof. unfold validateEncryptionValue, entry_of_type. split_string_match. Qed.

Lemma supported_verdict (rt : Runtime) (entry : EncryptEntry) (value : JsValue) :
  validateEncryptionValue rt (type_tag entry) value = accepted
  \/ exists reason,
       reason <> ""
       /\ validateEncryptionValue rt (type_tag entry) value = rejected reason.
Proof.
  destruct entry; cbn [type_tag validateEncryptionValue].
  - destruct value; [right | left | right | right]; try reflexivity;
      eexists; (split; [|reflexivity]); discriminate.
  - destruct (out_of_range _ _); [right | left; reflexivity].
    eexists; (split; [|reflexivity]); discriminate.
  - destruct (out_of_range _ _); [right | left; reflexivity].
    eexists; (split; [|reflexivity]); discriminate.
  - destruct (out_of_range _ _); [right | left; reflexivity].
    eexists; (split; [|reflexivity]); discriminate.
  - destruct (ToBigInt rt value) as [z | e].
    + destruct (_ || _)%bool; [right | left; reflexivity].
      eexists; (split; [|reflexivity]); discriminate.
    + right. eexists; (split; [|reflexivity]); discriminate.
  - destruct (negb _); [right | left; reflexivity].
    eexists; (split; [|reflexivity]); discriminate.
Qed.

(** X19.  The verdict is well formed for every tag and value: either
    [{valid: true}] with no error, or [{valid: false}] with a non-empty
    reason.  A tag other than the six supported ones is rejected with
    ["Unsupported type: <tag>"] whatever the value. *)
Theorem verdict_is_well_formed (rt : Runtime) (type : string) (value : JsValue) :
  (validateEncryptionValue rt type value = {| valid := true; error := None |}
   \/ exists reason,
        reason <> ""
        /\ validateEncryptionValue rt type value
           = {| valid := false; error := Some reason |})
  /\ ((forall entry, type <> type_tag entry) ->
      validateEncryptionValue rt type value
      = {| valid := false; error := Some ("Unsupported type: " +:+ type) |}).
Proof.
  rewrite validate_by_entry. split.
  - destruct (entry_of_type type) as [entry|].
    + apply supported_verdict.
    + right. eexists. split; [|reflexivity]. discriminate.
  - intros Hun. rewrite (entry_of_type_unsupported type Hun). reflexivity.
Qed.

Lemma verdict_is_well_formed_witness :
  validateEncryptionValue sample_runtime "int8" (VNumber (num 1))
  = {| valid := false; error := Some "Unsupported type: int8" |}.
Proof.
  apply (verdict_is_well_formed sample_runtime "int8" (VNumber (num 1))).
  intros entry. destruct entry; discriminate.
Defined.

(** X20.  [validateContractAddress] accepts exactly what [isValidAddress]
    and the validator's [address] case accept, [0x] followed by forty
    hexadecimal digits; it rejects the empty string as
    ["Contract address is required"] and every other string as
    ["Invalid contract address format"]. *)
Theorem validateContractAddress_agrees (rt : Runtime) (address : string) :
  valid (validateContractAddress address) = isValidAddress address
  /\ valid (validateContractAddress address) = accepts rt "address" (VString address)
  /\ (isValidAddress address = true ->
        validateContractAddress address = {| valid := true; error := None |})
  /\ (isValidAddress address = false ->
        validateContractAddress address
        = {| valid := false;
             error := Some (if String.eqb address ""
                            then "Contract address is required"
                            else "Invalid contract address format") |}).
Proof.
  rewrite accepts_address. unfold isValidAddress, validateContractAddress.
  destruct address as [|a s]; [repeat split; discriminate|].
  cbn [String.eqb]. destruct (address_regex_test (String a s)); cbn;
    repeat split; try discriminate;
    intros _; destruct (Ascii.eqb a _); reflexivity.
Qed.

Lemma validateContractAddress_agrees_witness :
  validateContractAddress "0x123"
  = {| valid := false; error := Some "Invalid contract address format" |}.
Proof.
  pose proof (validateContractAddress_agrees sample_runtime "0x123") as (_ & _ & _ & H).
  apply H. reflexivity.
Defined.

(* ===================================================================== *)
(** ** The demo's parse, validate, encrypt pipeline *)
(* ===================================================================== *)

(** The encrypt wrapper calls the instance with the value it was given, on
    the entry point its tag names, or not at all. *)
Lemma encrypt_wrapper_calls (ctx : FhevmContextValue) (type : string) (value : JsValue)
    (w : World) (entry : EncryptEntry) (v : JsValue) :
  In (CallEncrypt entry v) (snd (useFhevmEncrypt_encrypt ctx type value w)) ->
  type = type_tag entry /\ v = value.
Proof.
  unfold useFhevmEncrypt_encrypt.
  destruct (ctx_client ctx) as [c|]; [|intros []].
  destruct (ctx_isInitialized ctx); [|intros []]. cbn [negb].
  rewrite encrypt_switch_by_entry.
  destruct (entry_of_type type) as [e0|] eqn:E.
  - unfold run. rewrite typed_encrypt_run.
    destruct (instance c) as [i|].
    + destruct (entry_of i e0 value); cbn;
        (intros [[= <- <-] | []]; split; [apply entry_of_type_inv; exact E | reflexivity]).
    + cbn. intros [].
  - cbn. intros [].
Qed.

(** X21.  The demo component validates before it encrypts.  [handleEncrypt]
    reaches the encrypt wrapper only with a value that
    [validateEncryptionValue] accepts for the selected type; so every call
    that reaches the instance from it carries an accepted value on the
    entry point of the selected type.  Otherwise it stops with a non-empty
    validation message and nothing leaves the component. *)
Theorem handleEncrypt_forwards_only_accepted_values
    (rt : Runtime) (ctx : FhevmContextValue) (w : World)
    (selectedType inputValue : string) :
  match snd (handleEncrypt rt ctx w selectedType inputValue) with
  | Some enc =>
      fst (handleEncrypt rt ctx w selectedType inputValue) = [""]
      /\ exists parsed,
           parseValueForType rt selectedType inputValue = Some parsed
           /\ accepts rt selectedType parsed = true
           /\ enc = useFhevmEncrypt_encrypt ctx selectedType parsed w
           /\ forall entry v,
                In (CallEncrypt entry v) (snd enc) ->
                selectedType = type_tag entry
                /\ v = parsed
                /\ accepts rt (type_tag entry) v = true
  | None =>
      exists message,
        message <> ""
        /\ fst (handleEncrypt rt ctx w selectedType inputValue) = [""; message]
  end.
Proof.
  unfold handleEncrypt.
  destruct (parseValueForType rt selectedType inputValue) as [parsed|].
  - destruct (valid (validateEncryptionValue rt selectedType parsed)) eqn:Hvalid;
      cbn [negb fst snd].
    + split; [reflexivity|]. exists parsed. repeat split; try assumption.
      * apply (encrypt_wrapper_calls ctx selectedType parsed w entry v H).
      * apply (encrypt_wrapper_calls ctx selectedType parsed w entry v H).
      * destruct (encrypt_wrapper_calls ctx selectedType parsed w entry v H) as [<- ->].
        exact Hvalid.
    + destruct (verdict_is_well_formed rt selectedType parsed)
        as [[Hacc | (reason & Hne & Hrej)] _].
      * rewrite Hacc in Hvalid. discriminate.
      * exists reason. split; [exact Hne|].
        unfold error_or_default. rewrite Hrej. cbn [error].
        destruct reason; [contradiction | reflexivity].
  - cbn. eexists. split; [|reflexivity]. discriminate.
Qed.

Lemma handleEncrypt_forwards_only_accepted_values_witness :
  exists message,
    message <> ""
    /\ fst (handleEncrypt sample_runtime
              {| ctx_client := Some ready_client; ctx_isInitialized := true |}
              offline_world "address" "0x123")
       = [""; message].
Proof.
  exact (handleEncrypt_forwards_only_accepted_values sample_runtime
           {| ctx_client := Some ready_client; ctx_isInitialized := true |}
           offline_world "address" "0x123").
Defined.

Lemma parseInt10_leading (s : string) :
  parseInt10 s
  = match leading_integer s with
    | Some z => NumberOfBigInt z
    | None => NaN
    end.
Proof.
  unfold parseInt10, leading_integer.
  match goal with
  | |- context [let '(a, b) := ?m in _] => destruct m as [sign s2]
  end.
  destruct (dec_prefix s2 0 0) as [v [|n]]; reflexivity.
Qed.

Lemma handleEncrypt_integer_tag (rt : Runtime) (ctx : FhevmContextValue) (w : World)
    (tag message : string) (max : Z) (s : string) :
  (0 <= max < 2 ^ 53)%Z ->
  parseValueForType rt tag s = Some (VNumber (parseInt10 s)) ->
  (forall x, validateEncryptionValue rt tag (VNumber x)
             = if out_of_range x max then rejected message else accepted) ->
  message <> "" ->
  handleEncrypt rt ctx w tag s
  = match leading_integer s with
    | Some z =>
        if ((0 <=? z) && (z <=? max))%Z
        then ([""], Some (useFhevmEncrypt_encrypt ctx tag (VNumber (num z)) w))
        else ([""; message], None)
    | None => ([""; message], None)
    end.
Proof.
  intros Hmax Hparse Hvalidate Hmsg.
  unfold handleEncrypt. rewrite Hparse, Hvalidate, parseInt10_leading.
  assert (Hdefault : error_or_default (rejected message) = message).
  { unfold error_or_default. cbn. destruct message; [contradiction | reflexivity]. }
  cbv zeta.
  destruct (leading_integer s) as [z|].
  - rewrite out_of_range_bigint by exact Hmax.
    destruct ((0 <=? z) && (z <=? max))%Z eqn:Hin; cbn [negb].
    + cbn [valid accepted negb].
      apply andb_prop in Hin as [H0 Hm]. apply Z.leb_le in H0, Hm.
      rewrite NumberOfBigInt_exact by lia. reflexivity.
    + change (valid (rejected message)) with false. cbn [negb].
      rewrite Hdefault. reflexivity.
  - change (out_of_range NaN max) with true. cbv iota.
    change (valid (rejected message)) with false. cbn [negb].
    rewrite Hdefault. reflexivity.
Qed.

(** X22.  What the demo accepts as input.  For [uint8], [uint16] and
    [uint32] the input is read by [parseInt(value, 10)]: it is encrypted if
    and only if it starts (after white space and a sign) with decimal
    digits whose value is in range, as that integer, whatever follows the
    digits; otherwise the validator's range message is shown, never
    ["Invalid value for selected type"].  For [bool] every input is
    encrypted: as true when it is ["true"] in any letter case, as false
    otherwise.  For [address] the input is encrypted unchanged when it
    matches the address pattern. *)
Theorem handleEncrypt_input_handling
    (rt : Runtime) (ctx : FhevmContextValue) (w : World) (s : string) :
  let integer_tag tag max message :=
    handleEncrypt rt ctx w tag s
    = match leading_integer s with
      | Some z =>
          if ((0 <=? z) && (z <=? max))%Z
          then ([""], Some (useFhevmEncrypt_encrypt ctx tag (VNumber (num z)) w))
          else ([""; message], None)
      | None => ([""; message], None)
      end in
  integer_tag "uint8" 255%Z "Value must be an integer between 0 and 255"
  /\ integer_tag "uint16" 65535%Z "Value must be an integer between 0 and 65535"
  /\ integer_tag "uint32" 4294967295%Z
       "Value must be an integer between 0 and 4294967295"
  /\ handleEncrypt rt ctx w "bool" s
     = ([""], Some (useFhevmEncrypt_encrypt ctx "bool"
                      (VBoolean (String.eqb (toLowerCase s) "true")) w))
  /\ handleEncrypt rt ctx w "address" s
     = (if address_regex_test s
        then ([""], Some (useFhevmEncrypt_encrypt ctx "address" (VString s) w))
        else ([""; "Value must be a valid Ethereum address"], None)).
Proof.
  intros integer_tag. subst integer_tag. cbv beta.
  split; [|split; [|split; [|split]]].
  - apply handleEncrypt_integer_tag;
      [split; [lia | reflexivity] | reflexivity | reflexivity | discriminate].
  - apply handleEncrypt_integer_tag;
      [split; [lia | reflexivity] | reflexivity | reflexivity | discriminate].
  - apply handleEncrypt_integer_tag;
      [split; [lia | reflexivity] | reflexivity | reflexivity | discriminate].
  - reflexivity.
  - unfold handleEncrypt. cbn [parseValueForType validateEncryptionValue ToString].
    destruct (address_regex_test s); reflexivity.
Qed.

Example handleEncrypt_trailing_text :
  handleEncrypt sample_runtime
    {| ctx_client := Some ready_client; ctx_isInitialized := true |}
    offline_world "uint8" " 12abc"
  = ([""], Some ([SetIsEncrypting true; SetEncryptError None;
                  SetEncrypted (Some sample_ciphertext);
                  SetEncryptedHex (Some "0xc10f3a"); SetIsEncrypting false],
                 Some sample_ciphertext,
                 [CallEncrypt Enc_uint8 (VNumber (num 12))])).
Proof. reflexivity. Qed.

(* ===================================================================== *)
(** ** Further properties of the codec and the security helpers *)
(* ===================================================================== *)

Lemma foldl_same_body {A B} (f g : A -> B -> A) (l : list B) (a : A) :
  (forall a b, f a b = g a b) -> foldl f a l = foldl g a l.
Proof.
  intros H. revert a. induction l as [|b l IH]; intros a; [reflexivity|].
  cbn. rewrite H. apply IH.
Qed.

(** The two decoders differ in how they find the prefix only. *)
Lemma hexToBytes_as_hexToUint8Array (hex : string) :
  replace_first "0x" "" hex = (if startsWith hex "0x" then slice 2 hex else hex) ->
  hexToBytes hex = hexToUint8Array hex.
Proof.
  intros Hclean. unfold hexToBytes, hexToUint8Array. rewrite Hclean.
  set (cleaned := if startsWith hex "0x" then slice 2 hex else hex).
  destruct (new_Uint8Array (half (String.length cleaned))) as [bytes | e];
    [|reflexivity].
  cbn [bindR]. f_equal. apply foldl_same_body.
  intros a i. rewrite substring_is_substr. reflexivity.
Qed.

Lemma replace_first_at_start (hex : string) :
  startsWith hex "0x" = true -> replace_first "0x" "" hex = slice 2 hex.
Proof.
  unfold startsWith. intros H.
  destruct hex as [|c hex]; [discriminate|].
  unfold replace_first; fold replace_first. rewrite H. reflexivity.
Qed.

(** X23.  The two decoders agree on every string that starts with [0x] and
    on every string in which [0x] does not occur; they differ only in that
    [hexToBytes] removes the first [0x] wherever it stands, while
    [hexToUint8Array] removes it at the start only. *)
Theorem decoders_agree_on_prefixed_input (hex : string) :
  startsWith hex "0x" = true \/ replace_first "0x" "" hex = hex ->
  hexToBytes hex = hexToUint8Array hex.
Proof.
  intros [Hstart | Hnone]; apply hexToBytes_as_hexToUint8Array.
  - rewrite Hstart. apply replace_first_at_start. exact Hstart.
  - destruct (startsWith hex "0x") eqn:Hstart; [|exact Hnone].
    rewrite (replace_first_at_start hex Hstart) in Hnone.
    rewrite (replace_first_at_start hex Hstart). reflexivity.
Qed.

Lemma decoders_agree_on_prefixed_input_witness :
  hexToBytes "0xab0xcd" = hexToUint8Array "0xab0xcd".
Proof. apply decoders_agree_on_prefixed_input. left. reflexivity. Defined.

Example decoders_differ_on_inner_prefix :
  hexToBytes "ab0xcd" = Returned [xab; xcd]
  /\ hexToUint8Array "ab0xcd" = Returned [xab; x00; xcd].
Proof. split; vm_compute; reflexivity. Qed.

Lemma startsWith_0x_append (s : string) : startsWith ("0x" +:+ s) "0x" = true.
Proof. destruct s; reflexivity. Qed.

(** [sanitizeHex] returns a string that starts with [0x], leaves an
    already prefixed string unchanged (so it is idempotent), and does not
    change what [hexToUint8Array] decodes. *)
Theorem sanitizeHex_is_idempotent_and_transparent (hex : string) :
  startsWith (sanitizeHex hex) "0x" = true
  /\ sanitizeHex (sanitizeHex hex) = sanitizeHex hex
  /\ (startsWith hex "0x" = true -> sanitizeHex hex = hex)
  /\ hexToUint8Array (sanitizeHex hex) = hexToUint8Array hex.
Proof.
  unfold sanitizeHex.
  destruct (startsWith hex "0x") eqn:Hstart.
  - rewrite Hstart. repeat split; auto.
  - rewrite startsWith_0x_append. repeat split.
    + discriminate.
    + unfold hexToUint8Array. rewrite startsWith_0x_append, Hstart.
      replace (slice 2 ("0x" +:+ hex)) with hex by (destruct hex; reflexivity).
      reflexivity.
Qed.

Lemma sanitizeHex_is_idempotent_and_transparent_witness :
  sanitizeHex "0xAB" = "0xAB".
Proof.
  apply (sanitizeHex_is_idempotent_and_transparent "0xAB"). reflexivity.
Defined.

Lemma lower_hex_is_hex (c : ascii) :
  is_lower_hex_digit c = true -> is_hex_digit c = true.
Proof. destruct c as [[] [] [] [] [] [] [] []]; intros H; try discriminate H; reflexivity. Qed.

Lemma match_class_many_all (cls : ascii -> bool) (s : string) :
  forallb cls (list_ascii_of_string s) = true ->
  match_class_many cls s = (String.length s, "").
Proof.
  induction s as [|c s IH]; [reflexivity|].
  cbn [list_ascii_of_string forallb match_class_many String.length].
  intros H. apply andb_prop in H as [Hc Hs]. rewrite Hc, (IH Hs). reflexivity.
Qed.

(** X24.  The encoder's output and [isValidHex].  The hex string printed
    for a byte sequence passes [isValidHex] if and only if the sequence is
    not empty: the empty sequence prints as ["0x"], which the pattern, with
    its one-or-more digits, rejects. *)
Theorem isValidHex_of_encoded_bytes (bytes : Uint8Array) :
  isValidHex (bytesToHex bytes) = negb (Nat.eqb (length bytes) 0)
  /\ isValidHex (encryptedToHex bytes) = isValidEncryptedData bytes.
Proof.
  assert (H : isValidHex (bytesToHex bytes) = negb (Nat.eqb (length bytes) 0)).
  { unfold bytesToHex.
    change ("0x" +:+ ?d) with (String "0" (String "x" d)).
    unfold isValidHex.
    rewrite match_class_many_all.
    - rewrite hex_digits_length. destruct bytes; reflexivity.
    - pose proof (hex_digits_lower bytes) as Hl.
      rewrite forallb_forall in Hl |- *.
      intros c Hc. apply lower_hex_is_hex, Hl, Hc. }
  split; [exact H|].
  change (encryptedToHex bytes) with (bytesToHex bytes). rewrite H.
  unfold isValidEncryptedData. destruct bytes; reflexivity.
Qed.

Lemma match_class_many_end (cls : ascii -> bool) (s : string) (n : nat) :
  match_class_many cls s = (n, "") ->
  forallb cls (list_ascii_of_string s) = true.
Proof.
  revert n. induction s as [|c s IH]; intros n; [reflexivity|].
  cbn [match_class_many list_ascii_of_string forallb].
  destruct (cls c); [|discriminate].
  destruct (match_class_many cls s) as [m rest] eqn:E.
  intros [= _ ->]. rewrite (IH m eq_refl). reflexivity.
Qed.

Lemma decoded_pairs_two_more (c1 c2 : ascii) (rest : string) :
  decoded_pairs (String c1 (String c2 rest))
  = ToUint8 (parseInt16 (String c1 (String c2 ""))) :: decoded_pairs rest.
Proof.
  unfold decoded_pairs. cbn [String.length].
  replace (S (S (String.length rest)) / 2) with (S (String.length rest / 2)).
  2:{ change (S (S (String.length rest))) with (1 * 2 + String.length rest).
      rewrite Nat.div_add_l by lia. reflexivity. }
  cbn [seq map]. f_equal.
  - unfold substr. cbn. destruct rest; reflexivity.
  - rewrite <- seq_shift, map_map. apply map_ext. intros k.
    unfold substr. replace (2 * S k) with (S (S (2 * k))) by lia. reflexivity.
Qed.

(** Two hexadecimal digits of either case, read as a byte and printed
    again, come back in lower case. *)
Lemma hex_pair_normalises (c1 c2 : ascii) :
  is_hex_digit c1 = true -> is_hex_digit c2 = true ->
  byte_hex (ToUint8 (parseInt16 (String c1 (String c2 ""))))
  = String (toLowerCase_char c1) (String (toLowerCase_char c2) "").
Proof.
  intros H1 H2. apply is_hex_digit_spec in H1, H2. cbn in H1, H2.
  repeat (destruct H1 as [<- | H1]; [|]);
    try contradiction;
    repeat (destruct H2 as [<- | H2]; [vm_compute; reflexivity|]);
    contradiction.
Qed.

Lemma hex_digits_normalise (n : nat) :
  forall digits : string,
    String.length digits = 2 * n ->
    forallb is_hex_digit (list_ascii_of_string digits) = true ->
    join_empty (map byte_hex (decoded_pairs digits)) = toLowerCase digits.
Proof.
  induction n as [|n IH]; intros digits Hlen Hall.
  - destruct digits; [reflexivity | discriminate].
  - destruct digits as [|c1 [|c2 rest]]; try (cbn in Hlen; lia).
    cbn [list_ascii_of_string forallb] in Hall.
    apply andb_prop in Hall as [H1 Hall]. apply andb_prop in Hall as [H2 Hall].
    rewrite decoded_pairs_two_more.
    change (join_empty (map byte_hex (?b :: ?l)))
      with (byte_hex b +:+ join_empty (map byte_hex l)).
    rewrite (hex_pair_normalises c1 c2 H1 H2), append_two.
    rewrite IH; [reflexivity | cbn in Hlen; lia | exact Hall].
Qed.

(** X25.  Normalisation.  A string that [isValidHex] accepts and that has
    an even number of digits decodes, with either decoder, to one byte per
    two digits, and those bytes print as the same string in lower case:
    [bytesToHex(hexToBytes(s)) = s.toLowerCase()]. *)
Theorem decode_then_encode_normalises (s : string) :
  isValidHex s = true ->
  Nat.even (String.length s) = true ->
  (Z.of_nat (String.length s) <= 2 ^ 53 - 1)%Z ->
  exists bytes,
    hexToBytes s = Returned bytes
    /\ hexToUint8Array s = Returned bytes
    /\ 2 * length bytes + 2 = String.length s
    /\ bytesToHex bytes = toLowerCase s
    /\ encryptedToHex bytes = toLowerCase s.
Proof.
  intros Hvalid Heven Hlen.
  unfold isValidHex in Hvalid.
  destruct s as [|c0 [|c1 digits]]; try discriminate.
  destruct (Ascii.eqb_spec c0 "0") as [-> | N0].
  2:{ exfalso. destruct c0 as [[] [] [] [] [] [] [] []];
      try discriminate; apply N0; reflexivity. }
  destruct (Ascii.eqb_spec c1 "x") as [-> | N1].
  2:{ exfalso. destruct c1 as [[] [] [] [] [] [] [] []];
      try discriminate; apply N1; reflexivity. }
  destruct (match_class_many is_hex_digit digits) as [[|m] [|? ?]] eqn:E;
    try discriminate.
  pose proof (match_class_many_end is_hex_digit digits (S m) E) as Hall.
  cbn [String.length] in Heven.
  assert (Hd : exists n, String.length digits = 2 * n).
  { apply Nat.even_spec. exact Heven. }
  destruct Hd as [n Hn].
  exists (decoded_pairs digits).
  change (String "0" (String "x" digits)) with ("0x" +:+ digits) in *.
  rewrite hexToBytes_returns, hexToUint8Array_returns by exact Hlen.
  rewrite replace_first_0x_prefixed, strip_0x_prefixed.
  assert (Hnorm : bytesToHex (decoded_pairs digits) = toLowerCase ("0x" +:+ digits)).
  { unfold bytesToHex. rewrite (hex_digits_normalise n digits Hn Hall). reflexivity. }
  repeat split; try exact Hnorm.
  rewrite decoded_pairs_length, Hn.
  change ("0x" +:+ digits) with (String "0" (String "x" digits)).
  cbn [String.length]. rewrite Hn.
  replace (2 * n / 2) with n by (symmetry; rewrite Nat.mul_comm; apply Nat.div_mul; lia).
  lia.
Qed.

Lemma decode_then_encode_normalises_witness :
  exists bytes,
    hexToBytes "0xC10F3a" = Returned bytes
    /\ hexToUint8Array "0xC10F3a" = Returned bytes
    /\ 2 * length bytes + 2 = 8
    /\ bytesToHex bytes = "0xc10f3a"
    /\ encryptedToHex bytes = "0xc10f3a".
Proof.
  apply (decode_then_encode_normalises "0xC10F3a").
  - reflexivity.
  - reflexivity.
  - vm_compute. discriminate.
Defined.

Lemma string_length_append (s1 s2 : string) :
  String.length (s1 +:+ s2) = String.length s1 + String.length s2.
Proof.
  induction s1 as [|c s1 IH]; [reflexivity|].
  change (String c s1 +:+ s2) with (String c (s1 +:+ s2)).
  cbn [String.length]. rewrite IH. reflexivity.
Qed.

Lemma substring_length (s : string) :
  forall a m, a + m <= String.length s ->
              String.length (String.substring a m s) = m.
Proof.
  induction s as [|c s IH]; intros a m H.
  - cbn in H. assert (a = 0) by lia. assert (m = 0) by lia. subst. reflexivity.
  - destruct a as [|a].
    + destruct m as [|m]; [reflexivity|].
      cbn [String.substring String.length]. rewrite (IH 0 m); [reflexivity|].
      cbn in H. lia.
    + cbn [String.substring]. apply IH. cbn in H. lia.
Qed.

Lemma valid_address_length (address : string) :
  isValidAddress address = true ->
  String.length address = 42 /\ startsWith address "0x" = true.
Proof.
  intros H. apply address_regex_test_spec in H as (digits & -> & Hlen & _).
  change ("0x" +:+ digits) with (String "0" (String "x" digits)).
  cbn [String.length]. rewrite Hlen. split; [reflexivity|].
  destruct digits; reflexivity.
Qed.

(** X26.  [truncateAddress] returns a string that is not a valid address
    unchanged.  For a valid address and [0 <= chars <= 40] it returns the
    first [chars + 2] characters, three dots and the last [chars]
    characters: [2 * chars + 5] characters that still start with [0x], so
    from [chars = 19] on the result is longer than the address itself. *)
Theorem truncateAddress_shape (address : string) (chars : Z) :
  (isValidAddress address = false -> truncateAddress address chars = address)
  /\ (isValidAddress address = true ->
      (0 <= chars <= 40)%Z ->
      truncateAddress address chars
      = String.substring 0 (Z.to_nat chars + 2) address
        +:+ "..."
        +:+ String.substring (42 - Z.to_nat chars) (Z.to_nat chars) address
      /\ String.length (truncateAddress address chars) = 2 * Z.to_nat chars + 5
      /\ startsWith (truncateAddress address chars) "0x" = true).
Proof.
  unfold truncateAddress. split.
  - intros ->. reflexivity.
  - intros Hvalid Hchars. rewrite Hvalid. cbn [negb].
    destruct (valid_address_length address Hvalid) as [Hlen Hstart].
    unfold substring_int, substring. rewrite Hlen.
    set (n := Z.to_nat chars).
    assert (Hn : n <= 40) by (subst n; lia).
    replace (Z.to_nat (Z.max 0 0)) with 0 by reflexivity.
    replace (Z.to_nat (Z.max 0 (chars + 2))) with (n + 2) by (subst n; lia).
    replace (Z.to_nat (Z.max 0 (Z.of_nat 42 - chars))) with (42 - n) by (subst n; lia).
    replace (Z.to_nat (Z.max 0 (Z.of_nat 42))) with 42 by reflexivity.
    rewrite (Nat.min_l 0 42), (Nat.min_l (n + 2) 42), (Nat.min_l (42 - n) 42),
      (Nat.min_l 42 42) by lia.
    rewrite (Nat.min_l 0 (n + 2)), (Nat.max_r 0 (n + 2)),
      (Nat.min_l (42 - n) 42), (Nat.max_r (42 - n) 42) by lia.
    replace (n + 2 - 0) with (n + 2) by lia.
    replace (42 - (42 - n)) with n by lia.
    split; [reflexivity|]. split.
    + rewrite !string_length_append, !substring_length by lia.
      cbn [String.length]. lia.
    + unfold startsWith in *.
      destruct address as [|c0 [|c1 rest]]; try discriminate.
      replace (n + 2) with (S (S n)) by lia.
      cbn [String.substring].
      change (String c0 (String c1 ?t) +:+ ?u) with (String c0 (String c1 (t +:+ u))).
      cbn [String.prefix] in Hstart |- *.
      destruct (ascii_dec "0" c0); [|discriminate].
      destruct (ascii_dec "x" c1); [|discriminate].
      destruct (_ +:+ _); reflexivity.
Qed.

Lemma truncateAddress_shape_witness :
  truncateAddress_default "0x52908400098527886E0F7030069857D2E4169EE7"
  = "0x5290...9EE7"
  /\ truncateAddress "0x123" 4 = "0x123".
Proof.
  pose proof (truncateAddress_shape "0x52908400098527886E0F7030069857D2E4169EE7" 4)
    as [_ Hvalid].
  pose proof (truncateAddress_shape "0x123" 4) as [Hinvalid _].
  split.
  - destruct (Hvalid eq_refl ltac:(lia)) as [H _]. exact H.
  - apply Hinvalid. reflexivity.
Defined.

(* ===================================================================== *)
(** ** createInputProof *)
(* ===================================================================== *)

Lemma add_values_supported (builder : BuilderBehaviour) (values rest : list TypedValue) :
  (forall log c, is_thrown (builder_add builder log c) = false) ->
  Forall (fun item => add_call item <> None) values ->
  forall log,
    add_values builder (values ++ rest) log
    = add_values builder rest (log ++ omap add_call values).
Proof.
  intros Hadd Hall. induction Hall as [|item values Hitem Hall IH]; intros log.
  - cbn. rewrite app_nil_r. reflexivity.
  - cbn [app add_values omap list_omap].
    destruct (add_call item) as [c|]; [|contradiction].
    specialize (Hadd log c). destruct (builder_add builder log c); [|discriminate].
    rewrite IH, <- app_assoc. reflexivity.
Qed.

(** X27.  Batch ordering.  [createInputProof] creates one builder for the
    given contract and user, adds the values in the order given, each with
    the builder method of its type, and calls [encrypt()] once, last,
    returning its result.  At the first value of an unsupported type it
    throws ["Unsupported type: <tag>"]: the values before it have been
    added, the ones after it have not, and [encrypt()] is not called. *)
Theorem createInputProof_adds_in_order
    (builder_of : EncryptedInputBuilder -> BuilderBehaviour) (i : FhevmInstance)
    (contractAddress userAddress : string) (input : EncryptedInputBuilder) :
  inst_createEncryptedInput i contractAddress userAddress = Returned input ->
  (forall log c, is_thrown (builder_add (builder_of input) log c) = false) ->
  let created := BCreateEncryptedInput contractAddress userAddress in
  (forall values,
      Forall (fun item => add_call item <> None) values ->
      createInputProof builder_of i contractAddress userAddress values
      = (builder_encrypt (builder_of input) (created :: omap add_call values),
         created :: omap add_call values ++ [BEncrypt])
      /\ length (omap add_call values) = length values)
  /\ (forall before bad after,
         Forall (fun item => add_call item <> None) before ->
         add_call bad = None ->
         createInputProof builder_of i contractAddress userAddress
           (before ++ bad :: after)
         = (Thrown (Error ("Unsupported type: " +:+ tv_type bad)),
            created :: omap add_call before)).
Proof.
  intros Hcreate Hadd created. split.
  - intros values Hall. split.
    + unfold createInputProof. rewrite Hcreate.
      rewrite <- (app_nil_r values) at 1.
      rewrite (add_values_supported _ values [] Hadd Hall). reflexivity.
    + induction Hall as [|item values Hitem Hall IH]; [reflexivity|].
      cbn [omap list_omap]. destruct (add_call item); [|contradiction].
      cbn [length]. rewrite IH. reflexivity.
  - intros before bad after Hall Hbad.
    unfold createInputProof. rewrite Hcreate.
    rewrite (add_values_supported _ before (bad :: after) Hadd Hall).
    cbn [add_values]. rewrite Hbad. reflexivity.
Qed.

Lemma createInputProof_adds_in_order_witness :
  createInputProof (fun _ => sample_builder) sample_instance
    "0x52908400098527886E0F7030069857D2E4169EE7"
    "0xde709f2102306220921060314715629080e2fb77"
    [ {| tv_type := "uint32"; tv_value := VNumber (num 42) |};
      {| tv_type := "bool"; tv_value := VBoolean true |} ]
  = (Returned {| handles := [sample_ciphertext; sample_ciphertext];
                 inputProof := "0x70726f6f66" |},
     [BCreateEncryptedInput "0x52908400098527886E0F7030069857D2E4169EE7"
        "0xde709f2102306220921060314715629080e2fb77";
      BAdd32 (VNumber (num 42)); BAddBool (VBoolean true); BEncrypt]).
Proof.
  pose proof (createInputProof_adds_in_order (fun _ => sample_builder) sample_instance
                "0x52908400098527886E0F7030069857D2E4169EE7"
                "0xde709f2102306220921060314715629080e2fb77"
                (BuilderHandle 0) eq_refl (fun _ _ => eq_refl)) as [Hall _].
  apply Hall.
  repeat constructor; discriminate.
Defined.

(* ===================================================================== *)
(** ** serverEncryptValue / encryptValue *)
(* ===================================================================== *)

Lemma serverEncryptValue_by_entry (rt : Runtime) (type : string) (v : JsValue) :
  serverEncryptValue rt {| er_type := type; er_value := v |}
  = bind
      (match entry_of_type type with
       | Some Enc_bool => encryptBool (VBoolean (ToBoolean v))
       | Some Enc_uint8 => encryptUint8 (VNumber (ToNumber rt v))
       | Some Enc_uint16 => encryptUint16 (VNumber (ToNumber rt v))
       | Some Enc_uint32 => encryptUint32 (VNumber (ToNumber rt v))
       | Some Enc_uint64 =>
           bind (lift (ToBigInt rt v)) (fun z => encryptUint64 (VBigInt z))
       | Some Enc_address => encryptAddress (VString (ToString rt v))
       | None => throw (Error ("Unsupported encryption type: " +:+ type))
       end)
      (fun ciphertext =>
         ret {| res_ciphertext := ciphertext;
                res_hex := "0x" +:+ Buffer_toString_hex ciphertext;
                res_type := type |}).
Proof.
  unfold serverEncryptValue, entry_of_type. cbn [er_type er_value].
  split_string_match.
Qed.

(** What [serverEncryptValue] does, by entry point. *)
Lemma serverEncryptValue_run (rt : Runtime) (type : string) (v : JsValue)
    (w : World) (c : FhevmClient) :
  run (serverEncryptValue rt {| er_type := type; er_value := v |}) w c
  = match entry_of_type type with
    | None =>
        (Thrown (Error ("Unsupported encryption type: " +:+ type)), c, [])
    | Some entry =>
        match coerce_for rt entry v with
        | Thrown e => (Thrown e, c, [])
        | Returned arg =>
            match instance c with
            | None => (Thrown (Error not_initialized_message), c, [])
            | Some i =>
                (match entry_of i entry arg with
                 | Returned ciphertext =>
                     Returned {| res_ciphertext := ciphertext;
                                 res_hex := encryptedToHex ciphertext;
                                 res_type := type |}
                 | Thrown e => Thrown e
                 end, c, [CallEncrypt entry arg])
            end
        end
    end.
Proof.
  rewrite serverEncryptValue_by_entry.
  pose proof (fun entry arg => typed_encrypt_run entry arg w c []) as Hrun.
  destruct (entry_of_type type) as [entry|]; [|reflexivity].
  change encryptBool with (typed_encrypt Enc_bool).
  change encryptUint8 with (typed_encrypt Enc_uint8).
  change encryptUint16 with (typed_encrypt Enc_uint16).
  change encryptUint32 with (typed_encrypt Enc_uint32).
  change encryptUint64 with (typed_encrypt Enc_uint64).
  change encryptAddress with (typed_encrypt Enc_address).
  destruct entry; cbn [coerce_for bindR]; unfold run, bind, lift;
    try (rewrite Hrun; destruct (instance c) as [i|]; [|reflexivity];
         cbn [entry_of app];
         match goal with
         | |- context [match ?r with Returned _ => _ | Thrown _ => _ end] =>
             destruct r; reflexivity
         end).
  destruct (ToBigInt rt v) as [z | e]; [|reflexivity]. cbn [bindR].
  rewrite Hrun.
  destruct (instance c) as [i|]; [|reflexivity].
  cbn [entry_of app]. destruct (encrypt_uint64 i (VBigInt z)); reflexivity.
Qed.

Lemma coerce_for_declared_type (rt : Runtime) (entry : EncryptEntry) (v arg : JsValue) :
  coerce_for rt entry v = Returned arg -> has_declared_type entry arg = true.
Proof.
  destruct entry; cbn [coerce_for]; try (intros [= <-]; reflexivity).
  destruct (ToBigInt rt v); cbn [bindR]; [intros [= <-]; reflexivity | discriminate].
Qed.

Lemma hexToUint8Array_of_encoded (bytes : Uint8Array) :
  (Z.of_nat (String.length (encryptedToHex bytes)) <= 2 ^ 53 - 1)%Z ->
  hexToUint8Array (encryptedToHex bytes) = Returned bytes.
Proof.
  intros Hlen. rewrite hexToUint8Array_returns by exact Hlen.
  unfold encryptedToHex. rewrite strip_0x_prefixed, decoded_pairs_of_hex_digits.
  reflexivity.
Qed.

Lemma serverEncryptValue_result_fields
    (rt : Runtime) (request : EncryptionRequest) (w : World) (c : FhevmClient)
    (res : EncryptionResult) :
  result_of (run (serverEncryptValue rt request) w c) = Returned res ->
  res_type res = er_type request
  /\ res_hex res = encryptedToHex (res_ciphertext res).
Proof.
  destruct request as [type v]. rewrite serverEncryptValue_run.
  destruct (entry_of_type type) as [e0|]; [|discriminate].
  destruct (coerce_for rt e0 v) as [a|]; [|discriminate].
  destruct (instance c) as [i|]; [|discriminate].
  cbn [result_of fst]. destruct (entry_of i e0 a) as [ct|]; [|discriminate].
  intros [= <-]. split; reflexivity.
Qed.

(** X28.  [serverEncryptValue] (and [encryptValue], the same body) never
    validates but always converts: the argument that reaches the instance
    is [Boolean(value)] for [bool], [Number(value)] for the three small
    integer tags, [BigInt(value)] for [uint64] and [String(value)] for
    [address], so it has the type the entry point declares.  A [BigInt]
    conversion that throws, and an unknown tag, reject before any call is
    made, with the error unwrapped.  On success the [hex] field is the
    [0x]-prefixed lower-case encoding of the ciphertext and decodes back to
    it; the client's fields are never written. *)
Theorem serverEncryptValue_converts_then_encodes
    (rt : Runtime) (request : EncryptionRequest) (w : World) (c : FhevmClient) :
  let r := run (serverEncryptValue rt request) w c in
  client_of r = c
  /\ (forall entry arg,
         In (CallEncrypt entry arg) (calls_of r) ->
         er_type request = type_tag entry
         /\ coerce_for rt entry (er_value request) = Returned arg
         /\ has_declared_type entry arg = true)
  /\ (forall res,
         result_of r = Returned res ->
         res_type res = er_type request
         /\ res_hex res = encryptedToHex (res_ciphertext res)
         /\ ((Z.of_nat (String.length (res_hex res)) <= 2 ^ 53 - 1)%Z ->
             hexToUint8Array (res_hex res) = Returned (res_ciphertext res)))
  /\ ((forall entry, er_type request <> type_tag entry) ->
      r = (Thrown (Error ("Unsupported encryption type: " +:+ er_type request)), c, []))
  /\ (forall e,
         er_type request = "uint64" ->
         ToBigInt rt (er_value request) = Thrown e ->
         r = (Thrown e, c, [])).
Proof.
  destruct request as [type v]. cbv zeta. cbn [er_type er_value].
  rewrite serverEncryptValue_run.
  split; [|split; [|split; [|split]]].
  - destruct (entry_of_type type) as [entry|]; [|reflexivity].
    destruct (coerce_for rt entry v); [|reflexivity].
    destruct (instance c); reflexivity.
  - intros entry arg.
    destruct (entry_of_type type) as [e0|] eqn:E; [|intros []].
    destruct (coerce_for rt e0 v) as [a|] eqn:Hco; [|intros []].
    destruct (instance c) as [i|]; [|intros []].
    cbn [calls_of snd]. intros [[= <- <-] | []].
    split; [apply entry_of_type_inv; exact E|].
    split; [exact Hco | exact (coerce_for_declared_type rt e0 v a Hco)].
  - intros res.
    destruct (entry_of_type type) as [e0|]; [|discriminate].
    destruct (coerce_for rt e0 v) as [a|]; [|discriminate].
    destruct (instance c) as [i|]; [|discriminate].
    cbn [result_of fst]. destruct (entry_of i e0 a) as [ct|]; [|discriminate].
    intros [= <-]. cbn [res_type res_hex res_ciphertext].
    split; [reflexivity|]. split; [reflexivity|].
    apply hexToUint8Array_of_encoded.
  - intros Hun. rewrite (entry_of_type_unsupported type Hun). reflexivity.
  - intros e -> Hthrow. cbn [entry_of_type coerce_for]. rewrite Hthrow. reflexivity.
Qed.

Lemma serverEncryptValue_converts_then_encodes_witness :
  run (serverEncryptValue sample_runtime
         {| er_type := "uint64"; er_value := VString "12abc" |})
      offline_world ready_client
  = (Thrown (SyntaxError "Cannot convert 12abc to a BigInt"), ready_client, []).
Proof.
  pose proof (serverEncryptValue_converts_then_encodes sample_runtime
                {| er_type := "uint64"; er_value := VString "12abc" |}
                offline_world ready_client) as (_ & _ & _ & _ & H).
  apply H; reflexivity.
Defined.

Example serverEncryptValue_string_false_is_true :
  run (serverEncryptValue sample_runtime
         {| er_type := "bool"; er_value := VString "false" |})
      offline_world ready_client
  = (Returned {| res_ciphertext := sample_ciphertext;
                 res_hex := "0xc10f3a";
                 res_type := "bool" |},
     ready_client, [CallEncrypt Enc_bool (VBoolean true)]).
Proof. reflexivity. Qed.
